(** * Panel-data merge pipeline (merge_panel_data_v2.py): a shallow embedding

    The script reads six heterogeneous statistical sources with pandas,
    brings each onto the key (Country, Year), outer-joins them, fills the
    missing years of every country by linear interpolation and finally
    patches one feature from the commercial score.

    Modelling conventions.
    - A Python [str] is a [string] of UTF-8 bytes.  [str.lower], [str.strip]
      and [str.isdigit] are modelled on the ASCII range; bytes above 127
      (the Chinese aliases and keywords) are left as they are.
    - A pandas cell is a [cell]: a number, a string or NaN.  float64 values
      are modelled as exact rationals ([Q]), so results are stated up to
      [Qeq].
    - A data frame that went through an adapter has the two key columns
      Country and Year as typed fields of every row; the remaining columns
      are the feature columns, kept by position.
    - A column of a source holds numbers or strings, not both, as
      [read_csv] types it; the dtype of a feature column is then numeric
      exactly when no cell of the column holds a string, and the later
      stages keep the dtype of a column.
    - Exceptions are modelled by a small error monad; [try ... except
      Exception] is [try_except]. *)

From Stdlib Require Import String Ascii List Bool ZArith QArith Lia Lqa.
From Stdlib Require Import Sorting.Sorted Sorting.Permutation.
Import ListNotations.
Open Scope string_scope.
Open Scope Z_scope.

Set Implicit Arguments.

(** ** Python string primitives *)

Module PyStr.

(** [c.lower()] for one byte. *)
Definition lower_ascii (c : ascii) : ascii :=
  let n := nat_of_ascii c in
  if (Nat.leb 65 n && Nat.leb n 90)%bool then ascii_of_nat (n + 32) else c.

(** [s.lower()] *)
Fixpoint lower (s : string) : string :=
  match s with
  | EmptyString => EmptyString
  | String c s' => String (lower_ascii c) (lower s')
  end.

(** [s.upper()] *)
Definition upper_ascii (c : ascii) : ascii :=
  let n := nat_of_ascii c in
  if (Nat.leb 97 n && Nat.leb n 122)%bool then ascii_of_nat (n - 32) else c.

Fixpoint upper (s : string) : string :=
  match s with
  | EmptyString => EmptyString
  | String c s' => String (upper_ascii c) (upper s')
  end.

(** [c.isspace()] on the ASCII range: tab, line feed, vertical tab, form
    feed, carriage return, the four separators 28..31 and the space. *)
Definition isspace (c : ascii) : bool :=
  let n := nat_of_ascii c in
  ((Nat.leb 9 n && Nat.leb n 13) || (Nat.leb 28 n && Nat.leb n 32))%bool.

Fixpoint lstrip (s : string) : string :=
  match s with
  | EmptyString => EmptyString
  | String c s' => if isspace c then lstrip s' else s
  end.

(** [rstrip s] drops the trailing white space: a character is kept when it
    is not white space or when something is kept after it. *)
Fixpoint rstrip (s : string) : string :=
  match s with
  | EmptyString => EmptyString
  | String c s' =>
      match rstrip s' with
      | EmptyString => if isspace c then EmptyString else String c EmptyString
      | r => String c r
      end
  end.

(** [s.strip()] *)
Definition strip (s : string) : string := rstrip (lstrip s).

(** [needle in hay] *)
Fixpoint contains (needle hay : string) : bool :=
  (String.prefix needle hay ||
   match hay with
   | EmptyString => false
   | String _ hay' => contains needle hay'
   end)%bool.

(** [s.endswith(suffix)] *)
Fixpoint endswith (suffix s : string) : bool :=
  if String.eqb s suffix then true
  else match s with
       | EmptyString => false
       | String _ s' => endswith suffix s'
       end.

(** [s.isdigit()] on ASCII digits. *)
Definition isdigit_ascii (c : ascii) : bool :=
  let n := nat_of_ascii c in (Nat.leb 48 n && Nat.leb n 57)%bool.

Fixpoint all_digits (s : string) : bool :=
  match s with
  | EmptyString => true
  | String c s' => (isdigit_ascii c && all_digits s')%bool
  end.

Definition isdigit (s : string) : bool :=
  match s with
  | EmptyString => false
  | _ => all_digits s
  end.

(** [int(s)] for a string of digits, most significant digit first. *)
Fixpoint int_acc (acc : Z) (s : string) : Z :=
  match s with
  | EmptyString => acc
  | String c s' => int_acc (10 * acc + (Z.of_nat (nat_of_ascii c) - 48)) s'
  end.

Definition int (s : string) : Z := int_acc 0 s.

(** [x in l] for a list of strings. *)
Definition in_list (x : string) (l : list string) : bool :=
  existsb (String.eqb x) l.

End PyStr.

(** ** 1. Configuration and the country normalizer *)

Definition TARGET_COUNTRIES : list string :=
  [ "United States"; "China"; "United Kingdom"; "Germany"; "Japan";
    "South Korea"; "France"; "Canada"; "India"; "United Arab Emirates" ].

(** The dict literal, in insertion order (the order of [.items()]). *)
Definition COUNTRY_NAME_MAPPING : list (string * string) :=
  [ ("People's Republic of China", "China");
    ("China (People's Republic of)", "China");
    ("CHN", "China");
    ("PRC", "China");
    ("中国", "China");
    ("Korea", "South Korea");
    ("Republic of Korea", "South Korea");
    ("Korea, Rep.", "South Korea");
    ("KOR", "South Korea");
    ("South Korea (Republic of Korea)", "South Korea");
    ("韩国", "South Korea");
    ("USA", "United States");
    ("U.S.A.", "United States");
    ("US", "United States");
    ("U.S.", "United States");
    ("United States of America", "United States");
    ("美国", "United States");
    ("UK", "United Kingdom");
    ("GBR", "United Kingdom");
    ("Great Britain", "United Kingdom");
    ("United Kingdom of Great Britain and Northern Ireland", "United Kingdom");
    ("英国", "United Kingdom");
    ("DEU", "Germany");
    ("Deutschland", "Germany");
    ("德国", "Germany");
    ("JPN", "Japan");
    ("日本", "Japan");
    ("FRA", "France");
    ("法国", "France");
    ("CAN", "Canada");
    ("加拿大", "Canada");
    ("IND", "India");
    ("印度", "India");
    ("UAE", "United Arab Emirates");
    ("ARE", "United Arab Emirates");
    ("Emirates", "United Arab Emirates");
    ("阿联酋", "United Arab Emirates") ].

(** [d[k]] guarded by [k in d]. *)
Fixpoint dict_get (d : list (string * string)) (k : string) : option string :=
  match d with
  | [] => None
  | (k', v) :: d' => if String.eqb k k' then Some v else dict_get d' k
  end.

(** The [for variant, standard in COUNTRY_NAME_MAPPING.items()] loop of
    [standardize_country_name], returning at the first hit. *)
Fixpoint fuzzy_match (items : list (string * string)) (country_name : string)
  : option string :=
  match items with
  | [] => None
  | (variant, standard) :: items' =>
      if (PyStr.contains (PyStr.lower variant) (PyStr.lower country_name)
          || PyStr.contains (PyStr.lower country_name) (PyStr.lower variant))%bool
      then Some standard
      else fuzzy_match items' country_name
  end.

(** [standardize_country_name]: the argument is [None] when [pd.isna] holds
    of it, and [Some s] with [s = str(country_name)] otherwise. *)
Definition standardize_country_name (country_name : option string)
  : option string :=
  match country_name with
  | None => None
  | Some raw =>
      let country_name := PyStr.strip raw in
      if PyStr.in_list country_name TARGET_COUNTRIES then Some country_name
      else match dict_get COUNTRY_NAME_MAPPING country_name with
           | Some standard => Some standard
           | None => fuzzy_match COUNTRY_NAME_MAPPING country_name
           end
  end.

(** ** Cells, raw tables, data frames *)

(** One pandas cell: a number, a string, or NaN (the missing value). *)
Inductive cell : Type :=
| Num (q : Q)
| Str (s : string)
| NaN.

(** [pd.isna] / [.isna()] *)
Definition isna (c : cell) : bool :=
  match c with NaN => true | _ => false end.

Definition notna (c : cell) : bool := negb (isna c).

Definition is_str (c : cell) : bool :=
  match c with Str _ => true | _ => false end.

(** Equality of cells up to the representation of a rational. *)
Definition cell_equiv (a b : cell) : Prop :=
  match a, b with
  | Num p, Num q => p == q
  | Str s, Str t => s = t
  | NaN, NaN => True
  | _, _ => False
  end.

(** A row of a keyed frame: the two key columns and the feature cells. *)
Record Row : Type := mkRow {
  Country : string;
  Year : Z;
  feats : list cell
}.

(** A keyed frame: the names of the feature columns and the rows.
    [pd.DataFrame()] and [pd.DataFrame(columns=['Country','Year'])] are both
    the frame without feature column and without row. *)
Record DataFrame : Type := mkDF {
  columns : list string;
  rows : list Row
}.

(** [len(df)] *)
Definition len (df : DataFrame) : Z := Z.of_nat (length (rows df)).

(** [pd.DataFrame(columns=['Country', 'Year'] + cols)] *)
Definition empty_frame (cols : list string) : DataFrame := mkDF cols [].

(** [row[col]] by position of the feature column. *)
Definition cell_at (j : nat) (r : Row) : cell := nth j (feats r) NaN.

Definition key (r : Row) : string * Z := (Country r, Year r).

Definition key_eqb (a b : Row) : bool :=
  (String.eqb (Country a) (Country b) && (Year a =? Year b))%bool.

(** Every row of the frame has one cell per feature column. *)
Definition wf_frame (df : DataFrame) : Prop :=
  Forall (fun r => length (feats r) = length (columns df)) (rows df).

(** The (Country, Year) pairs of the rows are pairwise different. *)
Definition unique_keys (df : DataFrame) : Prop := NoDup (map key (rows df)).

Definition nan_cells (n : nat) : list cell := repeat NaN n.

(** Position of the first column with the given name. *)
Fixpoint index_of (name : string) (cols : list string) : option nat :=
  match cols with
  | [] => None
  | c :: cols' =>
      if String.eqb name c then Some O
      else option_map S (index_of name cols')
  end.

(** ** 6. Merge *)

(** Column names of [pd.merge]: a feature column present on both sides gets
    the suffix [_x] on the left and [_y] on the right. *)
Definition suffixed (other : list string) (suffix : string) (c : string)
  : string :=
  if PyStr.in_list c other then c ++ suffix else c.

(** [pd.merge(left, right, on=['Country', 'Year'], how='outer')].
    Every left row is paired with the right rows of the same key, in their
    order, or padded with NaN when there is none; the right rows without a
    left partner follow, padded on the left.  (pandas returns these rows
    ordered by key; [merge_all_data] sorts the final frame by key with a
    stable sort, so that only the order within one key matters, and that
    order is the one below.) *)
Definition merge_left_row (nr : nat) (right : list Row) (l : Row) : list Row :=
  match filter (key_eqb l) right with
  | [] => [mkRow (Country l) (Year l) (feats l ++ nan_cells nr)]
  | ms => map (fun r => mkRow (Country l) (Year l) (feats l ++ feats r)) ms
  end.

Definition right_only (nl : nat) (left : list Row) (r : Row) : list Row :=
  if existsb (fun l => key_eqb l r) left then []
  else [mkRow (Country r) (Year r) (nan_cells nl ++ feats r)].

Definition pd_merge_outer (left right : DataFrame) : DataFrame :=
  mkDF (map (suffixed (columns right) "_x") (columns left)
        ++ map (suffixed (columns left) "_y") (columns right))
       (flat_map (merge_left_row (length (columns right)) (rows right))
                 (rows left)
        ++ flat_map (right_only (length (columns left)) (rows left))
                    (rows right)).

(** Order of [sort_values(['Country', 'Year'])]: strings by code point
    (which is the byte order of UTF-8), then years. *)
Definition key_leb (a b : Row) : bool :=
  match String.compare (Country a) (Country b) with
  | Lt => true
  | Eq => Year a <=? Year b
  | Gt => false
  end.

Fixpoint insert_row (r : Row) (l : list Row) : list Row :=
  match l with
  | [] => [r]
  | h :: t => if key_leb r h then r :: l else h :: insert_row r t
  end.

(** Sorting on several columns is stable in pandas. *)
Fixpoint sort_rows (l : list Row) : list Row :=
  match l with
  | [] => []
  | h :: t => insert_row h (sort_rows t)
  end.

Definition sort_values (df : DataFrame) : DataFrame :=
  mkDF (columns df) (sort_rows (rows df)).

(** The loop of [merge_all_data]: one step per [(name, df)] of [df_list]. *)
Definition merge_step (df_merged : option DataFrame)
  (item : string * option DataFrame) : option DataFrame :=
  match snd item with
  | Some df =>
      if 0 <? len df then
        match df_merged with
        | None => Some df
        | Some m => Some (pd_merge_outer m df)
        end
      else df_merged
  | None => df_merged
  end.

(** [merge_all_data]; the year column is already integer in a keyed frame,
    [astype(int)] is the identity on it. *)
Definition merge_all_data (df_list : list (string * option DataFrame))
  : DataFrame :=
  match fold_left merge_step df_list None with
  | None => mkDF [] []
  | Some df_merged =>
      if len df_merged =? 0 then mkDF [] []
      else sort_values df_merged
  end.

(** ** Linear interpolation *)

(** The known points of a column: position and value of every numeric
    cell, positions counted from [start] ([indices[valid]], [yvalues[valid]]). *)
Fixpoint known_from (start : Z) (col : list cell) : list (Z * Q) :=
  match col with
  | [] => []
  | Num q :: col' => (start, q) :: known_from (start + 1) col'
  | _ :: col' => known_from (start + 1) col'
  end.

(** [np.interp] to the right of the point [(x0, f0)]: on the segment to the
    next point the value is [slope * (x - x0) + f0]; after the last point
    it is the last value. *)
Fixpoint np_interp_from (x x0 : Z) (f0 : Q) (rest : list (Z * Q)) : Q :=
  match rest with
  | [] => f0
  | (x1, f1) :: rest' =>
      if x <? x1
      then ((f1 - f0) / inject_Z (x1 - x0) * inject_Z (x - x0) + f0)%Q
      else np_interp_from x x1 f1 rest'
  end.

(** [np.interp(x, xp, fp)] with the default [left = fp[0]] and
    [right = fp[-1]]; [None] stands for the empty [xp]. *)
Definition np_interp (x : Z) (pts : list (Z * Q)) : option Q :=
  match pts with
  | [] => None
  | (x0, f0) :: rest =>
      Some (if x <=? x0 then f0 else np_interp_from x x0 f0 rest)
  end.

(** One cell of the interpolated column. *)
Definition fill_cell (pts : list (Z * Q)) (x : Z) (c : cell) : cell :=
  match c with
  | NaN => match np_interp x pts with Some q => Num q | None => NaN end
  | _ => c
  end.

Fixpoint fill_from (pts : list (Z * Q)) (start : Z) (col : list cell)
  : list cell :=
  match col with
  | [] => []
  | c :: col' => fill_cell pts start c :: fill_from pts (start + 1) col'
  end.

(** [series.interpolate(method='linear', limit_direction='both')]: the
    missing cells take the value of [np.interp] at their position over the
    positions and values of the known cells; a column without known cell is
    returned as it is. *)
Definition interpolate (col : list cell) : list cell :=
  fill_from (known_from 0 col) 0 col.

(** ** Temporal interpolator *)

(** [df[col]] and [df[col] = values] by position of the feature column. *)
Definition get_col (j : nat) (rs : list Row) : list cell := map (cell_at j) rs.

Fixpoint set_nth (j : nat) (v : cell) (l : list cell) : list cell :=
  match l, j with
  | [], _ => []
  | _ :: l', O => v :: l'
  | c :: l', S j' => c :: set_nth j' v l'
  end.

Fixpoint set_col (j : nat) (vals : list cell) (rs : list Row) : list Row :=
  match rs, vals with
  | r :: rs', v :: vals' =>
      mkRow (Country r) (Year r) (set_nth j v (feats r)) :: set_col j vals' rs'
  | _, _ => rs
  end.

(** dtype of feature column [j] of the frame: numeric when no cell is a
    string. *)
Definition numeric_col (rs : list Row) (j : nat) : bool :=
  forallb (fun r => negb (is_str (cell_at j r))) rs.

(** [select_dtypes(include=[np.number]).columns] without Year. *)
Definition numeric_cols (df : DataFrame) : list nat :=
  filter (numeric_col (rows df)) (seq 0 (length (columns df))).

Definition min_year (rs : list Row) (y0 : Z) : Z :=
  fold_left (fun m r => Z.min m (Year r)) rs y0.

Definition max_year (rs : list Row) (y0 : Z) : Z :=
  fold_left (fun m r => Z.max m (Year r)) rs y0.

(** [range(lo, hi)] *)
Definition range (lo hi : Z) : list Z :=
  map (fun i => lo + Z.of_nat i) (seq 0 (Z.to_nat (hi - lo))).

(** [pd.merge(full_years, df_country, on='Year', how='left')] followed by
    [df_country_full['Country'] = country]: every year of the range with
    the rows of that year, or one row of missing values. *)
Definition year_rows (ncols : nat) (country : string) (df_country : list Row)
  (y : Z) : list Row :=
  match filter (fun r => Year r =? y) df_country with
  | [] => [mkRow country y (nan_cells ncols)]
  | ms => map (fun r => mkRow country y (feats r)) ms
  end.

(** The body of the loop over [TARGET_COUNTRIES]: the frame appended to
    [df_interpolated_list], or nothing ([continue]). *)
Definition interpolate_country (df : DataFrame) (country : string)
  : list (list Row) :=
  match filter (fun r => String.eqb (Country r) country) (rows df) with
  | [] => []
  | (r0 :: _) as df_country =>
      let lo := min_year df_country (Year r0) in
      let hi := max_year df_country (Year r0) in
      let full_years := range lo (hi + 1) in
      let df_country_full :=
        flat_map (year_rows (length (columns df)) country df_country)
                 full_years in
      [ fold_left (fun rs col => set_col col (interpolate (get_col col rs)) rs)
                  (numeric_cols df) df_country_full ]
  end.

Definition interpolate_missing_years (df : DataFrame) : DataFrame :=
  match flat_map (interpolate_country df) TARGET_COUNTRIES with
  | [] => df
  | df_interpolated_list => mkDF (columns df) (concat df_interpolated_list)
  end.

(** ** Cross-feature imputer *)

Definition is_business_ai (col : string) : bool :=
  (PyStr.contains "business" (PyStr.lower col)
   && PyStr.contains "ai" (PyStr.lower col))%bool.

(** The loop over [df.columns] with [break] at the first hit, as a position
    among the feature columns (the key columns Country and Year do not
    contain the keyword). *)
Fixpoint find_business_col (cols : list string) : option nat :=
  match cols with
  | [] => None
  | c :: cols' =>
      if is_business_ai c then Some O
      else option_map S (find_business_col cols')
  end.

Definition scoped_countries : list string :=
  ["China"; "India"; "United Arab Emirates"].

(** One pass of [df.loc[mask, business_col] = df.loc[mask, 'Commercial_Score']]
    for [country]. *)
Definition patch_row (bcol ccol : nat) (country : string) (r : Row) : Row :=
  if (String.eqb (Country r) country && isna (cell_at bcol r))%bool
  then mkRow (Country r) (Year r) (set_nth bcol (cell_at ccol r) (feats r))
  else r.

(** [df[name] = df[src]] for a name that is not yet a column appends the
    column; for an existing column it replaces the cells. *)
Definition assign_column (name : string) (src : nat) (df : DataFrame)
  : DataFrame :=
  match index_of name (columns df) with
  | Some j =>
      mkDF (columns df)
           (map (fun r => mkRow (Country r) (Year r)
                            (set_nth j (cell_at src r) (feats r))) (rows df))
  | None =>
      mkDF (columns df ++ [name])
           (map (fun r => mkRow (Country r) (Year r)
                            (feats r ++ [cell_at src r])) (rows df))
  end.

Definition impute_with_commercial_score (df : DataFrame) : DataFrame :=
  match index_of "Commercial_Score" (columns df) with
  | None => df
  | Some ccol =>
      match find_business_col (columns df) with
      | Some bcol =>
          mkDF (columns df)
               (fold_left (fun rs country => map (patch_row bcol ccol country) rs)
                          scoped_countries (rows df))
      | None => assign_column "Business_AI_Adoption" ccol df
      end
  end.

(** ** Raw tables, files and exceptions *)

(** What [safe_read_file] / [pd.read_csv] returns: the column names (made
    pairwise different by the reader) and the rows. *)
Record RawTable : Type := mkRaw {
  raw_columns : list string;
  raw_rows : list (list cell)
}.

(** A path of the working directory: absent, or present with what the
    loader makes of it ([None] when [safe_read_file] returns [None]). *)
Inductive file : Type :=
| Absent
| Present (content : option RawTable).

(** [filepath = "x.csv"; if not os.path.exists(filepath): filepath = "x.xlsx"] *)
Definition locate (csv xlsx : file) : file :=
  match csv with
  | Absent => xlsx
  | Present _ => csv
  end.

(** The result of a block that may raise. *)
Inductive result (A : Type) : Type :=
| Ok (a : A)
| Raise (msg : string).

Arguments Ok {A} a.
Arguments Raise {A} msg.

Definition bind {A B : Type} (m : result A) (k : A -> result B) : result B :=
  match m with
  | Ok a => k a
  | Raise msg => Raise msg
  end.

Notation "x <- m ;; k" := (bind m (fun x => k))
  (at level 61, m at next level, right associativity).

(** [try: body  except Exception: handler] *)
Definition try_except {A : Type} (body : result A) (handler : A) : A :=
  match body with
  | Ok a => a
  | Raise _ => handler
  end.

(** Positions of the columns called [name]. *)
Fixpoint positions_from (start : nat) (name : string) (cols : list string)
  : list nat :=
  match cols with
  | [] => []
  | c :: cols' =>
      if String.eqb name c then start :: positions_from (S start) name cols'
      else positions_from (S start) name cols'
  end.

(** [df[name]] as a Series: the column must exist and be the only one of
    that name.  With two of them [df[name]] is a frame, and what the
    adapters apply to it next ([pd.to_numeric], a grouping key) raises. *)
Definition series_pos (name : string) (cols : list string) : result nat :=
  match positions_from 0 name cols with
  | [] => Raise "KeyError"
  | [j] => Ok j
  | _ => Raise "TypeError"
  end.

(** [df.rename(columns={old: new})] for the column at position [j]. *)
Fixpoint rename_at (j : nat) (new : string) (cols : list string) : list string :=
  match cols, j with
  | [], _ => []
  | _ :: cols', O => new :: cols'
  | c :: cols', S j' => c :: rename_at j' new cols'
  end.

Definition rename_opt (j : option nat) (new : string) (cols : list string)
  : list string :=
  match j with
  | Some j => rename_at j new cols
  | None => cols
  end.

(** [enumerate(df.columns)] *)
Definition enumerate (cols : list string) : list (nat * string) :=
  combine (seq 0 (length cols)) cols.

(** Insertion of a key in a sorted list without repetition: the keys of a
    [groupby] come out sorted and distinct. *)
Fixpoint insert_uniq {A : Type} (cmp : A -> A -> comparison) (x : A)
  (l : list A) : list A :=
  match l with
  | [] => [x]
  | h :: t =>
      match cmp x h with
      | Lt => x :: l
      | Eq => l
      | Gt => h :: insert_uniq cmp x t
      end
  end.

Definition group_keys {A : Type} (cmp : A -> A -> comparison) (l : list A)
  : list A :=
  fold_right (insert_uniq cmp) [] l.

(** The numbers among the cells: the aggregations skip NaN. *)
Fixpoint numbers (l : list cell) : list Q :=
  match l with
  | [] => []
  | Num q :: l' => q :: numbers l'
  | _ :: l' => numbers l'
  end.

Definition Qsum (l : list Q) : Q := fold_right Qplus 0%Q l.

(** [.sum()] of a group: NaN is skipped, the empty sum is 0. *)
Definition agg_sum (l : list cell) : cell := Num (Qsum (numbers l)).

(** [.mean()] of a group: NaN is skipped, NaN when nothing is left. *)
Definition agg_mean (l : list cell) : cell :=
  match numbers l with
  | [] => NaN
  | qs => Num (Qsum qs / inject_Z (Z.of_nat (length qs)))%Q
  end.

Fixpoint Qmaximum (q : Q) (l : list Q) : Q :=
  match l with
  | [] => q
  | p :: l' => Qmaximum (if Qle_bool q p then p else q) l'
  end.

(** [.max()] of a group: NaN is skipped, NaN when nothing is left. *)
Definition agg_max (l : list cell) : cell :=
  match numbers l with
  | [] => NaN
  | q :: qs => Num (Qmaximum q qs)
  end.

(** [astype(int)] of a float: truncation toward zero. *)
Definition to_int (q : Q) : Z := Z.quot (Qnum q) (Z.pos (Qden q)).

Definition pair_compare (a b : string * Z) : comparison :=
  match String.compare (fst a) (fst b) with
  | Eq => Z.compare (snd a) (snd b)
  | c => c
  end.

(** ** Source adapters *)

Definition is_none {A : Type} (o : option A) : bool :=
  match o with None => true | Some _ => false end.

Definition opt_list {A : Type} (o : option A) : list A :=
  match o with None => [] | Some a => [a] end.

Definition opt_name {A : Type} (o : option A) (name : string) : list string :=
  match o with None => [] | Some _ => [name] end.

Section Adapters.

(** An adapter is given the two paths it looks for, the [.csv] one and the
    [.xlsx] one, each as a [file]; a detected column is kept by its
    position in [df.columns].

    [str(x)] of a number and [float(s)] of a string are left to pandas:
    [str_of_num] is the text of a number, [parse_num] the number read from a
    text, [None] when the text is not a number. *)
Variable str_of_num : Q -> string.
Variable parse_num : string -> option Q.

(** [series.astype(str)] on one cell. *)
Definition astype_str (c : cell) : string :=
  match c with
  | Str s => s
  | Num q => str_of_num q
  | NaN => "nan"
  end.

(** [pd.to_numeric(series, errors='coerce')] on one cell. *)
Definition to_numeric (c : cell) : cell :=
  match c with
  | Num q => Num q
  | Str s => match parse_num s with Some q => Num q | None => NaN end
  | NaN => NaN
  end.

(** [standardize_country_name] applied to a cell. *)
Definition normalize_cell (c : cell) : option string :=
  match c with
  | NaN => standardize_country_name None
  | Str s => standardize_country_name (Some s)
  | Num q => standardize_country_name (Some (str_of_num q))
  end.

Definition cell_of_name (o : option string) : cell :=
  match o with Some c => Str c | None => NaN end.

Definition is_target (c : cell) : bool :=
  match c with
  | Str s => PyStr.in_list s TARGET_COUNTRIES
  | _ => false
  end.

(** [filter_target_countries(df, country_column)], the country column
    given by its position [j]. *)
Definition filter_target_countries (rs : list (list cell)) (j : nat)
  : list (list cell) :=
  filter (fun row => is_target (nth j row NaN))
         (map (fun row => set_nth j (cell_of_name (normalize_cell (nth j row NaN))) row)
              rs).

(** The text of the country cell of a row that went through
    [filter_target_countries]. *)
Definition country_of (j : nat) (row : list cell) : string :=
  match nth j row NaN with Str s => s | _ => "" end.

(** [to_numeric], keep the rows where the year is known, [astype(int)]. *)
Definition int_year (c : cell) : option Z :=
  match to_numeric c with
  | Num q => Some (to_int q)
  | _ => None
  end.

(** *** 5. Composite index (Tortoise) *)

Record tortoise_roles : Type := mkTR {
  tr_country : option nat;
  tr_year : option nat;
  tr_policy : option nat;
  tr_commercial : option nat
}.

Definition tortoise_detect_step (acc : tortoise_roles) (jc : nat * string)
  : tortoise_roles :=
  let col_lower := PyStr.lower (snd jc) in
  if (is_none (tr_country acc)
      && (PyStr.contains "country" col_lower || PyStr.contains "国家" col_lower
          || PyStr.contains "nation" col_lower))%bool
  then mkTR (Some (fst jc)) (tr_year acc) (tr_policy acc) (tr_commercial acc)
  else if (is_none (tr_year acc)
           && (PyStr.contains "year" col_lower || PyStr.contains "年" col_lower))%bool
  then mkTR (tr_country acc) (Some (fst jc)) (tr_policy acc) (tr_commercial acc)
  else if (is_none (tr_policy acc)
           && ((PyStr.contains "government" col_lower
                && PyStr.contains "strategy" col_lower)
               || PyStr.contains "政策" col_lower
               || PyStr.contains "policy" col_lower))%bool
  then mkTR (tr_country acc) (tr_year acc) (Some (fst jc)) (tr_commercial acc)
  else if (is_none (tr_commercial acc)
           && (PyStr.contains "commercial" col_lower
               || PyStr.contains "商业" col_lower))%bool
  then mkTR (tr_country acc) (tr_year acc) (tr_policy acc) (Some (fst jc))
  else acc.

Definition tortoise_detect (cols : list string) : tortoise_roles :=
  fold_left tortoise_detect_step (enumerate cols) (mkTR None None None None).

Definition tortoise_shape : list string := ["Policy_Score"; "Commercial_Score"].

Definition tortoise_body (df : RawTable) : result DataFrame :=
  let roles := tortoise_detect (raw_columns df) in
  match tr_country roles with
  | None => Ok (empty_frame tortoise_shape)
  | Some country_col =>
      let rs := filter_target_countries (raw_rows df) country_col in
      if (length rs =? 0)%nat then Ok (empty_frame tortoise_shape)
      else
        let result_cols :=
          (opt_list (tr_policy roles) ++ opt_list (tr_commercial roles))%list in
        let names :=
          (opt_name (tr_policy roles) "Policy_Score"
           ++ opt_name (tr_commercial roles) "Commercial_Score")%list in
        let cells row := map (fun j => nth j row NaN) result_cols in
        match tr_year roles with
        | None =>
            Ok (mkDF names
                  (map (fun row => mkRow (country_of country_col row) 2024 (cells row)) rs))
        | Some year_col =>
            Ok (mkDF names
                  (flat_map (fun row =>
                     match int_year (nth year_col row NaN) with
                     | Some y => [mkRow (country_of country_col row) y (cells row)]
                     | None => []
                     end) rs))
        end
  end.

Definition process_tortoise_index (csv xlsx : file) : DataFrame :=
  match locate csv xlsx with
  | Absent => empty_frame tortoise_shape
  | Present content =>
      try_except
        match content with
        | None => Ok (empty_frame tortoise_shape)
        | Some df => tortoise_body df
        end
        (empty_frame tortoise_shape)
  end.

(** *** 3b. Compute capacity (TOP500) *)

Record top500_roles : Type := mkT5 {
  t5_country : option nat;
  t5_year : option nat;
  t5_rmax : option nat
}.

Definition top500_detect_step (acc : top500_roles) (jc : nat * string)
  : top500_roles :=
  let col_lower := PyStr.lower (snd jc) in
  if (is_none (t5_country acc)
      && (PyStr.contains "country" col_lower || PyStr.contains "国家" col_lower))%bool
  then mkT5 (Some (fst jc)) (t5_year acc) (t5_rmax acc)
  else if (is_none (t5_year acc)
           && (PyStr.contains "year" col_lower || PyStr.contains "年" col_lower))%bool
  then mkT5 (t5_country acc) (Some (fst jc)) (t5_rmax acc)
  else if (is_none (t5_rmax acc)
           && (PyStr.contains "rmax" col_lower
               || PyStr.contains "performance" col_lower
               || PyStr.contains "性能" col_lower))%bool
  then mkT5 (t5_country acc) (t5_year acc) (Some (fst jc))
  else acc.

Definition top500_detect (cols : list string) : top500_roles :=
  fold_left top500_detect_step (enumerate cols) (mkT5 None None None).

Definition top500_shape : list string := ["Compute_Power_Rmax"].

Definition cq_compare (a b : string * Q) : comparison :=
  match String.compare (fst a) (fst b) with
  | Eq => Qcompare (snd a) (snd b)
  | c => c
  end.

Definition cq_eqb (a b : string * Q) : bool :=
  match cq_compare a b with Eq => true | _ => false end.

(** [df.groupby(country_col)[rmax_col].sum()] over (country, value) pairs. *)
Definition sum_by_country (recs : list (string * cell)) : list (string * cell) :=
  map (fun c => (c, agg_sum (map snd (filter (fun cv => String.eqb (fst cv) c) recs))))
      (group_keys String.compare (map fst recs)).

(** [df.groupby([country_col, 'Year'])[rmax_col].sum()]: the rows without
    year are dropped by [groupby]. *)
Definition sum_by_country_year (recs : list (string * cell * cell))
  : list (string * Q * cell) :=
  let keyed :=
    flat_map (fun r => match snd (fst r) with
                       | Num y => [((fst (fst r), y), snd r)]
                       | _ => []
                       end) recs in
  map (fun k => (k, agg_sum (map snd (filter (fun kv => cq_eqb (fst kv) k) keyed))))
      (group_keys cq_compare (map fst keyed)).

Definition top500_body (df : RawTable) : result DataFrame :=
  let roles := top500_detect (raw_columns df) in
  match t5_country roles with
  | None => Ok (empty_frame top500_shape)
  | Some country_col =>
      let rs := filter_target_countries (raw_rows df) country_col in
      if (length rs =? 0)%nat then Ok (empty_frame top500_shape)
      else
        match t5_rmax roles, t5_year roles with
        | Some rmax_col, Some year_col =>
            let df_grouped :=
              sum_by_country_year
                (map (fun row => (country_of country_col row,
                                  to_numeric (nth year_col row NaN),
                                  to_numeric (nth rmax_col row NaN))) rs) in
            Ok (mkDF top500_shape
                  (map (fun g => mkRow (fst (fst g)) (to_int (snd (fst g))) [snd g])
                       df_grouped))
        | Some rmax_col, None =>
            let df_grouped :=
              sum_by_country
                (map (fun row => (country_of country_col row,
                                  to_numeric (nth rmax_col row NaN))) rs) in
            Ok (mkDF top500_shape
                  (map (fun g => mkRow (fst g) 2024 [snd g]) df_grouped))
        | None, _ => Ok (empty_frame top500_shape)
        end
  end.

Definition process_top500_compute (csv xlsx : file) : DataFrame :=
  match locate csv xlsx with
  | Absent => empty_frame top500_shape
  | Present content =>
      try_except
        match content with
        | None => Ok (empty_frame top500_shape)
        | Some df => top500_body df
        end
        (empty_frame top500_shape)
  end.

(** *** Pivot tables *)

(** A record of a tall table. *)
Record Tall : Type := mkTall {
  t_country : string;
  t_year : Z;
  t_feature : string;
  t_value : cell
}.

Definition t_key (t : Tall) : string * Z := (t_country t, t_year t).

Definition pair_eqb (a b : string * Z) : bool :=
  (String.eqb (fst a) (fst b) && (snd a =? snd b))%bool.

(** The values of the group (Country, Year, Feature). *)
Definition group_values (tall : list Tall) (k : string * Z) (f : string)
  : list cell :=
  map t_value
      (filter (fun t => (pair_eqb (t_key t) k && String.eqb (t_feature t) f)%bool) tall).

(** [tall.pivot_table(index=['Country', 'Year'], columns=feature,
    values='Value', aggfunc=agg).reset_index()]: the groups whose aggregate
    is NaN are dropped, the remaining keys and features come out sorted, a
    combination without group is NaN. *)
Definition pivot_table (agg : list cell -> cell) (tall : list Tall) : DataFrame :=
  let live :=
    filter (fun t => notna (agg (group_values tall (t_key t) (t_feature t)))) tall in
  let features := group_keys String.compare (map t_feature live) in
  let keys := group_keys pair_compare (map t_key live) in
  mkDF features
       (map (fun k => mkRow (fst k) (snd k)
                        (map (fun f => agg (group_values tall k f)) features))
            keys).

(** *** 2. R&D (OECD MSTI) *)

Record oecd_roles : Type := mkOR {
  or_ref_area : option nat;
  or_time : option nat;
  or_measure : option nat;
  or_value : option nat;
  or_unit : option nat
}.

(** No [is None] guard in this loop: the last column of a role wins. *)
Definition oecd_detect_step (acc : oecd_roles) (jc : nat * string) : oecd_roles :=
  let col_str := PyStr.upper (snd jc) in
  if (PyStr.contains "REF_AREA" col_str || String.eqb col_str "COUNTRY")%bool
  then mkOR (Some (fst jc)) (or_time acc) (or_measure acc) (or_value acc) (or_unit acc)
  else if (PyStr.contains "TIME_PERIOD" col_str || PyStr.contains "TIME" col_str
           || String.eqb col_str "YEAR")%bool
  then mkOR (or_ref_area acc) (Some (fst jc)) (or_measure acc) (or_value acc) (or_unit acc)
  else if PyStr.contains "MEASURE" col_str
  then mkOR (or_ref_area acc) (or_time acc) (Some (fst jc)) (or_value acc) (or_unit acc)
  else if (PyStr.contains "OBS_VALUE" col_str || String.eqb col_str "VALUE")%bool
  then mkOR (or_ref_area acc) (or_time acc) (or_measure acc) (Some (fst jc)) (or_unit acc)
  else if (PyStr.contains "UNIT_MEASURE" col_str || PyStr.contains "UNIT" col_str)%bool
  then mkOR (or_ref_area acc) (or_time acc) (or_measure acc) (or_value acc) (Some (fst jc))
  else acc.

Definition oecd_detect (cols : list string) : oecd_roles :=
  fold_left oecd_detect_step (enumerate cols) (mkOR None None None None None).

Definition oecd_shape : list string := ["GERD_Million_USD"; "Researchers"].

(** [df[measure_col].astype(str).isin(['G', 'T_RS'])] *)
Definition measure_ok (measure_col : nat) (row : list cell) : bool :=
  PyStr.in_list (astype_str (nth measure_col row NaN)) ["G"; "T_RS"].

(** [str.contains(pat, case=False)] for a pattern without special
    character. *)
Definition contains_ci (pat s : string) : bool :=
  PyStr.contains (PyStr.lower pat) (PyStr.lower s).

(** The mask of the unit filter. *)
Definition unit_ok (unit_col : nat) (row : list cell) : bool :=
  let u := astype_str (nth unit_col row NaN) in
  (contains_ci "USD_PPP" u || contains_ci "FTE" u || contains_ci "HC" u)%bool.

(** The rows after the measure filter. *)
Definition oecd_measure_filter (measure_col : option nat) (rs : list (list cell))
  : list (list cell) :=
  match measure_col with
  | Some m => filter (measure_ok m) rs
  | None => rs
  end.

(** The rows after the unit filter. *)
Definition oecd_unit_filter (unit_col : option nat) (rs : list (list cell))
  : list (list cell) :=
  match unit_col with
  | Some u => filter (unit_ok u) rs
  | None => rs
  end.

(** [df_rd['Measure'].map({'G': ..., 'T_RS': ...})] *)
Definition feature_of_measure (c : cell) : option string :=
  match c with
  | Str s =>
      if String.eqb s "G" then Some "GERD_Million_USD"
      else if String.eqb s "T_RS" then Some "Researchers"
      else None
  | _ => None
  end.

(** The tall records of the surviving rows: year and value made numeric,
    rows without year dropped, the feature read from the measure code (rows
    without feature dropped) or the default feature. *)
Definition oecd_tall (country_col year_col value_col : nat)
  (measure_col : option nat) (rs : list (list cell)) : list Tall :=
  flat_map (fun row =>
    match int_year (nth year_col row NaN) with
    | None => []
    | Some y =>
        let v := to_numeric (nth value_col row NaN) in
        match measure_col with
        | Some m =>
            match feature_of_measure (nth m row NaN) with
            | Some f => [mkTall (country_of country_col row) y f v]
            | None => []
            end
        | None => [mkTall (country_of country_col row) y "GERD_Million_USD" v]
        end
    end) rs.

Definition oecd_body (df : RawTable) : result DataFrame :=
  let roles := oecd_detect (raw_columns df) in
  match or_ref_area roles, or_time roles, or_value roles with
  | Some ref_area_col, Some time_col, Some value_col =>
      let df_rd := oecd_measure_filter (or_measure roles) (raw_rows df) in
      if (length df_rd =? 0)%nat then Ok (empty_frame oecd_shape)
      else
        let df_rd := oecd_unit_filter (or_unit roles) df_rd in
        let df_rd := filter_target_countries df_rd ref_area_col in
        if (length df_rd =? 0)%nat then Ok (empty_frame oecd_shape)
        else
          let cols :=
            rename_opt (or_measure roles) "Measure"
              (rename_at value_col "Value"
                 (rename_at time_col "Year"
                    (rename_at ref_area_col "Country" (raw_columns df)))) in
          year <- series_pos "Year" cols ;;
          value <- series_pos "Value" cols ;;
          measure <- (if PyStr.in_list "Measure" cols
                      then m <- series_pos "Measure" cols ;; Ok (Some m)
                      else Ok None) ;;
          country <- series_pos "Country" cols ;;
          Ok (pivot_table agg_mean (oecd_tall country year value measure df_rd))
  | _, _, _ => Ok (empty_frame oecd_shape)
  end.

Definition process_oecd_msti (csv xlsx : file) : DataFrame :=
  match locate csv xlsx with
  | Absent => empty_frame oecd_shape
  | Present content =>
      try_except
        match content with
        | None => Ok (empty_frame oecd_shape)
        | Some df => oecd_body df
        end
        (empty_frame oecd_shape)
  end.

(** *** 3a. Electricity (Ember) *)

Definition ember_country_step (acc : option nat * option nat) (jc : nat * string)
  : option nat * option nat :=
  let col_lower := PyStr.lower (snd jc) in
  if (is_none (fst acc)
      && (PyStr.contains "country" col_lower || PyStr.contains "国家" col_lower
          || PyStr.contains "area" col_lower || PyStr.contains "entity" col_lower))%bool
  then (Some (fst jc), snd acc)
  else if (is_none (snd acc)
           && (PyStr.contains "year" col_lower || PyStr.contains "年" col_lower))%bool
  then (fst acc, Some (fst jc))
  else acc.

(** The second loop: the lists [generation_cols] and [renewables_cols]. *)
Definition ember_generation_step (acc : list nat * list nat) (jc : nat * string)
  : list nat * list nat :=
  let col_str := PyStr.lower (snd jc) in
  if (PyStr.contains "total" col_str
      && (PyStr.contains "generation" col_str || PyStr.contains "generat" col_str
          || PyStr.contains "发电" col_str))%bool
  then ((fst acc ++ [fst jc])%list, snd acc)
  else if ((PyStr.contains "renewable" col_str || PyStr.contains "可再生" col_str
            || PyStr.contains "clean" col_str)
           && (PyStr.contains "generation" col_str
               || PyStr.contains "发电" col_str))%bool
  then (fst acc, (snd acc ++ [fst jc])%list)
  else acc.

Definition ember_shape : list string :=
  ["Total_Generation_TWh"; "Renewables_Generation_TWh"].

(** The frame is modelled for tables whose generation columns are other
    columns than the country and year columns. *)
Definition ember_body (df : RawTable) : result DataFrame :=
  let keys := fold_left ember_country_step (enumerate (raw_columns df)) (None, None) in
  let gens := fold_left ember_generation_step (enumerate (raw_columns df)) ([], []) in
  match fst keys, snd keys with
  | Some country_col, Some year_col =>
      let rs := filter_target_countries (raw_rows df) country_col in
      if (length rs =? 0)%nat then Ok (empty_frame ember_shape)
      else
        let generation := hd_error (fst gens) in
        let renewables := hd_error (snd gens) in
        let result_cols := (opt_list generation ++ opt_list renewables)%list in
        let names :=
          (opt_name generation "Total_Generation_TWh"
           ++ opt_name renewables "Renewables_Generation_TWh")%list in
        Ok (mkDF names
              (flat_map (fun row =>
                 match int_year (nth year_col row NaN) with
                 | Some y =>
                     [mkRow (country_of country_col row) y
                            (map (fun j => nth j row NaN) result_cols)]
                 | None => []
                 end) rs))
  | _, _ => Ok (empty_frame ember_shape)
  end.

Definition process_ember_electricity (csv xlsx : file) : DataFrame :=
  match locate csv xlsx with
  | Absent => empty_frame ember_shape
  | Present content =>
      try_except
        match content with
        | None => Ok (empty_frame ember_shape)
        | Some df => ember_body df
        end
        (empty_frame ember_shape)
  end.

(** *** 3c. Broadband (OECD) *)

Record broadband_roles : Type := mkBR {
  br_country : option nat;
  br_year : option nat;
  br_value : option nat;
  br_measure : option nat
}.

Definition broadband_detect_step (acc : broadband_roles) (jc : nat * string)
  : broadband_roles :=
  let col_str := PyStr.upper (snd jc) in
  if (PyStr.contains "REF_AREA" col_str || String.eqb col_str "COUNTRY")%bool
  then mkBR (Some (fst jc)) (br_year acc) (br_value acc) (br_measure acc)
  else if (PyStr.contains "TIME_PERIOD" col_str || PyStr.contains "TIME" col_str
           || String.eqb col_str "YEAR")%bool
  then mkBR (br_country acc) (Some (fst jc)) (br_value acc) (br_measure acc)
  else if (PyStr.contains "OBS_VALUE" col_str || String.eqb col_str "VALUE")%bool
  then mkBR (br_country acc) (br_year acc) (Some (fst jc)) (br_measure acc)
  else if PyStr.contains "MEASURE" col_str
  then mkBR (br_country acc) (br_year acc) (br_value acc) (Some (fst jc))
  else acc.

Definition broadband_detect (cols : list string) : broadband_roles :=
  fold_left broadband_detect_step (enumerate cols) (mkBR None None None None).

Definition broadband_shape : list string := ["Fibre_Percentage"].

(** [groupby(['Country', 'Year'])['Fibre_Percentage'].mean()] *)
Definition mean_by_key (recs : list (string * Z * cell)) : list (string * Z * cell) :=
  map (fun k => (k, agg_mean (map snd (filter (fun kv => pair_eqb (fst kv) k) recs))))
      (group_keys pair_compare (map fst recs)).

(** The mean of a column of dtype object raises: the value column is not
    made numeric in this adapter. *)
Definition broadband_body (df : RawTable) : result DataFrame :=
  let roles := broadband_detect (raw_columns df) in
  match br_country roles, br_year roles, br_value roles with
  | Some country_col, Some year_col, Some value_col =>
      if (length (raw_rows df) =? 0)%nat then Ok (empty_frame broadband_shape)
      else
        let df_fibre := filter_target_countries (raw_rows df) country_col in
        if (length df_fibre =? 0)%nat then Ok (empty_frame broadband_shape)
        else
          let cols :=
            rename_at value_col "Fibre_Percentage"
              (rename_at year_col "Year"
                 (rename_at country_col "Country" (raw_columns df))) in
          country <- series_pos "Country" cols ;;
          year <- series_pos "Year" cols ;;
          value <- series_pos "Fibre_Percentage" cols ;;
          let df_result :=
            flat_map (fun row =>
              match int_year (nth year row NaN) with
              | Some y => [((country_of country row, y), nth value row NaN)]
              | None => []
              end) df_fibre in
          if existsb (fun row => is_str (nth value row NaN)) (raw_rows df)
          then Raise "TypeError"
          else Ok (mkDF broadband_shape
                     (map (fun g => mkRow (fst (fst g)) (snd (fst g)) [snd g])
                          (mean_by_key df_result)))
  | _, _, _ => Ok (empty_frame broadband_shape)
  end.

Definition process_oecd_broadband (csv xlsx : file) : DataFrame :=
  match locate csv xlsx with
  | Absent => empty_frame broadband_shape
  | Present content =>
      try_except
        match content with
        | None => Ok (empty_frame broadband_shape)
        | Some df => broadband_body df
        end
        (empty_frame broadband_shape)
  end.

(** *** 4. AI index folder (Stanford) *)

(** [str(col).isdigit() and 2010 <= int(str(col)) <= 2024] *)
Definition is_year_col (col : string) : bool :=
  (PyStr.isdigit col && (2010 <=? PyStr.int col) && (PyStr.int col <=? 2024))%bool.

(** [year_cols], each with its position. *)
Definition year_cols (cols : list string) : list (nat * string) :=
  filter (fun jc => is_year_col (snd jc)) (enumerate cols).

(** [std_name and std_name in TARGET_COUNTRIES] *)
Definition names_target (std_name : option string) : bool :=
  match std_name with
  | Some c => (negb (String.eqb c "") && PyStr.in_list c TARGET_COUNTRIES)%bool
  | None => false
  end.

(** The loop over [first_col_values[:20]]. *)
Definition has_country_in_rows (df : RawTable) : bool :=
  ((0 <? length (raw_columns df))%nat && (0 <? length (raw_rows df))%nat
   && existsb (fun val => names_target (standardize_country_name (Some val)))
              (firstn 20 (map (fun row => astype_str (nth 0 row NaN)) (raw_rows df))))%bool.

(** The test that makes a file a relevant file. *)
Definition stanford_relevant (df : RawTable) : bool :=
  (has_country_in_rows df && (0 <? length (year_cols (raw_columns df)))%nat
   && (0 <? length (raw_rows df))%nat)%bool.

(** A record of [df_long]: country, year, value and source file. *)
Record LongRow : Type := mkLong {
  l_country : string;
  l_year : Z;
  l_value : cell;
  l_source : string
}.

(** [df.melt(id_vars=[country_col], value_vars=year_cols, ...)] followed by
    the country filter: one record per year column and row, the year
    columns in their order.  The first column is taken not to be called
    Year or Value. *)
Definition stanford_long (csv_file : string) (df : RawTable) : list LongRow :=
  flat_map (fun jc =>
    flat_map (fun row =>
      match normalize_cell (nth 0 row NaN) with
      | Some c =>
          if PyStr.in_list c TARGET_COUNTRIES
          then [mkLong c (PyStr.int (snd jc)) (to_numeric (nth (fst jc) row NaN)) csv_file]
          else []
      | None => []
      end) (raw_rows df)) (year_cols (raw_columns df)).

(** The body of the [try] of one file: what it appends to [all_data]. *)
Definition stanford_file (csv_file : string) (read : result RawTable)
  : result (list LongRow) :=
  df <- read ;;
  if (length (raw_rows df) =? 0)%nat then Ok []
  else if stanford_relevant df then Ok (stanford_long csv_file df)
  else Ok [].

Definition classify_feature (filename : string) : string :=
  let filename_lower := PyStr.lower filename in
  if PyStr.contains "patent" filename_lower then "AI_Patents"
  else if (PyStr.contains "publication" filename_lower
           || PyStr.contains "paper" filename_lower)%bool then "AI_Publications"
  else if PyStr.contains "citation" filename_lower then "AI_Citations"
  else if PyStr.contains "model" filename_lower then "AI_Models"
  else "AI_Metric".

Definition triple_compare (a b : string * Z * string) : comparison :=
  match pair_compare (fst a) (fst b) with
  | Eq => String.compare (snd a) (snd b)
  | c => c
  end.

(** [groupby(['Country', 'Year', 'Feature_Type'])['Value'].max().reset_index()] *)
Definition groupby_max (tall : list Tall) : list Tall :=
  map (fun k => mkTall (fst (fst k)) (snd (fst k)) (snd k)
                       (agg_max (group_values tall (fst k) (snd k))))
      (group_keys triple_compare (map (fun t => (t_key t, t_feature t)) tall)).

(** [aggfunc='first']: the first value of the group that is not NaN. *)
Definition agg_first (l : list cell) : cell :=
  match numbers l with
  | [] => NaN
  | q :: _ => Num q
  end.

(** [df_combined] with its feature type. *)
Definition stanford_combined (files : list (string * result RawTable)) : list Tall :=
  map (fun r => mkTall (l_country r) (l_year r) (classify_feature (l_source r)) (l_value r))
      (flat_map (fun f => try_except (stanford_file (fst f) (snd f)) [])
                (filter (fun f => PyStr.endswith ".csv" (fst f)) files)).

(** The folder is [None] when it does not exist, and otherwise the files of
    [os.listdir] with what [pd.read_csv] makes of each. *)
Definition process_stanford_ai_index
  (ai_folder : option (list (string * result RawTable))) : DataFrame :=
  try_except
    match ai_folder with
    | None => Ok (empty_frame [])
    | Some files =>
        match stanford_combined files with
        | [] => Ok (empty_frame [])
        | df_combined => Ok (pivot_table agg_first (groupby_max df_combined))
        end
    end
    (empty_frame []).

(** *** 7. Main *)

(** The files the run looks for. *)
Record Sources : Type := mkSources {
  oecd_msti_csv : file;
  oecd_msti_xlsx : file;
  ember_csv : file;
  ember_xlsx : file;
  broadband_csv : file;
  broadband_xlsx : file;
  top500_csv : file;
  top500_xlsx : file;
  stanford_folder : option (list (string * result RawTable));
  tortoise_csv : file;
  tortoise_xlsx : file
}.

Definition all_dataframes (src : Sources) : list (string * option DataFrame) :=
  [ ("OECD MSTI", Some (process_oecd_msti (oecd_msti_csv src) (oecd_msti_xlsx src)));
    ("Ember", Some (process_ember_electricity (ember_csv src) (ember_xlsx src)));
    ("OECD Broadband", Some (process_oecd_broadband (broadband_csv src) (broadband_xlsx src)));
    ("TOP500", Some (process_top500_compute (top500_csv src) (top500_xlsx src)));
    ("Stanford AI", Some (process_stanford_ai_index (stanford_folder src)));
    ("Tortoise", Some (process_tortoise_index (tortoise_csv src) (tortoise_xlsx src))) ].

(** [main]: the frame written to [final_model_data.csv], or [None] when the
    run returns before writing. *)
Definition main (src : Sources) : option DataFrame :=
  let df_merged := merge_all_data (all_dataframes src) in
  if len df_merged =? 0 then None
  else
    let df_interpolated := interpolate_missing_years df_merged in
    let df_final := impute_with_commercial_score df_interpolated in
    Some (sort_values df_final).

End Adapters.

(** ** The normalizer as the specification words it *)

(** Case-insensitive two-way substring match of an alias and a name. *)
Definition alias_matches (name : string) (entry : string * string) : bool :=
  (PyStr.contains (PyStr.lower (fst entry)) (PyStr.lower name)
   || PyStr.contains (PyStr.lower name) (PyStr.lower (fst entry)))%bool.

(** The four steps of the specification, first match wins: canonical name,
    alias, substring match in the order of the alias table, no match. *)
Definition normalize_spec (raw_name : option string) : option string :=
  match raw_name with
  | None => None
  | Some raw =>
      let name := PyStr.strip raw in
      if existsb (String.eqb name) TARGET_COUNTRIES then Some name
      else
        match find (fun entry => String.eqb name (fst entry)) COUNTRY_NAME_MAPPING with
        | Some entry => Some (snd entry)
        | None =>
            match find (alias_matches name) COUNTRY_NAME_MAPPING with
            | Some entry => Some (snd entry)
            | None => None
            end
        end
  end.

(** ** Derived notions used in the statements *)


(** The keys of a frame. *)
Definition keys (df : DataFrame) : list (string * Z) := map key (rows df).

(** The rows of a country. *)
Definition rows_of (country : string) (df : DataFrame) : list Row :=
  filter (fun r => String.eqb (Country r) country) (rows df).

(** The three passes over the scoped countries, row by row. *)
Definition patch_scoped (bcol ccol : nat) (r : Row) : Row :=
  patch_row bcol ccol "United Arab Emirates"
    (patch_row bcol ccol "India" (patch_row bcol ccol "China" r)).

Definition not_num (c : cell) : Prop := forall q, c <> Num q.

(** The value observed in the frame for a country, a feature column and a
    year: the number in the first row of that key, if any. *)
Definition observed (df : DataFrame) (country : string) (j : nat) (y : Z)
  : option Q :=
  match find (fun r => (String.eqb (Country r) country && (Year r =? y))%bool)
             (rows df) with
  | Some r => match cell_at j r with Num q => Some q | _ => None end
  | None => None
  end.

(** The row of the completed frame of a country for one year, when the
    years of the country are pairwise different. *)
Definition row_for (ncols : nat) (country : string) (df_country : list Row)
  (y : Z) : Row :=
  match find (fun r => Year r =? y) df_country with
  | Some r => mkRow country y (feats r)
  | None => mkRow country y (nan_cells ncols)
  end.

(** [lo] and [hi] are the least and the greatest of the years. *)
Definition is_min_max (years : list Z) (lo hi : Z) : Prop :=
  In lo years /\ In hi years /\ forall y, In y years -> lo <= y <= hi.

(** What linear interpolation over the years with flat extrapolation at
    both ends makes of the cell [c] of year [y], the observations being
    [obs] and the range of years [lo..hi]: an observed value is kept;
    between two neighbouring observations the value lies on the line
    through them; before the first and after the last observation it is
    that observation; without any observation the cell stays missing. *)
Definition linear_fill (obs : Z -> option Q) (lo hi y : Z) (c : cell) : Prop :=
  (forall v, obs y = Some v -> c = Num v)
  /\ (forall y0 y1 v0 v1,
        y0 < y < y1 -> obs y0 = Some v0 -> obs y1 = Some v1 ->
        (forall k, y0 < k < y1 -> obs k = None) ->
        exists q, c = Num q
          /\ (q == v0 + (v1 - v0) * inject_Z (y - y0) / inject_Z (y1 - y0))%Q)
  /\ (forall y1 v1,
        y < y1 -> obs y1 = Some v1 -> (forall k, lo <= k < y1 -> obs k = None) ->
        c = Num v1)
  /\ (forall y0 v0,
        y0 < y -> obs y0 = Some v0 -> (forall k, y0 < k <= hi -> obs k = None) ->
        c = Num v0)
  /\ ((forall k, lo <= k <= hi -> obs k = None) -> c = NaN).

(** The observation read from a cell. *)
Definition num_of (c : cell) : option Q :=
  match c with Num q => Some q | _ => None end.

(** Equality of rows up to the representation of the rationals. *)
Definition row_equiv (r r' : Row) : Prop :=
  Country r = Country r' /\ Year r = Year r'
  /\ Forall2 cell_equiv (feats r) (feats r').

(** The rows of the R&D source that survive the measure filter, the unit
    filter and the country filter. *)
Definition oecd_surviving (str_of_num : Q -> string) (df : RawTable)
  : list (list cell) :=
  let roles := oecd_detect (raw_columns df) in
  match or_ref_area roles with
  | Some ref_area_col =>
      filter_target_countries str_of_num
        (oecd_unit_filter str_of_num (or_unit roles)
           (oecd_measure_filter str_of_num (or_measure roles) (raw_rows df)))
        ref_area_col
  | None => []
  end.


(** A 4-digit year string between 2010 and 2024, as the specification
    words the test of a year column. *)
Definition four_digit_year (col : string) : bool :=
  ((String.length col =? 4)%nat && PyStr.isdigit col
   && (2010 <=? PyStr.int col) && (PyStr.int col <=? 2024))%bool.

(** The first 20 values of the first column, as text. *)
Definition first_col_values (str_of_num : Q -> string) (df : RawTable)
  : list string :=
  firstn 20 (map (fun row => astype_str str_of_num (nth 0 row NaN)) (raw_rows df)).

(** [m] is the greatest of the numbers [qs]. *)
Definition is_maximum (m : Q) (qs : list Q) : Prop :=
  In m qs /\ forall q, In q qs -> (q <= m)%Q.







(** A composite-index source without year column that spells one country
    in two ways, and the merged table of a run that has this source only. *)
Definition tortoise_two_spellings : RawTable :=
  mkRaw ["Country"; "Commercial"]
        [ [Str "USA"; Num 1]; [Str "United States"; Num 2] ].

Definition merged_two_spellings : DataFrame :=
  merge_all_data
    [ ("Tortoise",
       Some (process_tortoise_index (fun _ => "") (fun _ => None)
               (Present (Some tortoise_two_spellings)) Absent)) ].


(** ** Notions for the further properties *)

(** The row an outer join makes of a left row when the keys of the right
    table are pairwise different: the cells of the partner, or missing
    values. *)
Definition joined_row (right : DataFrame) (l : Row) : Row :=
  mkRow (Country l) (Year l)
        (feats l ++ match find (key_eqb l) (rows right) with
                    | Some r => feats r
                    | None => nan_cells (length (columns right))
                    end).

(** The row an outer join makes of a right row without partner. *)
Definition padded_row (left : DataFrame) (r : Row) : Row :=
  mkRow (Country r) (Year r) (nan_cells (length (columns left)) ++ feats r).

(** The right row has no partner on the left. *)
Definition unmatched (left : DataFrame) (r : Row) : bool :=
  negb (existsb (fun l => key_eqb l r) (rows left)).

(** The positions of the points after [x0] increase strictly. *)
Fixpoint increasing_from (x0 : Z) (rest : list (Z * Q)) : Prop :=
  match rest with
  | [] => True
  | (x1, _) :: rest' => x0 < x1 /\ increasing_from x1 rest'
  end.

(** Column detection.  [last_match p cols j]: the column [j] is the last
    one whose name passes [p]; [first_match p cols j]: it is the first
    one; [no_match p cols]: no name passes. *)
Definition last_match (p : string -> bool) (cols : list string) (j : nat) : Prop :=
  (j < length cols)%nat /\ p (nth j cols "") = true
  /\ forall k, (j < k < length cols)%nat -> p (nth k cols "") = false.

Definition first_match (p : string -> bool) (cols : list string) (j : nat) : Prop :=
  (j < length cols)%nat /\ p (nth j cols "") = true
  /\ forall k, (k < j)%nat -> p (nth k cols "") = false.

Definition no_match (p : string -> bool) (cols : list string) : Prop :=
  forall k, (k < length cols)%nat -> p (nth k cols "") = false.

Definition found_last (p : string -> bool) (cols : list string) (o : option nat)
  : Prop :=
  match o with
  | Some j => last_match p cols j
  | None => no_match p cols
  end.

Definition found_first (p : string -> bool) (cols : list string) (o : option nat)
  : Prop :=
  match o with
  | Some j => first_match p cols j
  | None => no_match p cols
  end.

(** The branch of the [if]/[elif] chain of the R&D adapter that a column
    name takes: a test is reached when the tests before it fail. *)
Definition oecd_ref_name (col : string) : bool :=
  (PyStr.contains "REF_AREA" (PyStr.upper col)
   || String.eqb (PyStr.upper col) "COUNTRY")%bool.

Definition oecd_time_name (col : string) : bool :=
  (negb (oecd_ref_name col)
   && (PyStr.contains "TIME_PERIOD" (PyStr.upper col)
       || PyStr.contains "TIME" (PyStr.upper col)
       || String.eqb (PyStr.upper col) "YEAR"))%bool.

Definition oecd_measure_name (col : string) : bool :=
  (negb (oecd_ref_name col) && negb (oecd_time_name col)
   && PyStr.contains "MEASURE" (PyStr.upper col))%bool.

Definition oecd_value_name (col : string) : bool :=
  (negb (oecd_ref_name col) && negb (oecd_time_name col)
   && negb (oecd_measure_name col)
   && (PyStr.contains "OBS_VALUE" (PyStr.upper col)
       || String.eqb (PyStr.upper col) "VALUE"))%bool.

Definition oecd_unit_name (col : string) : bool :=
  (negb (oecd_ref_name col) && negb (oecd_time_name col)
   && negb (oecd_measure_name col) && negb (oecd_value_name col)
   && (PyStr.contains "UNIT_MEASURE" (PyStr.upper col)
       || PyStr.contains "UNIT" (PyStr.upper col)))%bool.

(** The value branch of the broadband adapter, whose country and time
    tests are those of the R&D adapter and whose value test comes third. *)
Definition broadband_value_name (col : string) : bool :=
  (negb (oecd_ref_name col) && negb (oecd_time_name col)
   && (PyStr.contains "OBS_VALUE" (PyStr.upper col)
       || String.eqb (PyStr.upper col) "VALUE"))%bool.

(** The column names of the R&D table after its renames. *)
Definition oecd_renamed (cols : list string) (ref time value : nat) : list string :=
  rename_opt (or_measure (oecd_detect cols)) "Measure"
    (rename_at value "Value" (rename_at time "Year" (rename_at ref "Country" cols))).

(** The column names of the broadband table after its renames. *)
Definition broadband_renamed (cols : list string) (country year value : nat)
  : list string :=
  rename_at value "Fibre_Percentage"
    (rename_at year "Year" (rename_at country "Country" cols)).

(** Every row of the frame is a row of a canonical country. *)
Definition canonical_frame (df : DataFrame) : Prop :=
  forall r, In r (rows df) -> In (Country r) TARGET_COUNTRIES.

(** A key that one of the six source tables of a run has. *)
Definition source_key (str_of_num : Q -> string) (parse_num : string -> option Q)
  (src : Sources) (k : string * Z) : Prop :=
  exists name df,
    In (name, Some df) (all_dataframes str_of_num parse_num src)
    /\ In k (keys df).

(** The tables that the loop of [merge_all_data] merges: those with rows,
    in the order of the list. *)
Definition live_tables (df_list : list (string * option DataFrame))
  : list DataFrame :=
  flat_map (fun item => match snd item with
                        | Some df => if 0 <? len df then [df] else []
                        | None => []
                        end) df_list.

(** The cells that a table has for a key: those of its first row of that
    key, or missing values. *)
Definition cells_of (t : DataFrame) (k : string * Z) : list cell :=
  match find (fun r => pair_eqb k (key r)) (rows t) with
  | Some r => feats r
  | None => nan_cells (length (columns t))
  end.

(** The frame [m] holds, key by key, the cells of the tables [processed]
    side by side. *)
Definition merged_from (processed : list DataFrame) (m : DataFrame) : Prop :=
  length (columns m) = list_sum (map (fun t => length (columns t)) processed)
  /\ (forall k, In k (keys m) <-> exists t, In t processed /\ In k (keys t))
  /\ forall r, In r (rows m) ->
       feats r = concat (map (fun t => cells_of t (key r)) processed).

(** The test of the country column in the three adapters that keep the
    first match. *)
Definition tortoise_country_name (col : string) : bool :=
  (PyStr.contains "country" (PyStr.lower col)
   || PyStr.contains "国家" (PyStr.lower col)
   || PyStr.contains "nation" (PyStr.lower col))%bool.

Definition top500_country_name (col : string) : bool :=
  (PyStr.contains "country" (PyStr.lower col)
   || PyStr.contains "国家" (PyStr.lower col))%bool.

Definition ember_country_name (col : string) : bool :=
  (PyStr.contains "country" (PyStr.lower col)
   || PyStr.contains "国家" (PyStr.lower col)
   || PyStr.contains "area" (PyStr.lower col)
   || PyStr.contains "entity" (PyStr.lower col))%bool.

(** A run that finds the composite-index file only. *)
Definition composite_index_only (raw : RawTable) : Sources :=
  mkSources Absent Absent Absent Absent Absent Absent Absent Absent None
            (Present (Some raw)) Absent.

(** The records that the broadband adapter groups: the key and the value
    of the rows of a target country whose year is known. *)
Definition broadband_records (str_of_num : Q -> string)
  (parse_num : string -> option Q) (df : RawTable) (country year value : nat)
  : list (string * Z * cell) :=
  flat_map (fun row =>
              match int_year parse_num (nth year row NaN) with
              | Some y => [((country_of country row, y), nth value row NaN)]
              | None => []
              end)
           (filter_target_countries str_of_num (raw_rows df) country).

(** * Properties *)

Unset Implicit Arguments.

(** ** Order of the keys and the sort *)

Lemma string_compare_refl (s : string) : String.compare s s = Eq.
Proof.
  induction s as [|c s IH]; simpl; [reflexivity|].
  unfold Ascii.compare. rewrite N.compare_refl. exact IH.
Qed.

Lemma string_compare_eq (s t : string) : String.compare s t = Eq -> s = t.
Proof. apply String.compare_eq_iff. Qed.

Lemma string_compare_lt_trans (s t u : string) :
  String.compare s t = Lt -> String.compare t u = Lt -> String.compare s u = Lt.
Proof.
  revert t u. induction s as [|a s IH]; intros [|b t] [|c u]; simpl; try congruence.
  unfold Ascii.compare.
  destruct (N.compare_spec (N_of_ascii a) (N_of_ascii b)) as [Hab|Hab|Hab];
    try discriminate;
    destruct (N.compare_spec (N_of_ascii b) (N_of_ascii c)) as [Hbc|Hbc|Hbc];
    try discriminate; intros H1 H2.
  - rewrite Hab, Hbc, N.compare_refl. eapply IH; eassumption.
  - rewrite Hab. apply N.compare_lt_iff in Hbc. now rewrite Hbc.
  - rewrite <- Hbc. apply N.compare_lt_iff in Hab. now rewrite Hab.
  - assert (Hac : (N_of_ascii a < N_of_ascii c)%N) by (eapply N.lt_trans; eassumption).
    apply N.compare_lt_iff in Hac. now rewrite Hac.
Qed.

Lemma string_compare_gt_lt (s t : string) :
  String.compare s t = Gt -> String.compare t s = Lt.
Proof.
  intros H. rewrite String.compare_antisym, H. reflexivity.
Qed.



Lemma insert_row_perm (r : Row) (l : list Row) : Permutation (insert_row r l) (r :: l).
Proof.
  induction l as [|h t IH]; simpl; [reflexivity|].
  destruct (key_leb r h); [reflexivity|].
  rewrite IH. apply perm_swap.
Qed.

Lemma sort_rows_perm (l : list Row) : Permutation (sort_rows l) l.
Proof.
  induction l as [|h t IH]; simpl; [reflexivity|].
  rewrite insert_row_perm. now constructor.
Qed.



(** ** Merge engine *)

Lemma key_eqb_eq (a b : Row) : key_eqb a b = true <-> key a = key b.
Proof.
  unfold key_eqb, key. rewrite andb_true_iff, String.eqb_eq, Z.eqb_eq.
  split; [intros [-> ->]; reflexivity | intros H; inversion H; auto].
Qed.

Lemma key_eqb_refl (a : Row) : key_eqb a a = true.
Proof. now apply key_eqb_eq. Qed.

Lemma merge_left_row_keys (nr : nat) (right : list Row) (l r : Row) :
  In r (merge_left_row nr right l) -> key r = key l.
Proof.
  unfold merge_left_row. destruct (filter (key_eqb l) right) as [|m ms].
  - intros [<-|[]]. reflexivity.
  - intros H. apply in_map_iff in H as (x & <- & _). reflexivity.
Qed.

Lemma merge_left_row_nonempty (nr : nat) (right : list Row) (l : Row) :
  exists r, In r (merge_left_row nr right l).
Proof.
  unfold merge_left_row. destruct (filter (key_eqb l) right) as [|m ms].
  - eexists; left; reflexivity.
  - eexists; left; reflexivity.
Qed.

Lemma right_only_keys (nl : nat) (left : list Row) (r x : Row) :
  In x (right_only nl left r) ->
  key x = key r /\ forall l, In l left -> key l <> key r.
Proof.
  unfold right_only. destruct (existsb _ left) eqn:E; [intros []|].
  intros [<-|[]]. split; [reflexivity|].
  intros l Hl Hk.
  assert (existsb (fun l => key_eqb l r) left = true).
  { apply existsb_exists. exists l. split; [exact Hl | now apply key_eqb_eq]. }
  congruence.
Qed.

Lemma pd_merge_outer_keys (left right : DataFrame) (k : string * Z) :
  In k (keys (pd_merge_outer left right)) <->
  In k (keys left) \/ In k (keys right).
Proof.
  unfold keys, pd_merge_outer; simpl. rewrite map_app, in_app_iff.
  split.
  - intros [H|H]; apply in_map_iff in H as (x & <- & Hx);
      apply in_flat_map in Hx as (y & Hy & Hxy).
    + left. apply merge_left_row_keys in Hxy. rewrite Hxy. now apply in_map.
    + right. apply right_only_keys in Hxy as [-> _]. now apply in_map.
  - intros [H|H]; apply in_map_iff in H as (x & <- & Hx).
    + left. destruct (merge_left_row_nonempty (length (columns right)) (rows right) x)
        as (r & Hr).
      apply in_map_iff. exists r. split; [now apply merge_left_row_keys in Hr|].
      apply in_flat_map. now exists x.
    + destruct (existsb (fun l => key_eqb l x) (rows left)) eqn:E.
      * left. apply existsb_exists in E as (l & Hl & Hk). apply key_eqb_eq in Hk.
        destruct (merge_left_row_nonempty (length (columns right)) (rows right) l)
          as (r & Hr).
        apply in_map_iff. exists r. split.
        -- apply merge_left_row_keys in Hr. congruence.
        -- apply in_flat_map. now exists l.
      * right. apply in_map_iff.
        exists (mkRow (Country x) (Year x) (nan_cells (length (columns left)) ++ feats x)).
        split; [reflexivity|].
        apply in_flat_map. exists x. split; [exact Hx|].
        unfold right_only. rewrite E. now left.
Qed.



(** ** Country normalizer *)

Lemma dict_get_find (d : list (string * string)) (k : string) :
  dict_get d k =
  option_map snd (find (fun entry => String.eqb k (fst entry)) d).
Proof.
  induction d as [|[k' v] d IH]; simpl; [reflexivity|].
  destruct (String.eqb k k'); [reflexivity | exact IH].
Qed.

Lemma fuzzy_match_find (items : list (string * string)) (name : string) :
  fuzzy_match items name = option_map snd (find (alias_matches name) items).
Proof.
  induction items as [|[variant standard] items IH]; simpl; [reflexivity|].
  unfold alias_matches at 1; simpl.
  destruct (PyStr.contains (PyStr.lower variant) (PyStr.lower name)
            || PyStr.contains (PyStr.lower name) (PyStr.lower variant))%bool;
    [reflexivity | exact IH].
Qed.

(** C5.  The normalizer is the four-step procedure of the specification
    (canonical name, alias, case-insensitive two-way substring match, no
    match), on the trimmed input, a missing value giving None; it maps PRC
    to China, the padded U.S.A. to United States, Mars to None, and every
    canonical country to itself. *)
Theorem standardize_country_name_spec :
  (forall raw_name, standardize_country_name raw_name = normalize_spec raw_name)
  /\ standardize_country_name None = None
  /\ standardize_country_name (Some "PRC") = Some "China"
  /\ standardize_country_name (Some "  U.S.A. ") = Some "United States"
  /\ standardize_country_name (Some "Mars") = None
  /\ Forall (fun c => standardize_country_name (Some c) = Some c) TARGET_COUNTRIES.
Proof.
  split.
  { intros [raw|]; [|reflexivity]. unfold standardize_country_name, normalize_spec.
    unfold PyStr.in_list.
    destruct (existsb _ TARGET_COUNTRIES); [reflexivity|].
    rewrite dict_get_find, fuzzy_match_find.
    destruct (find (fun entry => String.eqb (PyStr.strip raw) (fst entry))
                COUNTRY_NAME_MAPPING); simpl; [reflexivity|].
    destruct (find (alias_matches (PyStr.strip raw)) COUNTRY_NAME_MAPPING);
      reflexivity. }
  repeat split.
  repeat constructor.
Qed.

(** C10.  A string whose trimmed form is empty is not rejected: the empty
    string is a substring of the first alias, whose country is China. *)
Theorem standardize_country_name_blank (raw : string) :
  PyStr.strip raw = "" -> standardize_country_name (Some raw) = Some "China".
Proof.
  intros H. unfold standardize_country_name. rewrite H. reflexivity.
Qed.

Lemma standardize_country_name_blank_witness :
  PyStr.strip "   " = "" /\ standardize_country_name (Some "   ") = Some "China"
  /\ standardize_country_name (Some "") = Some "China".
Proof.
  split; [reflexivity|]. split.
  - apply (standardize_country_name_blank "   "). reflexivity.
  - apply (standardize_country_name_blank ""). reflexivity.
Defined.

(** ** Cells of a row *)

Lemma set_nth_length (j : nat) (v : cell) (l : list cell) :
  length (set_nth j v l) = length l.
Proof.
  revert j. induction l as [|c l IH]; intros [|j]; simpl; auto.
Qed.

Lemma nth_set_nth_same (j : nat) (v : cell) (l : list cell) :
  (j < length l)%nat -> nth j (set_nth j v l) NaN = v.
Proof.
  revert j. induction l as [|c l IH]; intros [|j] H; simpl in *; try lia; auto.
  apply IH. lia.
Qed.

Lemma nth_set_nth_other (j k : nat) (v : cell) (l : list cell) :
  j <> k -> nth k (set_nth j v l) NaN = nth k l NaN.
Proof.
  revert j k. induction l as [|c l IH]; intros [|j] [|k] H; simpl; auto; try lia.
Qed.

Lemma index_of_bound (name : string) (cols : list string) (j : nat) :
  index_of name cols = Some j -> (j < length cols)%nat /\ nth j cols "" = name.
Proof.
  revert j. induction cols as [|c cols IH]; intros j; simpl; [discriminate|].
  destruct (String.eqb name c) eqn:E.
  - intros [= <-]. apply String.eqb_eq in E. split; [lia | now subst].
  - destruct (index_of name cols) as [i|]; simpl; [|discriminate].
    intros [= <-]. destruct (IH i eq_refl). split; [lia | assumption].
Qed.

Lemma index_of_none (name : string) (cols : list string) :
  index_of name cols = None -> ~ In name cols.
Proof.
  induction cols as [|c cols IH]; simpl; [tauto|].
  destruct (String.eqb name c) eqn:E; [discriminate|].
  destruct (index_of name cols); simpl; [discriminate|].
  intros _ [H|H]; [|now apply IH].
  apply String.eqb_neq in E. congruence.
Qed.

(** ** Cross-feature imputer *)

Lemma find_business_col_some (cols : list string) (b : nat) :
  find_business_col cols = Some b ->
  (b < length cols)%nat /\ is_business_ai (nth b cols "") = true
  /\ forall j, (j < b)%nat -> is_business_ai (nth j cols "") = false.
Proof.
  revert b. induction cols as [|c cols IH]; intros b; simpl; [discriminate|].
  destruct (is_business_ai c) eqn:E.
  - intros [= <-]. repeat split; [lia | exact E | lia].
  - destruct (find_business_col cols) as [i|]; simpl; [|discriminate].
    intros [= <-]. destruct (IH i eq_refl) as (H1 & H2 & H3).
    repeat split; [lia | exact H2 |].
    intros [|j] Hj; [exact E | apply H3; lia].
Qed.

Lemma find_business_col_none (cols : list string) :
  find_business_col cols = None ->
  forall col, In col cols -> is_business_ai col = false.
Proof.
  induction cols as [|c cols IH]; simpl; [tauto|].
  destruct (is_business_ai c) eqn:E; [discriminate|].
  destruct (find_business_col cols); simpl; [discriminate|].
  intros _ col [<-|H]; [exact E | now apply IH].
Qed.

Lemma patch_row_key (bcol ccol : nat) (country : string) (r : Row) :
  key (patch_row bcol ccol country r) = key r.
Proof.
  unfold patch_row. destruct (_ && _)%bool; reflexivity.
Qed.

(** The cell [j] of a row after one effective patch, and of a row that no
    pass changes. *)
Ltac patched_cell bcol :=
  repeat split; intros j;
  destruct (Nat.eqb_spec j bcol) as [->|Hj]; simpl;
  [ now apply nth_set_nth_same | apply nth_set_nth_other; congruence ].

Ltac untouched_cell :=
  repeat split; intros j; now rewrite andb_false_r.

Lemma patch_scoped_cells (bcol ccol : nat) (r : Row) :
  (bcol < length (feats r))%nat ->
  Country (patch_scoped bcol ccol r) = Country r
  /\ Year (patch_scoped bcol ccol r) = Year r
  /\ forall j, cell_at j (patch_scoped bcol ccol r) =
       if ((j =? bcol)%nat && PyStr.in_list (Country r) scoped_countries
           && isna (cell_at bcol r))%bool
       then cell_at ccol r else cell_at j r.
Proof.
  intros Hb. destruct r as [c y fs]. unfold patch_scoped, patch_row, cell_at.
  simpl in *.
  destruct (String.eqb c "China") eqn:E1.
  - apply String.eqb_eq in E1. subst c. simpl.
    destruct (isna (nth bcol fs NaN)) eqn:N; simpl;
      [patched_cell bcol | untouched_cell].
  - simpl. destruct (String.eqb c "India") eqn:E2.
    + apply String.eqb_eq in E2. subst c. simpl.
      destruct (isna (nth bcol fs NaN)) eqn:N; simpl;
        [patched_cell bcol | untouched_cell].
    + simpl. destruct (String.eqb c "United Arab Emirates") eqn:E3; simpl.
      * destruct (isna (nth bcol fs NaN)) eqn:N; simpl;
          [patched_cell bcol | untouched_cell].
      * untouched_cell.
Qed.

Lemma Forall2_map_r {A B : Type} (P : A -> B -> Prop) (f : A -> B) (l : list A) :
  Forall (fun a => P a (f a)) l -> Forall2 P l (map f l).
Proof.
  induction 1; simpl; constructor; auto.
Qed.

Lemma impute_rows_scoped (bcol ccol : nat) (rs : list Row) :
  fold_left (fun rs country => map (patch_row bcol ccol country) rs)
            scoped_countries rs
  = map (patch_scoped bcol ccol) rs.
Proof.
  simpl. rewrite !map_map. reflexivity.
Qed.

(** C6, as amended.  For a table with the column Commercial_Score: when a
    column names both business and AI, the first such column is patched, in
    the rows of the three scoped countries where it is missing, with the
    commercial score of the same row, and every other cell and every key is
    unchanged; when no column does, the column Business_AI_Adoption is
    appended, equal in every row to the commercial score. *)
Theorem impute_with_commercial_score_spec (df : DataFrame) (ccol : nat) :
  wf_frame df ->
  index_of "Commercial_Score" (columns df) = Some ccol ->
  map key (rows (impute_with_commercial_score df)) = map key (rows df)
  /\ (forall bcol, find_business_col (columns df) = Some bcol ->
        is_business_ai (nth bcol (columns df) "") = true
        /\ columns (impute_with_commercial_score df) = columns df
        /\ Forall2 (fun r r' => forall j, cell_at j r' =
                      if ((j =? bcol)%nat
                          && PyStr.in_list (Country r) scoped_countries
                          && isna (cell_at bcol r))%bool
                      then cell_at ccol r else cell_at j r)
                   (rows df) (rows (impute_with_commercial_score df)))
  /\ (find_business_col (columns df) = None ->
        (forall col, In col (columns df) -> is_business_ai col = false)
        /\ columns (impute_with_commercial_score df)
           = (columns df ++ ["Business_AI_Adoption"])%list
        /\ Forall2 (fun r r' =>
                      (forall j, (j < length (columns df))%nat ->
                                 cell_at j r' = cell_at j r)
                      /\ cell_at (length (columns df)) r' = cell_at ccol r)
                   (rows df) (rows (impute_with_commercial_score df))).
Proof.
  intros Hwf Hc. unfold impute_with_commercial_score. rewrite Hc.
  destruct (find_business_col (columns df)) as [b|] eqn:Hb.
  - destruct (find_business_col_some _ _ Hb) as (Hlt & Hbus & _).
    rewrite impute_rows_scoped. cbn [rows columns]. split; [|split].
    + rewrite map_map. apply map_ext_in. intros r Hr.
      unfold patch_scoped. now rewrite !patch_row_key.
    + intros bcol [= <-]. split; [exact Hbus|]. split; [reflexivity|].
      apply Forall2_map_r. unfold wf_frame in Hwf.
      eapply Forall_impl; [|exact Hwf]. intros r Hr.
      destruct (patch_scoped_cells b ccol r) as (_ & _ & H); [simpl in Hr; lia | exact H].
    + discriminate.
  - pose proof (find_business_col_none _ Hb) as Hnone.
    assert (Hidx : index_of "Business_AI_Adoption" (columns df) = None).
    { destruct (index_of "Business_AI_Adoption" (columns df)) as [j|] eqn:E;
        [|reflexivity].
      apply index_of_bound in E as [Hj Hn].
      assert (Hin : In "Business_AI_Adoption" (columns df)).
      { rewrite <- Hn. now apply nth_In. }
      apply Hnone in Hin. discriminate Hin. }
    unfold assign_column. rewrite Hidx. simpl. split; [|split].
    + rewrite map_map. reflexivity.
    + discriminate.
    + intros _. split; [exact Hnone|]. split; [reflexivity|].
      apply Forall2_map_r. unfold wf_frame in Hwf.
      eapply Forall_impl; [|exact Hwf]. intros r Hr. simpl in Hr.
      unfold cell_at; simpl. split.
      * intros j Hj. apply app_nth1. lia.
      * rewrite <- Hr. rewrite app_nth2 by lia. now rewrite Nat.sub_diag.
Qed.

Lemma impute_with_commercial_score_spec_witness :
  map key (rows (impute_with_commercial_score
     (mkDF ["Commercial_Score"; "Business_AI_Use"]
           [ mkRow "China" 2020 [Num 7; NaN]; mkRow "France" 2020 [Num 3; NaN] ])))
  = [("China", 2020); ("France", 2020)]
  /\ rows (impute_with_commercial_score
     (mkDF ["Commercial_Score"; "Business_AI_Use"]
           [ mkRow "China" 2020 [Num 7; NaN]; mkRow "France" 2020 [Num 3; NaN] ]))
  = [ mkRow "China" 2020 [Num 7; Num 7]; mkRow "France" 2020 [Num 3; NaN] ].
Proof.
  split; [|reflexivity].
  refine (proj1 (impute_with_commercial_score_spec
     (mkDF ["Commercial_Score"; "Business_AI_Use"]
           [ mkRow "China" 2020 [Num 7; NaN]; mkRow "France" 2020 [Num 3; NaN] ])
     0%nat _ _)).
  - repeat constructor.
  - reflexivity.
Defined.

(** C6 as stated fails on a table without the column Commercial_Score: no
    column names both business and AI, and yet no column is created. *)
Lemma impute_without_commercial_score :
  ~ (find_business_col (columns (mkDF ["GERD_Million_USD"]
                                      [mkRow "China" 2020 [Num 1]])) = None ->
     exists name,
       columns (impute_with_commercial_score
                  (mkDF ["GERD_Million_USD"] [mkRow "China" 2020 [Num 1]]))
       = (["GERD_Million_USD"] ++ [name])%list).
Proof.
  intros H. destruct (H eq_refl) as (name & Hn). discriminate Hn.
Qed.

(** ** Linear interpolation of a column *)

Lemma known_from_app (s : Z) (l1 l2 : list cell) :
  known_from s (l1 ++ l2)
  = (known_from s l1 ++ known_from (s + Z.of_nat (length l1)) l2)%list.
Proof.
  revert s. induction l1 as [|c l1 IH]; intros s; simpl.
  - now rewrite Z.add_0_r.
  - replace (s + Z.pos (Pos.of_succ_nat (length l1)))
      with (s + 1 + Z.of_nat (length l1)) by lia.
    destruct c; simpl; now rewrite IH.
Qed.

Lemma known_from_none (s : Z) (l : list cell) :
  Forall not_num l -> known_from s l = [].
Proof.
  intros H. revert s. induction H as [|c l Hc _ IH]; intros s; simpl; [reflexivity|].
  destruct c; auto. exfalso. eapply Hc. reflexivity.
Qed.

Lemma known_from_bound (s : Z) (l : list cell) (p : Z * Q) :
  In p (known_from s l) -> s <= fst p < s + Z.of_nat (length l).
Proof.
  revert s. induction l as [|c l IH]; intros s; simpl; [tauto|].
  destruct c; simpl; intros H.
  - destruct H as [<-|H]; simpl; [lia|]. apply IH in H. lia.
  - apply IH in H. lia.
  - apply IH in H. lia.
Qed.

Lemma fill_from_app (pts : list (Z * Q)) (s : Z) (l1 l2 : list cell) :
  fill_from pts s (l1 ++ l2)
  = (fill_from pts s l1 ++ fill_from pts (s + Z.of_nat (length l1)) l2)%list.
Proof.
  revert s. induction l1 as [|c l1 IH]; intros s; simpl.
  - now rewrite Z.add_0_r.
  - rewrite IH. do 3 f_equal. lia.
Qed.

Lemma fill_from_length (pts : list (Z * Q)) (s : Z) (l : list cell) :
  length (fill_from pts s l) = length l.
Proof.
  revert s. induction l as [|c l IH]; intros s; simpl; auto.
Qed.

Lemma interpolate_length (col : list cell) :
  length (interpolate col) = length col.
Proof. apply fill_from_length. Qed.

Lemma fill_from_nth (pts : list (Z * Q)) (s : Z) (l : list cell) (i : nat) :
  (i < length l)%nat ->
  nth i (fill_from pts s l) NaN = fill_cell pts (s + Z.of_nat i) (nth i l NaN).
Proof.
  revert s i. induction l as [|c l IH]; intros s [|i] H; simpl in *; try lia.
  - now rewrite Z.add_0_r.
  - rewrite IH by lia. f_equal. lia.
Qed.

Lemma interpolate_nth (col : list cell) (i : nat) :
  (i < length col)%nat ->
  nth i (interpolate col) NaN
  = fill_cell (known_from 0 col) (Z.of_nat i) (nth i col NaN).
Proof.
  intros H. unfold interpolate. now rewrite fill_from_nth.
Qed.

(** To the right of points that all lie before [x], [np.interp] goes on to
    the next points. *)
Lemma np_interp_from_skip (x a : Z) (fa : Q) (pre rest : list (Z * Q))
  (b : Z) (fb : Q) :
  Forall (fun p => fst p < x) pre -> b < x ->
  np_interp_from x a fa (pre ++ (b, fb) :: rest) = np_interp_from x b fb rest.
Proof.
  revert a fa. induction pre as [|[c fc] pre IH]; intros a fa Hpre Hb; simpl.
  - destruct (Z.ltb_spec x b); [lia | reflexivity].
  - inversion Hpre as [|? ? Hc Hpre']; subst. simpl in Hc.
    destruct (Z.ltb_spec x c); [lia|]. now apply IH.
Qed.

Lemma np_interp_skip (x : Z) (pre rest : list (Z * Q)) (b : Z) (fb : Q) :
  Forall (fun p => fst p < x) pre -> b < x ->
  np_interp x (pre ++ (b, fb) :: rest) = Some (np_interp_from x b fb rest).
Proof.
  intros Hpre Hb. destruct pre as [|[a fa] pre]; simpl.
  - destruct (Z.leb_spec x b); [lia | reflexivity].
  - inversion Hpre as [|? ? Ha Hpre']; subst. simpl in Ha.
    destruct (Z.leb_spec x a); [lia|]. f_equal. now apply np_interp_from_skip.
Qed.

(** Before the first known point the value is the first value. *)
Lemma np_interp_left (x b : Z) (fb : Q) (rest : list (Z * Q)) :
  x <= b -> np_interp x ((b, fb) :: rest) = Some fb.
Proof.
  intros H. simpl. destruct (Z.leb_spec x b); [reflexivity | lia].
Qed.

(** ** Rows and columns of a frame *)

Lemma set_col_key (j : nat) (vals : list cell) (rs : list Row) :
  map key (set_col j vals rs) = map key rs.
Proof.
  revert vals. induction rs as [|r rs IH]; intros [|v vals]; simpl; auto.
  now rewrite IH.
Qed.

Lemma set_col_length (j : nat) (vals : list cell) (rs : list Row) :
  length (set_col j vals rs) = length rs.
Proof.
  rewrite <- (length_map key), set_col_key. apply length_map.
Qed.

Lemma set_col_wf (n j : nat) (vals : list cell) (rs : list Row) :
  Forall (fun r => length (feats r) = n) rs ->
  Forall (fun r => length (feats r) = n) (set_col j vals rs).
Proof.
  intros H. revert vals. induction H as [|r rs Hr Hrs IH]; intros [|v vals]; simpl.
  - constructor.
  - constructor.
  - now constructor.
  - constructor; [simpl; now rewrite set_nth_length | apply IH].
Qed.

Lemma get_col_set_col_other (j k : nat) (vals : list cell) (rs : list Row) :
  j <> k -> get_col k (set_col j vals rs) = get_col k rs.
Proof.
  intros Hjk. revert vals. induction rs as [|r rs IH]; intros [|v vals]; simpl; auto.
  unfold cell_at at 1. simpl. rewrite nth_set_nth_other by assumption.
  f_equal. apply IH.
Qed.

Lemma get_col_set_col_same (n j : nat) (vals : list cell) (rs : list Row) :
  (j < n)%nat -> Forall (fun r => length (feats r) = n) rs ->
  length vals = length rs ->
  get_col j (set_col j vals rs) = vals.
Proof.
  intros Hj H. revert vals. induction H as [|r rs Hr _ IH]; intros [|v vals] Hl;
    simpl in *; try discriminate; auto.
  unfold cell_at at 1. simpl. rewrite nth_set_nth_same by lia.
  f_equal. apply IH. lia.
Qed.

Lemma get_col_length (j : nat) (rs : list Row) : length (get_col j rs) = length rs.
Proof. apply length_map. Qed.

(** The loop over the numeric columns: keys are kept, the columns of the
    loop are interpolated, the other columns are kept. *)
Lemma interpolate_cols_key (cols : list nat) (rs : list Row) :
  map key (fold_left (fun rs col => set_col col (interpolate (get_col col rs)) rs)
                     cols rs)
  = map key rs.
Proof.
  revert rs. induction cols as [|c cols IH]; intros rs; simpl; [reflexivity|].
  now rewrite IH, set_col_key.
Qed.

Lemma interpolate_cols_wf (n : nat) (cols : list nat) (rs : list Row) :
  Forall (fun r => length (feats r) = n) rs ->
  Forall (fun r => length (feats r) = n)
    (fold_left (fun rs col => set_col col (interpolate (get_col col rs)) rs)
               cols rs).
Proof.
  revert rs. induction cols as [|c cols IH]; intros rs H; simpl; [exact H|].
  apply IH. now apply set_col_wf.
Qed.

Lemma interpolate_cols_other (cols : list nat) (rs : list Row) (j : nat) :
  ~ In j cols ->
  get_col j (fold_left (fun rs col => set_col col (interpolate (get_col col rs)) rs)
                       cols rs)
  = get_col j rs.
Proof.
  revert rs. induction cols as [|c cols IH]; intros rs H; simpl; [reflexivity|].
  rewrite IH by (intros H'; apply H; now right).
  apply get_col_set_col_other. intros ->. apply H. now left.
Qed.

Lemma interpolate_cols_same (n : nat) (cols : list nat) (rs : list Row) (j : nat) :
  NoDup cols -> In j cols -> (j < n)%nat ->
  Forall (fun r => length (feats r) = n) rs ->
  get_col j (fold_left (fun rs col => set_col col (interpolate (get_col col rs)) rs)
                       cols rs)
  = interpolate (get_col j rs).
Proof.
  revert rs. induction cols as [|c cols IH]; intros rs Hnd Hin Hj Hwf; simpl;
    [destruct Hin|].
  inversion Hnd as [|? ? Hc Hnd']; subst.
  destruct (Nat.eq_dec c j) as [->|Hcj].
  - rewrite interpolate_cols_other by assumption.
    apply (get_col_set_col_same n); auto.
    now rewrite interpolate_length, get_col_length.
  - destruct Hin as [->|Hin]; [congruence|].
    rewrite IH; auto.
    + now rewrite get_col_set_col_other.
    + now apply set_col_wf.
Qed.

(** ** Ranges of years *)

Lemma range_length (lo hi : Z) : length (range lo hi) = Z.to_nat (hi - lo).
Proof. unfold range. now rewrite length_map, length_seq. Qed.

Lemma range_In (lo hi y : Z) : In y (range lo hi) <-> lo <= y < hi.
Proof.
  unfold range. rewrite in_map_iff. split.
  - intros (i & <- & Hi). apply in_seq in Hi. lia.
  - intros H. exists (Z.to_nat (y - lo)). split; [lia|]. apply in_seq. lia.
Qed.

Lemma range_nil (lo hi : Z) : hi <= lo -> range lo hi = [].
Proof.
  intros H. unfold range. replace (Z.to_nat (hi - lo)) with O by lia. reflexivity.
Qed.

Lemma range_cons (lo hi : Z) : lo < hi -> range lo hi = lo :: range (lo + 1) hi.
Proof.
  intros H. unfold range.
  replace (Z.to_nat (hi - lo)) with (S (Z.to_nat (hi - (lo + 1)))) by lia.
  simpl. f_equal; [lia|].
  rewrite <- seq_shift, map_map. apply map_ext. intros i. lia.
Qed.

Lemma range_split (lo hi y : Z) :
  lo <= y < hi -> range lo hi = (range lo y ++ y :: range (y + 1) hi)%list.
Proof.
  intros H. remember (Z.to_nat (y - lo)) as n eqn:Hn.
  revert lo H Hn. induction n as [|n IH]; intros lo H Hn.
  - assert (lo = y) by lia. subst lo.
    rewrite (range_nil y y) by lia. simpl. apply range_cons. lia.
  - rewrite (range_cons lo hi) by lia. rewrite (range_cons lo y) by lia.
    simpl. f_equal. apply IH; lia.
Qed.

Lemma range_NoDup (lo hi : Z) : NoDup (range lo hi).
Proof.
  unfold range. apply NoDup_map_NoDup_ForallPairs; [|apply seq_NoDup].
  intros i j _ _ H. lia.
Qed.

Lemma range_nth (lo hi : Z) (i : nat) :
  (i < Z.to_nat (hi - lo))%nat -> nth i (range lo hi) 0 = lo + Z.of_nat i.
Proof.
  intros H. unfold range. set (f := fun i : nat => lo + Z.of_nat i).
  rewrite (nth_indep _ 0 (f O)) by (now rewrite length_map, length_seq).
  rewrite map_nth, seq_nth by assumption. reflexivity.
Qed.

(** ** Least and greatest year *)

Lemma min_year_spec (rs : list Row) (y0 : Z) :
  min_year rs y0 <= y0
  /\ (forall r, In r rs -> min_year rs y0 <= Year r)
  /\ (min_year rs y0 = y0 \/ In (min_year rs y0) (map Year rs)).
Proof.
  unfold min_year. revert y0. induction rs as [|r rs IH]; intros y0; simpl.
  - repeat split; [lia | tauto | now left].
  - destruct (IH (Z.min y0 (Year r))) as (H1 & H2 & H3). repeat split.
    + lia.
    + intros x [<-|Hx]; [lia | now apply H2].
    + destruct H3 as [H3|H3]; [|now right; right].
      rewrite H3. destruct (Z.min_spec y0 (Year r)) as [[_ ->]|[_ ->]];
        [now left | now right; left].
Qed.

Lemma max_year_spec (rs : list Row) (y0 : Z) :
  y0 <= max_year rs y0
  /\ (forall r, In r rs -> Year r <= max_year rs y0)
  /\ (max_year rs y0 = y0 \/ In (max_year rs y0) (map Year rs)).
Proof.
  unfold max_year. revert y0. induction rs as [|r rs IH]; intros y0; simpl.
  - repeat split; [lia | tauto | now left].
  - destruct (IH (Z.max y0 (Year r))) as (H1 & H2 & H3). repeat split.
    + lia.
    + intros x [<-|Hx]; [lia | now apply H2].
    + destruct H3 as [H3|H3]; [|now right; right].
      rewrite H3. destruct (Z.max_spec y0 (Year r)) as [[_ ->]|[_ ->]];
        [now right; left | now left].
Qed.

Lemma min_max_of_country (r0 : Row) (rest : list Row) :
  is_min_max (map Year (r0 :: rest))
             (min_year (r0 :: rest) (Year r0)) (max_year (r0 :: rest) (Year r0)).
Proof.
  destruct (min_year_spec (r0 :: rest) (Year r0)) as (A1 & A2 & A3).
  destruct (max_year_spec (r0 :: rest) (Year r0)) as (B1 & B2 & B3).
  repeat split.
  - destruct A3 as [->|A3]; [now left | exact A3].
  - destruct B3 as [->|B3]; [now left | exact B3].
  - apply in_map_iff in H as (r & <- & Hr). now apply A2.
  - apply in_map_iff in H as (r & <- & Hr). now apply B2.
Qed.

(** ** The completed frame of one country *)

Lemma filter_year_unique (l : list Row) (y : Z) :
  NoDup (map Year l) ->
  filter (fun r => Year r =? y) l
  = match find (fun r => Year r =? y) l with Some r => [r] | None => [] end.
Proof.
  induction l as [|h t IH]; simpl; [reflexivity|].
  intros Hnd. inversion Hnd as [|? ? Hh Ht]; subst.
  destruct (Z.eqb_spec (Year h) y) as [E|E].
  - f_equal. rewrite IH by assumption.
    destruct (find (fun r => Year r =? y) t) as [r|] eqn:F; [|reflexivity].
    apply find_some in F as [Hr Hy]. apply Z.eqb_eq in Hy.
    exfalso. apply Hh. rewrite E, <- Hy. now apply in_map.
  - now apply IH.
Qed.

Lemma year_rows_single (ncols : nat) (country : string) (df_country : list Row)
  (y : Z) :
  NoDup (map Year df_country) ->
  year_rows ncols country df_country y = [row_for ncols country df_country y].
Proof.
  intros H. unfold year_rows, row_for. rewrite filter_year_unique by assumption.
  destruct (find (fun r => Year r =? y) df_country); reflexivity.
Qed.

Lemma flat_map_single {A B : Type} (f : A -> list B) (g : A -> B) (l : list A) :
  (forall a, In a l -> f a = [g a]) -> flat_map f l = map g l.
Proof.
  induction l as [|a l IH]; intros H; simpl; [reflexivity|].
  rewrite (H a) by now left. simpl. f_equal. apply IH. intros; apply H; now right.
Qed.

Lemma rows_of_country (country : string) (df : DataFrame) (r : Row) :
  In r (rows_of country df) <-> In r (rows df) /\ Country r = country.
Proof.
  unfold rows_of. rewrite filter_In, String.eqb_eq. reflexivity.
Qed.

Lemma unique_keys_years (country : string) (df : DataFrame) :
  unique_keys df -> NoDup (map Year (rows_of country df)).
Proof.
  unfold unique_keys, rows_of. induction (rows df) as [|r rs IH]; simpl;
    [constructor|].
  intros Hnd. inversion Hnd as [|? ? Hr Hrs]; subst.
  destruct (String.eqb_spec (Country r) country) as [E|E]; [|now apply IH].
  simpl. constructor; [|now apply IH].
  intros Hin. apply Hr. apply in_map_iff in Hin as (x & Hy & Hx).
  apply filter_In in Hx as [Hx Hc]. apply String.eqb_eq in Hc.
  apply in_map_iff. exists x. split; [|exact Hx].
  unfold key. congruence.
Qed.

(** ** Interpolation of a column laid out over a range of years *)

Lemma num_of_none (c : cell) : num_of c = None -> not_num c.
Proof. destruct c as [p|t|]; simpl; intros H q; congruence. Qed.

Lemma num_of_nan (c : cell) : num_of c = None -> is_str c = false -> c = NaN.
Proof. destruct c; simpl; congruence. Qed.

Lemma range_not_num (g : Z -> cell) (a b : Z) :
  (forall k, a <= k < b -> num_of (g k) = None) ->
  Forall not_num (map g (range a b)).
Proof.
  intros H. apply Forall_forall. intros c Hc.
  apply in_map_iff in Hc as (k & <- & Hk). apply range_In in Hk.
  apply num_of_none. now apply H.
Qed.

Lemma known_from_lt (s : Z) (l : list cell) (x : Z) :
  s + Z.of_nat (length l) <= x ->
  Forall (fun p => fst p < x) (known_from s l).
Proof.
  intros H. apply Forall_forall. intros p Hp. apply known_from_bound in Hp. lia.
Qed.

Lemma interpolate_linear_fill (g : Z -> cell) (lo hi : Z) (i : nat) :
  (forall y, is_str (g y) = false) ->
  (forall y, ~ lo <= y <= hi -> num_of (g y) = None) ->
  (i < length (range lo (hi + 1)))%nat ->
  linear_fill (fun y => num_of (g y)) lo hi (lo + Z.of_nat i)
    (nth i (interpolate (map g (range lo (hi + 1)))) NaN).
Proof.
  intros Hstr Hout Hi.
  assert (Hlen : length (range lo (hi + 1)) = Z.to_nat (hi + 1 - lo))
    by apply range_length.
  set (y := lo + Z.of_nat i).
  assert (Hy : lo <= y <= hi) by (unfold y; lia).
  rewrite interpolate_nth by (now rewrite length_map).
  set (d := g 0).
  rewrite (nth_indep _ NaN (g 0)) by (now rewrite length_map).
  rewrite map_nth, range_nth by lia. fold y.
  assert (Hin : forall k v, num_of (g k) = Some v -> lo <= k <= hi).
  { intros k v Hk. destruct (Z_le_dec lo k) as [H1|H1];
      [destruct (Z_le_dec k hi) as [H2|H2]; [lia|]|];
      rewrite Hout in Hk by lia; discriminate. }
  unfold linear_fill. repeat split.
  - (* an observed value is kept *)
    intros v Hv. destruct (g y); simpl in Hv; try discriminate.
    injection Hv as ->. reflexivity.
  - (* between two neighbouring observations *)
    intros y0 y1 v0 v1 Hbetween H0 H1 Hgap.
    pose proof (Hin _ _ H0) as R0. pose proof (Hin _ _ H1) as R1.
    rewrite (num_of_nan (g y)) by (auto; apply Hgap; lia). simpl.
    rewrite (range_split lo (hi + 1) y0) by lia.
    rewrite (range_split (y0 + 1) (hi + 1) y1) by lia.
    rewrite !map_app; simpl. rewrite !map_app; simpl.
    destruct (g y0) as [q0| |] eqn:G0; simpl in H0; try discriminate.
    injection H0 as ->.
    destruct (g y1) as [q1| |] eqn:G1; simpl in H1; try discriminate.
    injection H1 as ->.
    rewrite known_from_app. simpl. rewrite known_from_app. simpl.
    rewrite (known_from_none _ (map g (range (y0 + 1) y1)))
      by (apply range_not_num; intros k Hk; apply Hgap; lia).
    simpl. rewrite !length_map, !range_length.
    rewrite np_interp_skip; [| apply known_from_lt; rewrite length_map, range_length; lia | lia].
    simpl.
    match goal with
    | |- context [?a <? ?b] => destruct (Z.ltb_spec a b) as [_|Hge]; [|lia]
    end.
    eexists. split; [reflexivity|].
    match goal with
    | |- (_ / inject_Z ?a * inject_Z ?b + _ == _)%Q =>
        replace a with (y1 - y0) by lia;
        replace b with (y - y0) by (unfold y; lia)
    end.
    field. intros Hz.
    assert (Hne : ~ (inject_Z (y1 - y0) == inject_Z 0)%Q).
    { rewrite inject_Z_injective. lia. }
    apply Hne. exact Hz.
  - (* before the first observation *)
    intros y1 v1 Hlt H1 Hgap. pose proof (Hin _ _ H1) as R1.
    rewrite (num_of_nan (g y)) by (auto; apply Hgap; lia). simpl.
    rewrite (range_split lo (hi + 1) y1) by lia.
    rewrite map_app; simpl.
    destruct (g y1) as [q1| |] eqn:G1; simpl in H1; try discriminate.
    injection H1 as ->.
    rewrite known_from_app. simpl.
    rewrite (known_from_none _ (map g (range lo y1)))
      by (apply range_not_num; intros k Hk; apply Hgap; lia).
    rewrite length_map, range_length. simpl app.
    rewrite np_interp_left by (unfold y in Hlt; lia). reflexivity.
  - (* after the last observation *)
    intros y0 v0 Hlt H0 Hgap. pose proof (Hin _ _ H0) as R0.
    rewrite (num_of_nan (g y)) by (auto; apply Hgap; lia). simpl.
    rewrite (range_split lo (hi + 1) y0) by lia.
    rewrite map_app; simpl.
    destruct (g y0) as [q0| |] eqn:G0; simpl in H0; try discriminate.
    injection H0 as ->.
    rewrite known_from_app. simpl.
    rewrite (known_from_none _ (map g (range (y0 + 1) (hi + 1))))
      by (apply range_not_num; intros k Hk; apply Hgap; lia).
    rewrite length_map, range_length.
    rewrite np_interp_skip;
      [| apply known_from_lt; rewrite length_map, range_length; lia
       | unfold y in Hlt; lia].
    reflexivity.
  - (* no observation at all *)
    intros Hnone.
    rewrite (num_of_nan (g y)) by (auto; apply Hnone; lia). simpl.
    rewrite (known_from_none _ (map g (range lo (hi + 1))))
      by (apply range_not_num; intros k Hk; apply Hnone; lia).
    reflexivity.
Qed.

(** ** The interpolated frame, country by country *)

Lemma TARGET_COUNTRIES_NoDup : NoDup TARGET_COUNTRIES.
Proof.
  unfold TARGET_COUNTRIES.
  repeat (constructor; [simpl; intuition discriminate|]). constructor.
Qed.

Lemma year_rows_key (ncols : nat) (country : string) (df_country : list Row)
  (y : Z) (r : Row) :
  In r (year_rows ncols country df_country y) -> key r = (country, y).
Proof.
  unfold year_rows. destruct (filter _ df_country) as [|m ms].
  - intros [<-|[]]. reflexivity.
  - intros H. apply in_map_iff in H as (x & <- & _). reflexivity.
Qed.

Lemma interpolate_country_rows (df : DataFrame) (country : string) (r : Row) :
  In r (concat (interpolate_country df country)) -> Country r = country.
Proof.
  unfold interpolate_country.
  destruct (filter _ (rows df)) as [|r0 rest]; simpl; [tauto|].
  rewrite app_nil_r. intros H.
  apply (in_map key) in H. rewrite interpolate_cols_key in H.
  apply in_map_iff in H as (x & Hk & Hx).
  apply in_flat_map in Hx as (y & _ & Hx). apply year_rows_key in Hx.
  rewrite Hx in Hk. unfold key in Hk. congruence.
Qed.

Lemma filter_none {A : Type} (f : A -> bool) (l : list A) :
  (forall a, In a l -> f a = false) -> filter f l = [].
Proof.
  induction l as [|a l IH]; intros H; simpl; [reflexivity|].
  rewrite (H a) by now left. apply IH. intros; apply H; now right.
Qed.

Lemma filter_all {A : Type} (f : A -> bool) (l : list A) :
  (forall a, In a l -> f a = true) -> filter f l = l.
Proof.
  induction l as [|a l IH]; intros H; simpl; [reflexivity|].
  rewrite (H a) by now left. f_equal. apply IH. intros; apply H; now right.
Qed.

Lemma filter_frames_other (F : string -> list (list Row)) (cs : list string)
  (country : string) :
  (forall c r, In r (concat (F c)) -> Country r = c) ->
  ~ In country cs ->
  filter (fun r => String.eqb (Country r) country) (concat (flat_map F cs)) = [].
Proof.
  intros HF Hc. apply filter_none. intros r Hr.
  rewrite flat_map_concat_map in Hr.
  apply in_concat in Hr as (frame & Hf & Hr).
  apply in_concat in Hf as (frames & Hfs & Hf).
  apply in_map_iff in Hfs as (c & <- & Hcs).
  assert (Country r = c).
  { apply HF. apply in_concat. exists frame. split; assumption. }
  apply String.eqb_neq. congruence.
Qed.

Lemma filter_frames_same (F : string -> list (list Row)) (cs : list string)
  (country : string) :
  (forall c r, In r (concat (F c)) -> Country r = c) ->
  NoDup cs -> In country cs ->
  filter (fun r => String.eqb (Country r) country) (concat (flat_map F cs))
  = concat (F country).
Proof.
  intros HF Hnd Hin. induction Hnd as [|c cs Hc Hnd IH]; [destruct Hin|].
  simpl. rewrite concat_app, filter_app.
  destruct (String.eqb_spec c country) as [->|Hne].
  - rewrite (filter_frames_other F cs country HF Hc), app_nil_r.
    apply filter_all. intros r Hr. apply String.eqb_eq. now apply HF.
  - destruct Hin as [->|Hin]; [congruence|].
    rewrite IH by assumption.
    rewrite filter_none; [reflexivity|].
    intros r Hr. apply String.eqb_neq. apply HF in Hr. congruence.
Qed.

Lemma rows_of_interpolate (df : DataFrame) (country : string) :
  In country TARGET_COUNTRIES ->
  rows_of country (interpolate_missing_years df)
  = concat (interpolate_country df country).
Proof.
  intros Hin. unfold interpolate_missing_years.
  destruct (flat_map (interpolate_country df) TARGET_COUNTRIES) as [|f fs] eqn:E.
  - assert (Hc : interpolate_country df country = []).
    { destruct (interpolate_country df country) as [|x xs] eqn:Ec; [reflexivity|].
      assert (In x (flat_map (interpolate_country df) TARGET_COUNTRIES)).
      { apply in_flat_map. exists country. split; [exact Hin|].
        rewrite Ec. now left. }
      rewrite E in H. destruct H. }
    rewrite Hc. simpl. unfold interpolate_country in Hc. unfold rows_of.
    destruct (filter _ (rows df)); [reflexivity | discriminate].
  - rewrite <- E. unfold rows_of. cbn [rows].
    apply filter_frames_same;
      [apply interpolate_country_rows | apply TARGET_COUNTRIES_NoDup | exact Hin].
Qed.

Lemma interpolate_country_unique (df : DataFrame) (country : string)
  (r0 : Row) (rest : list Row) :
  unique_keys df -> rows_of country df = r0 :: rest ->
  interpolate_country df country
  = [ fold_left (fun rs col => set_col col (interpolate (get_col col rs)) rs)
        (numeric_cols df)
        (map (row_for (length (columns df)) country (r0 :: rest))
             (range (min_year (r0 :: rest) (Year r0))
                    (max_year (r0 :: rest) (Year r0) + 1))) ].
Proof.
  intros Hu Hrows. unfold interpolate_country. unfold rows_of in Hrows.
  rewrite Hrows. f_equal. f_equal.
  apply flat_map_single. intros y _. apply year_rows_single.
  rewrite <- Hrows. now apply unique_keys_years.
Qed.

Lemma row_for_key (ncols : nat) (country : string) (df_country : list Row) (y : Z) :
  key (row_for ncols country df_country y) = (country, y).
Proof.
  unfold row_for. destruct (find _ df_country); reflexivity.
Qed.

Lemma find_filter {A : Type} (p q : A -> bool) (l : list A) :
  find (fun a => (p a && q a)%bool) l = find q (filter p l).
Proof.
  induction l as [|a l IH]; simpl; [reflexivity|].
  destruct (p a); simpl; [|exact IH].
  destruct (q a); [reflexivity | exact IH].
Qed.

Lemma nth_nan_cells (j n : nat) : nth j (nan_cells n) NaN = NaN.
Proof.
  unfold nan_cells. destruct (Nat.lt_ge_cases j n) as [H|H].
  - now apply nth_repeat_lt.
  - apply nth_overflow. now rewrite repeat_length.
Qed.

Lemma observed_row_for (df : DataFrame) (country : string) (j : nat) (y : Z) :
  observed df country j y
  = num_of (cell_at j (row_for (length (columns df)) country
                               (rows_of country df) y)).
Proof.
  unfold observed, row_for, rows_of. rewrite find_filter.
  destruct (find _ (filter _ (rows df))) as [r|]; unfold cell_at; simpl.
  - reflexivity.
  - now rewrite nth_nan_cells.
Qed.

Lemma linear_fill_ext (obs obs' : Z -> option Q) (lo hi y : Z) (c : cell) :
  (forall k, obs k = obs' k) ->
  linear_fill obs lo hi y c -> linear_fill obs' lo hi y c.
Proof.
  intros E (A & B & C & D & N). repeat split.
  - intros v Hv. apply A. now rewrite E.
  - intros y0 y1 v0 v1 Hb H0 H1 Hg. apply (B y0 y1 v0 v1 Hb).
    + now rewrite E.
    + now rewrite E.
    + intros k Hk. rewrite E. now apply Hg.
  - intros y1 v1 Hl H1 Hg. apply (C y1 v1 Hl).
    + now rewrite E.
    + intros k Hk. rewrite E. now apply Hg.
  - intros y0 v0 Hl H0 Hg. apply (D y0 v0 Hl).
    + now rewrite E.
    + intros k Hk. rewrite E. now apply Hg.
  - intros Hg. apply N. intros k Hk. rewrite E. now apply Hg.
Qed.

Lemma numeric_cols_In (df : DataFrame) (j : nat) :
  In j (numeric_cols df)
  <-> (j < length (columns df))%nat /\ numeric_col (rows df) j = true.
Proof.
  unfold numeric_cols. rewrite filter_In, in_seq. intuition lia.
Qed.

Lemma numeric_cols_NoDup (df : DataFrame) : NoDup (numeric_cols df).
Proof. apply NoDup_filter, seq_NoDup. Qed.

Lemma row_for_wf (df : DataFrame) (country : string) (y : Z) :
  wf_frame df ->
  length (feats (row_for (length (columns df)) country (rows_of country df) y))
  = length (columns df).
Proof.
  intros Hwf. unfold row_for.
  destruct (find _ (rows_of country df)) as [r|] eqn:F; simpl.
  - apply find_some in F as [Hr _]. apply rows_of_country in Hr as [Hr _].
    unfold wf_frame in Hwf. rewrite Forall_forall in Hwf. now apply Hwf.
  - apply repeat_length.
Qed.

Lemma row_for_not_str (df : DataFrame) (country : string) (j : nat) (y : Z) :
  numeric_col (rows df) j = true ->
  is_str (cell_at j (row_for (length (columns df)) country
                             (rows_of country df) y)) = false.
Proof.
  intros Hn. unfold row_for.
  destruct (find _ (rows_of country df)) as [r|] eqn:F; unfold cell_at; simpl.
  - apply find_some in F as [Hr _]. apply rows_of_country in Hr as [Hr _].
    unfold numeric_col in Hn. rewrite forallb_forall in Hn.
    apply Hn in Hr. unfold cell_at in Hr. now apply negb_true_iff in Hr.
  - now rewrite nth_nan_cells.
Qed.

(** What the interpolator returns for a country with rows, the keys of
    the frame being pairwise different. *)
Lemma interpolate_country_spec (df : DataFrame) (country : string)
  (r0 : Row) (rest : list Row) :
  wf_frame df -> unique_keys df -> In country TARGET_COUNTRIES ->
  rows_of country df = r0 :: rest ->
  let lo := min_year (r0 :: rest) (Year r0) in
  let hi := max_year (r0 :: rest) (Year r0) in
  map key (rows_of country (interpolate_missing_years df))
  = map (fun y => (country, y)) (range lo (hi + 1))
  /\ forall j r,
       (j < length (columns df))%nat -> numeric_col (rows df) j = true ->
       In r (rows_of country (interpolate_missing_years df)) ->
       linear_fill (observed df country j) lo hi (Year r) (cell_at j r).
Proof.
  intros Hwf Hu Hin Hrows lo hi.
  pose proof (min_max_of_country r0 rest) as (Hlo & Hhi & Hall).
  fold lo hi in Hlo, Hhi, Hall.
  rewrite rows_of_interpolate by assumption.
  rewrite (interpolate_country_unique df country r0 rest Hu Hrows).
  fold lo hi. cbn [concat]. rewrite app_nil_r.
  set (base := map (row_for (length (columns df)) country (r0 :: rest))
                   (range lo (hi + 1))).
  set (frame := fold_left _ (numeric_cols df) base).
  assert (Hkeys : map key frame = map (fun y => (country, y)) (range lo (hi + 1))).
  { unfold frame. rewrite interpolate_cols_key. unfold base. rewrite map_map.
    apply map_ext. intros y. apply row_for_key. }
  split; [exact Hkeys|].
  intros j r Hj Hnum Hr.
  assert (Hbase : Forall (fun r => length (feats r) = length (columns df)) base).
  { unfold base. apply Forall_forall. intros x Hx.
    apply in_map_iff in Hx as (y & <- & _). rewrite <- Hrows.
    now apply row_for_wf. }
  assert (Hcol : get_col j frame
                 = interpolate (map (fun y => cell_at j
                      (row_for (length (columns df)) country (r0 :: rest) y))
                      (range lo (hi + 1)))).
  { unfold frame.
    rewrite (interpolate_cols_same (length (columns df)));
      [ | apply numeric_cols_NoDup | now apply numeric_cols_In | exact Hj
        | exact Hbase ].
    unfold base, get_col. now rewrite map_map. }
  assert (Hlen : length frame = length (range lo (hi + 1))).
  { rewrite <- (length_map key), Hkeys. apply length_map. }
  destruct (In_nth _ _ r Hr) as (i & Hi & Hnth).
  assert (Hyear : Year r = lo + Z.of_nat i).
  { rewrite <- Hnth.
    change (Year (nth i frame r)) with (snd (key (nth i frame r))).
    rewrite <- (map_nth key), Hkeys.
    rewrite (nth_indep _ (key r) ((fun y => (country, y)) 0))
      by (rewrite length_map; lia).
    rewrite (map_nth (fun y => (country, y))). simpl.
    apply range_nth. rewrite <- range_length. lia. }
  assert (Hcell : cell_at j r
                  = nth i (interpolate (map (fun y => cell_at j
                      (row_for (length (columns df)) country (r0 :: rest) y))
                      (range lo (hi + 1)))) NaN).
  { rewrite <- Hcol. unfold get_col.
    rewrite (nth_indep _ NaN (cell_at j r)) by (rewrite length_map; lia).
    rewrite map_nth. now rewrite Hnth. }
  rewrite Hyear, Hcell.
  apply (linear_fill_ext
           (fun y => num_of (cell_at j (row_for (length (columns df)) country
                                               (r0 :: rest) y)))).
  { intros k. rewrite observed_row_for, Hrows. reflexivity. }
  apply (interpolate_linear_fill
           (fun y => cell_at j (row_for (length (columns df)) country
                                        (r0 :: rest) y))).
  - intros y. rewrite <- Hrows. now apply row_for_not_str.
  - intros y Hy. unfold row_for.
    destruct (find (fun r => Year r =? y) (r0 :: rest)) as [x|] eqn:F.
    + apply find_some in F as [Hx Hxy]. apply Z.eqb_eq in Hxy.
      exfalso. apply Hy. rewrite <- Hxy. apply Hall. now apply in_map.
    + unfold cell_at; simpl. now rewrite nth_nan_cells.
  - lia.
Qed.

(** C1, as amended.  On a frame whose (Country, Year) keys are pairwise
    different, the interpolator returns, for a canonical country with rows,
    exactly one row per year from the least to the greatest observed year
    of the country (greatest - least + 1 rows, no other year), and every
    numeric feature column is filled by linear interpolation over the
    years, flat at both ends; a canonical country without row gets no row.
    The rows of 2018 (A = 10) and 2022 (A = 30) give the five rows of 2018
    to 2022 with A = 15, 20, 25 in between, and no row for 2015. *)
Theorem interpolate_missing_years_spec (df : DataFrame) (country : string) :
  wf_frame df -> unique_keys df -> In country TARGET_COUNTRIES ->
  (rows_of country df = [] ->
   rows_of country (interpolate_missing_years df) = [])
  /\ (rows_of country df <> [] ->
      exists lo hi,
        is_min_max (map Year (rows_of country df)) lo hi
        /\ map Year (rows_of country (interpolate_missing_years df))
           = range lo (hi + 1)
        /\ Z.of_nat (length (rows_of country (interpolate_missing_years df)))
           = hi - lo + 1
        /\ forall j r,
             (j < length (columns df))%nat -> numeric_col (rows df) j = true ->
             In r (rows_of country (interpolate_missing_years df)) ->
             linear_fill (observed df country j) lo hi (Year r) (cell_at j r))
  /\ (Forall2 row_equiv
        (rows (interpolate_missing_years
                 (mkDF ["A"] [ mkRow "United States" 2018 [Num 10];
                               mkRow "United States" 2022 [Num 30] ])))
        [ mkRow "United States" 2018 [Num 10];
          mkRow "United States" 2019 [Num 15];
          mkRow "United States" 2020 [Num 20];
          mkRow "United States" 2021 [Num 25];
          mkRow "United States" 2022 [Num 30] ]
      /\ ~ In 2015 (map Year (rows (interpolate_missing_years
                 (mkDF ["A"] [ mkRow "United States" 2018 [Num 10];
                               mkRow "United States" 2022 [Num 30] ]))))).
Proof.
  intros Hwf Hu Hin. split; [|split].
  - intros Hnil. rewrite rows_of_interpolate by assumption.
    unfold interpolate_country. unfold rows_of in Hnil. now rewrite Hnil.
  - intros Hne. destruct (rows_of country df) as [|r0 rest] eqn:Hrows;
      [congruence|].
    destruct (interpolate_country_spec df country r0 rest Hwf Hu Hin Hrows)
      as (Hkeys & Hfill).
    pose proof (min_max_of_country r0 rest) as Hmm.
    exists (min_year (r0 :: rest) (Year r0)), (max_year (r0 :: rest) (Year r0)).
    split; [exact Hmm|]. split; [|split].
    + replace Year with (fun r => snd (key r)) by reflexivity.
      rewrite <- (map_map key snd), Hkeys, map_map. simpl. apply map_id.
    + rewrite <- (length_map key), Hkeys, length_map, range_length.
      destruct Hmm as (Hlo & _ & Hall). apply Hall in Hlo. lia.
    + exact Hfill.
  - split.
    + vm_compute. repeat (constructor; [repeat split; repeat constructor|]).
      constructor.
    + vm_compute. intuition discriminate.
Qed.

Lemma interpolate_missing_years_spec_witness :
  map Year (rows_of "United States"
              (interpolate_missing_years
                 (mkDF ["A"] [ mkRow "United States" 2018 [Num 10];
                               mkRow "United States" 2022 [Num 30] ])))
  = [2018; 2019; 2020; 2021; 2022].
Proof.
  destruct (interpolate_missing_years_spec
              (mkDF ["A"] [ mkRow "United States" 2018 [Num 10];
                            mkRow "United States" 2022 [Num 30] ])
              "United States") as (_ & H & _).
  - repeat constructor.
  - repeat constructor; simpl; intuition discriminate.
  - simpl. tauto.
  - destruct H as (lo & hi & (Hlo & Hhi & Hall) & Hyears & _).
    + discriminate.
    + rewrite Hyears.
      assert (lo = 2018).
      { pose proof (Hall 2018 (or_introl eq_refl)).
        simpl in Hlo. destruct Hlo as [<-|[<-|[]]]; [reflexivity | lia]. }
      assert (hi = 2022).
      { pose proof (Hall 2022 (or_intror (or_introl eq_refl))).
        simpl in Hhi. destruct Hhi as [<-|[<-|[]]]; [lia | reflexivity]. }
      subst. reflexivity.
Defined.

(** C1 as stated fails when a key occurs twice in the merged table, as it
    does when the composite-index source spells a country in two ways: the
    country has the single observed year 2024 and gets two rows. *)
Lemma interpolate_duplicate_key :
  rows merged_two_spellings
  = [ mkRow "United States" 2024 [Num 1]; mkRow "United States" 2024 [Num 2] ]
  /\ In "United States" TARGET_COUNTRIES
  /\ is_min_max (map Year (rows_of "United States" merged_two_spellings)) 2024 2024
  /\ Z.of_nat (length (rows_of "United States"
                         (interpolate_missing_years merged_two_spellings)))
     <> 2024 - 2024 + 1.
Proof.
  split; [reflexivity|]. split; [simpl; tauto|]. split.
  - split; [simpl; tauto|]. split; [simpl; tauto|].
    simpl. intros y [<-|[<-|[]]]; lia.
  - vm_compute. discriminate.
Qed.

(** ** Uniqueness of the keys *)

Lemma filter_key_unique (l : Row) (right : list Row) :
  NoDup (map key right) -> (length (filter (key_eqb l) right) <= 1)%nat.
Proof.
  induction right as [|h t IH]; simpl; [lia|].
  intros Hnd. inversion Hnd as [|? ? Hh Ht]; subst.
  destruct (key_eqb l h) eqn:E; [|now apply IH].
  simpl. rewrite (filter_none (key_eqb l) t); [simpl; lia|].
  intros x Hx. destruct (key_eqb l x) eqn:Ex; [|reflexivity].
  apply key_eqb_eq in E, Ex. exfalso. apply Hh.
  rewrite <- E, Ex. now apply in_map.
Qed.

Lemma merge_left_row_single (nr : nat) (right : list Row) (l : Row) :
  NoDup (map key right) -> map key (merge_left_row nr right l) = [key l].
Proof.
  intros Hnd. pose proof (filter_key_unique l right Hnd) as Hlen.
  unfold merge_left_row. destruct (filter (key_eqb l) right) as [|m [|m' ms]].
  - reflexivity.
  - reflexivity.
  - simpl in Hlen. lia.
Qed.

Lemma merge_left_keys (nr : nat) (left right : list Row) :
  NoDup (map key right) ->
  map key (flat_map (merge_left_row nr right) left) = map key left.
Proof.
  intros Hnd. induction left as [|l left IH]; simpl; [reflexivity|].
  now rewrite map_app, merge_left_row_single, IH.
Qed.

Lemma right_only_NoDup (nl : nat) (left right : list Row) :
  NoDup (map key right) ->
  NoDup (map key (flat_map (right_only nl left) right)).
Proof.
  induction right as [|r right IH]; simpl; [constructor|].
  intros Hnd. inversion Hnd as [|? ? Hr Hrs]; subst.
  rewrite map_app. unfold right_only at 1.
  destruct (existsb (fun l => key_eqb l r) left); simpl; [now apply IH|].
  constructor; [|now apply IH].
  intros Hin. apply Hr. apply in_map_iff in Hin as (x & Hk & Hx).
  apply in_flat_map in Hx as (y & Hy & Hx).
  apply right_only_keys in Hx as [Hxy _].
  apply in_map_iff. exists y. split; [|exact Hy].
  rewrite <- Hxy, Hk. reflexivity.
Qed.

Lemma pd_merge_outer_unique (left right : DataFrame) :
  unique_keys left -> unique_keys right ->
  unique_keys (pd_merge_outer left right).
Proof.
  unfold unique_keys, pd_merge_outer; simpl. intros Hl Hr.
  rewrite map_app, merge_left_keys by assumption.
  apply NoDup_app; [exact Hl | now apply right_only_NoDup |].
  intros k Hk Hk'. apply in_map_iff in Hk' as (x & <- & Hx).
  apply in_flat_map in Hx as (y & Hy & Hx).
  apply right_only_keys in Hx as [Hxy Hno].
  apply in_map_iff in Hk as (l & Hlk & Hl').
  apply (Hno l Hl'). congruence.
Qed.

Lemma merge_fold_unique (df_list : list (string * option DataFrame))
  (acc : option DataFrame) :
  (forall name df, In (name, Some df) df_list -> unique_keys df) ->
  (forall m, acc = Some m -> unique_keys m) ->
  forall m, fold_left merge_step df_list acc = Some m -> unique_keys m.
Proof.
  revert acc. induction df_list as [|[name [df|]] df_list IH];
    intros acc Hin Hacc m; simpl.
  - apply Hacc.
  - apply IH.
    + intros n d H. apply (Hin n). now right.
    + unfold merge_step; simpl. intros m'.
      assert (Hdf : unique_keys df) by (apply (Hin name); now left).
      destruct (0 <? len df); [|apply Hacc].
      destruct acc as [a|]; intros [= <-]; [|exact Hdf].
      apply pd_merge_outer_unique; [now apply Hacc | exact Hdf].
  - apply IH; [|exact Hacc]. intros n d H. apply (Hin n). now right.
Qed.

Lemma merge_all_data_unique (df_list : list (string * option DataFrame)) :
  (forall name df, In (name, Some df) df_list -> unique_keys df) ->
  unique_keys (merge_all_data df_list).
Proof.
  intros Hin. unfold merge_all_data.
  destruct (fold_left merge_step df_list None) as [m|] eqn:E; [|constructor].
  destruct (len m =? 0); [constructor|].
  unfold unique_keys, sort_values; simpl.
  eapply Permutation_NoDup;
    [apply Permutation_map; symmetry; apply sort_rows_perm|].
  apply (merge_fold_unique df_list None Hin); [discriminate | exact E].
Qed.

Lemma interpolate_country_keys (df : DataFrame) (country : string) :
  unique_keys df ->
  NoDup (map key (concat (interpolate_country df country))).
Proof.
  intros Hu. destruct (rows_of country df) as [|r0 rest] eqn:Hrows.
  - unfold interpolate_country. unfold rows_of in Hrows. rewrite Hrows.
    constructor.
  - rewrite (interpolate_country_unique df country r0 rest Hu Hrows).
    cbn [concat]. rewrite app_nil_r, interpolate_cols_key, map_map.
    apply NoDup_map_NoDup_ForallPairs; [|apply range_NoDup].
    intros y y' _ _ H. rewrite !row_for_key in H. congruence.
Qed.

Lemma frames_NoDup (F : string -> list (list Row)) (cs : list string) :
  (forall c r, In r (concat (F c)) -> Country r = c) ->
  (forall c, NoDup (map key (concat (F c)))) ->
  NoDup cs ->
  NoDup (map key (concat (flat_map F cs))).
Proof.
  intros HF Hnd Hcs. induction Hcs as [|c cs Hc Hcs IH]; simpl; [constructor|].
  rewrite concat_app, map_app. apply NoDup_app; [apply Hnd | exact IH |].
  intros k Hk Hk'.
  apply in_map_iff in Hk as (r & <- & Hr).
  apply in_map_iff in Hk' as (r' & Hkk & Hr').
  apply HF in Hr.
  rewrite flat_map_concat_map in Hr'.
  apply in_concat in Hr' as (frame & Hf & Hr').
  apply in_concat in Hf as (frames & Hfs & Hf).
  apply in_map_iff in Hfs as (c' & <- & Hc').
  assert (Country r' = c').
  { apply HF. apply in_concat. exists frame. split; assumption. }
  apply Hc. unfold key in Hkk. congruence.
Qed.

Lemma interpolate_missing_years_unique (df : DataFrame) :
  unique_keys df -> unique_keys (interpolate_missing_years df).
Proof.
  intros Hu. unfold interpolate_missing_years.
  destruct (flat_map (interpolate_country df) TARGET_COUNTRIES) as [|f fs] eqn:E;
    [exact Hu|].
  rewrite <- E. unfold unique_keys. cbn [rows].
  apply frames_NoDup.
  - apply interpolate_country_rows.
  - intros c. now apply interpolate_country_keys.
  - apply TARGET_COUNTRIES_NoDup.
Qed.

Lemma impute_keys (df : DataFrame) :
  map key (rows (impute_with_commercial_score df)) = map key (rows df).
Proof.
  unfold impute_with_commercial_score.
  destruct (index_of "Commercial_Score" (columns df)) as [ccol|]; [|reflexivity].
  destruct (find_business_col (columns df)) as [b|].
  - rewrite impute_rows_scoped. cbn [rows]. rewrite map_map.
    apply map_ext. intros r. unfold patch_scoped. now rewrite !patch_row_key.
  - unfold assign_column.
    destruct (index_of "Business_AI_Adoption" (columns df)); cbn [rows];
      rewrite map_map; reflexivity.
Qed.

(** C3, as amended.  When every table handed to the merge engine has
    pairwise different (Country, Year) keys, so has the merged table, and
    the interpolator and the imputer keep it so. *)
Theorem panel_keys_unique (df_list : list (string * option DataFrame)) :
  (forall name df, In (name, Some df) df_list -> unique_keys df) ->
  unique_keys (merge_all_data df_list)
  /\ unique_keys (interpolate_missing_years (merge_all_data df_list))
  /\ unique_keys (impute_with_commercial_score
                    (interpolate_missing_years (merge_all_data df_list))).
Proof.
  intros Hin. pose proof (merge_all_data_unique df_list Hin) as Hm.
  pose proof (interpolate_missing_years_unique _ Hm) as Hi.
  repeat split; [exact Hm | exact Hi |].
  unfold unique_keys. rewrite impute_keys. exact Hi.
Qed.

Lemma panel_keys_unique_witness :
  unique_keys (merge_all_data
    [ ("first", Some (mkDF ["A"] [ mkRow "United States" 2020 [Num 1];
                                   mkRow "United States" 2021 [Num 2] ]));
      ("second", Some (mkDF ["B"] [ mkRow "United States" 2020 [Num 9] ])) ]).
Proof.
  refine (proj1 (panel_keys_unique _ _)).
  intros name df [H|[H|[]]]; injection H as _ <-;
    repeat constructor; simpl; intuition discriminate.
Defined.

(** C3 as stated fails: the composite-index adapter returns the key
    (United States, 2024) twice for a source that spells the country in two
    ways, and the merge keeps both rows. *)
Lemma merge_keeps_duplicate_key :
  ~ unique_keys merged_two_spellings.
Proof.
  intros H. vm_compute in H. inversion H as [|? ? Hnotin _]; subst.
  apply Hnotin. now left.
Qed.

(** ** Keys of a [groupby] *)

Section GroupKeys.

Variable A : Type.
Variable cmp : A -> A -> comparison.
Hypothesis cmp_eq : forall x y, cmp x y = Eq -> x = y.
Hypothesis cmp_gt : forall x y, cmp x y = Gt -> cmp y x = Lt.
Hypothesis cmp_trans : forall x y z, cmp x y = Lt -> cmp y z = Lt -> cmp x z = Lt.
Hypothesis cmp_irrefl : forall x, cmp x x <> Lt.

Lemma insert_uniq_In (x y : A) (l : list A) :
  In y (insert_uniq cmp x l) <-> y = x \/ In y l.
Proof.
  induction l as [|h t IH]; simpl; [intuition|].
  destruct (cmp x h) eqn:E; simpl.
  - apply cmp_eq in E. subst h. intuition.
  - intuition.
  - rewrite IH. intuition.
Qed.

Lemma group_keys_In (y : A) (l : list A) : In y (group_keys cmp l) <-> In y l.
Proof.
  induction l as [|x l IH]; simpl; [tauto|].
  rewrite insert_uniq_In, IH. intuition.
Qed.

Lemma insert_uniq_sorted (x : A) (l : list A) :
  StronglySorted (fun a b => cmp a b = Lt) l ->
  StronglySorted (fun a b => cmp a b = Lt) (insert_uniq cmp x l).
Proof.
  induction 1 as [|h t Ht IH Hh]; simpl; [repeat constructor|].
  destruct (cmp x h) eqn:E.
  - now constructor.
  - constructor; [now constructor|].
    constructor; [exact E|].
    eapply Forall_impl; [|exact Hh]. intros z Hz. now apply (cmp_trans x h z).
  - constructor; [exact IH|].
    apply Forall_forall. intros z Hz. apply insert_uniq_In in Hz as [->|Hz].
    + now apply cmp_gt.
    + rewrite Forall_forall in Hh. now apply Hh.
Qed.

Lemma group_keys_sorted (l : list A) :
  StronglySorted (fun a b => cmp a b = Lt) (group_keys cmp l).
Proof.
  induction l as [|x l IH]; simpl; [constructor | now apply insert_uniq_sorted].
Qed.

Lemma group_keys_NoDup (l : list A) : NoDup (group_keys cmp l).
Proof.
  induction (group_keys_sorted l) as [|h t Ht IH Hh]; constructor; [|exact IH].
  intros Hin. rewrite Forall_forall in Hh. apply (cmp_irrefl h). now apply Hh.
Qed.

End GroupKeys.

Lemma string_compare_irrefl (s : string) : String.compare s s <> Lt.
Proof. rewrite string_compare_refl. discriminate. Qed.

Lemma country_keys_NoDup (l : list string) : NoDup (group_keys String.compare l).
Proof.
  apply group_keys_NoDup.
  - exact string_compare_eq.
  - exact string_compare_gt_lt.
  - exact string_compare_lt_trans.
  - exact string_compare_irrefl.
Qed.

Lemma country_keys_In (c : string) (l : list string) :
  In c (group_keys String.compare l) <-> In c l.
Proof. apply group_keys_In. exact string_compare_eq. Qed.

Lemma filter_map_comm {A B : Type} (f : A -> B) (p : B -> bool) (l : list A) :
  filter p (map f l) = map f (filter (fun a => p (f a)) l).
Proof.
  induction l as [|a l IH]; simpl; [reflexivity|].
  destruct (p (f a)); simpl; now rewrite IH.
Qed.

(** ** Fallback year of the compute-capacity and composite-index adapters *)

Section AdapterProperties.

Variable str_of_num : Q -> string.
Variable parse_num : string -> option Q.

Lemma top500_no_year_rows (df : RawTable) (country_col rmax_col : nat) :
  top500_detect (raw_columns df) = mkT5 (Some country_col) None (Some rmax_col) ->
  exists frame,
    top500_body str_of_num parse_num df = Ok frame
    /\ map key (rows frame)
       = map (fun c => (c, 2024))
           (group_keys String.compare
              (map (country_of country_col)
                 (filter_target_countries str_of_num (raw_rows df) country_col)))
    /\ forall r, In r (rows frame) ->
         feats r =
         [ Num (Qsum (numbers
             (map (fun row => to_numeric parse_num (nth rmax_col row NaN))
                (filter (fun row => String.eqb (country_of country_col row) (Country r))
                   (filter_target_countries str_of_num (raw_rows df) country_col))))) ].
Proof.
  intros Hdet. unfold top500_body. rewrite Hdet. cbn [t5_country t5_year t5_rmax].
  set (rs := filter_target_countries str_of_num (raw_rows df) country_col).
  destruct (length rs =? 0)%nat eqn:E.
  - apply Nat.eqb_eq, length_zero_iff_nil in E. rewrite E.
    eexists. split; [reflexivity|]. split; [reflexivity|]. intros r [].
  - eexists. split; [reflexivity|]. cbn [rows]. unfold sum_by_country.
    rewrite !map_map. split.
    + apply map_ext. reflexivity.
    + intros r Hr. apply in_map_iff in Hr as (c & <- & Hc).
      cbn [feats fst snd Country]. unfold agg_sum. do 4 f_equal.
      rewrite filter_map_comm, map_map. reflexivity.
Qed.

Lemma tortoise_no_year_rows (df : RawTable) (r : Row) :
  tr_year (tortoise_detect (raw_columns df)) = None ->
  forall frame, tortoise_body str_of_num parse_num df = Ok frame ->
  In r (rows frame) -> Year r = 2024.
Proof.
  intros Hy frame. unfold tortoise_body. rewrite Hy.
  destruct (tr_country (tortoise_detect (raw_columns df))) as [c|].
  - destruct (length _ =? 0)%nat.
    + intros [= <-] [].
    + intros [= <-] Hr. cbn [rows] in Hr.
      apply in_map_iff in Hr as (row & <- & _). reflexivity.
  - intros [= <-] [].
Qed.

(** C2, as amended.  Without year column the compute-capacity adapter
    returns one row per country, holding the sum of the performance metric
    of the rows of that country, and every row has the year 2024; without
    year column the composite-index adapter gives every row the year 2024
    as well: the two fallback years are the same. *)
Theorem fallback_year_spec (csv xlsx csv' xlsx' : file) (df df' : RawTable)
  (country_col rmax_col : nat) :
  locate csv xlsx = Present (Some df) ->
  top500_detect (raw_columns df) = mkT5 (Some country_col) None (Some rmax_col) ->
  locate csv' xlsx' = Present (Some df') ->
  tr_year (tortoise_detect (raw_columns df')) = None ->
  let rs := filter_target_countries str_of_num (raw_rows df) country_col in
  let top500 := process_top500_compute str_of_num parse_num csv xlsx in
  let tortoise := process_tortoise_index str_of_num parse_num csv' xlsx' in
  (forall r, In r (rows top500) -> Year r = 2024)
  /\ NoDup (map Country (rows top500))
  /\ (forall c, In c (map Country (rows top500))
               <-> exists row, In row rs /\ country_of country_col row = c)
  /\ (forall r, In r (rows top500) ->
        feats r =
        [ Num (Qsum (numbers
            (map (fun row => to_numeric parse_num (nth rmax_col row NaN))
               (filter (fun row => String.eqb (country_of country_col row) (Country r))
                  rs)))) ])
  /\ (forall r, In r (rows tortoise) -> Year r = 2024).
Proof.
  intros Hloc Hdet Hloc' Hyear rs top500 tortoise.
  destruct (top500_no_year_rows df country_col rmax_col Hdet)
    as (frame & Hbody & Hkeys & Hfeats).
  assert (Htop : top500 = frame).
  { unfold top500, process_top500_compute. rewrite Hloc, Hbody. reflexivity. }
  rewrite Htop. fold rs in Hkeys, Hfeats.
  assert (Hcountries : map Country (rows frame)
                       = group_keys String.compare (map (country_of country_col) rs)).
  { replace Country with (fun r => fst (key r)) by reflexivity.
    rewrite <- (map_map key fst), Hkeys, map_map. simpl. apply map_id. }
  split; [|split; [|split; [|split]]].
  - intros r Hr. apply (in_map key) in Hr. rewrite Hkeys in Hr.
    apply in_map_iff in Hr as (c & Hc & _). unfold key in Hc. congruence.
  - rewrite Hcountries. apply country_keys_NoDup.
  - intros c. rewrite Hcountries, country_keys_In, in_map_iff.
    split; intros (row & H1 & H2); exists row; tauto.
  - exact Hfeats.
  - intros r Hr. unfold tortoise, process_tortoise_index in Hr.
    rewrite Hloc' in Hr. unfold try_except in Hr.
    destruct (tortoise_body str_of_num parse_num df') as [frame'|msg] eqn:Hb.
    + now apply (tortoise_no_year_rows df' r Hyear frame').
    + destruct Hr.
Qed.

End AdapterProperties.

Lemma fallback_year_spec_witness :
  rows (process_top500_compute (fun _ => "") (fun _ => None)
          (Present (Some (mkRaw ["Country"; "Rmax"]
                                [ [Str "USA"; Num 5]; [Str "United States"; Num 7];
                                  [Str "Mars"; Num 1] ])))
          Absent)
  = [ mkRow "United States" 2024 [Num 12] ]
  /\ forall r,
       In r (rows (process_tortoise_index (fun _ => "") (fun _ => None)
                     Absent
                     (Present (Some (mkRaw ["Nation"; "Commercial"]
                                           [ [Str "PRC"; Num 3] ]))))) ->
       Year r = 2024.
Proof.
  split; [reflexivity|].
  refine (proj2 (proj2 (proj2 (proj2
    (fallback_year_spec (fun _ => "") (fun _ => None)
       (Present (Some (mkRaw ["Country"; "Rmax"]
                             [ [Str "USA"; Num 5]; [Str "United States"; Num 7];
                               [Str "Mars"; Num 1] ])))
       Absent
       Absent
       (Present (Some (mkRaw ["Nation"; "Commercial"] [ [Str "PRC"; Num 3] ])))
       _ _ 0%nat 1%nat eq_refl eq_refl eq_refl eq_refl))))).
Defined.

(** C2 as stated fails: the fallback year of the composite-index adapter is
    not distinct from the one of the compute-capacity adapter. *)
Lemma fallback_years_coincide :
  ~ (forall r r',
       In r (rows (process_top500_compute (fun _ => "") (fun _ => None)
                     (Present (Some (mkRaw ["Country"; "Rmax"]
                                           [ [Str "USA"; Num 5] ])))
                     Absent)) ->
       In r' (rows (process_tortoise_index (fun _ => "") (fun _ => None)
                      (Present (Some (mkRaw ["Country"; "Commercial"]
                                            [ [Str "China"; Num 3] ])))
                      Absent)) ->
       Year r <> Year r').
Proof.
  intros H.
  apply (H (mkRow "United States" 2024 [Num 5]) (mkRow "China" 2024 [Num 3]));
    [now left | now left | reflexivity].
Qed.

(** ** Pivot tables *)

Lemma pair_compare_eq (a b : string * Z) : pair_compare a b = Eq -> a = b.
Proof.
  destruct a as [s y], b as [t z]. unfold pair_compare; simpl.
  destruct (String.compare s t) eqn:E; try discriminate.
  intros H. apply string_compare_eq in E. apply Z.compare_eq in H. congruence.
Qed.

Lemma pair_compare_gt (a b : string * Z) :
  pair_compare a b = Gt -> pair_compare b a = Lt.
Proof.
  destruct a as [s y], b as [t z]. unfold pair_compare; simpl.
  destruct (String.compare s t) eqn:E; try discriminate.
  - apply string_compare_eq in E. subst t. rewrite string_compare_refl.
    intros H. rewrite Z.compare_gt_iff in H. now rewrite Z.compare_lt_iff.
  - intros _. now rewrite (string_compare_gt_lt _ _ E).
Qed.

Lemma pair_compare_trans (a b c : string * Z) :
  pair_compare a b = Lt -> pair_compare b c = Lt -> pair_compare a c = Lt.
Proof.
  destruct a as [s x], b as [t y], c as [u z]. unfold pair_compare; simpl.
  destruct (String.compare s t) eqn:E1; try discriminate;
    destruct (String.compare t u) eqn:E2; try discriminate; intros H1 H2.
  - apply string_compare_eq in E1, E2. subst. rewrite string_compare_refl.
    rewrite Z.compare_lt_iff in *. lia.
  - apply string_compare_eq in E1. subst. now rewrite E2.
  - apply string_compare_eq in E2. subst. now rewrite E1.
  - now rewrite (string_compare_lt_trans _ _ _ E1 E2).
Qed.

Lemma pair_compare_irrefl (a : string * Z) : pair_compare a a <> Lt.
Proof.
  destruct a as [s y]. unfold pair_compare; simpl.
  rewrite string_compare_refl, Z.compare_refl. discriminate.
Qed.


Lemma pivot_table_cells (agg : list cell -> cell) (tall : list Tall) (r : Row) :
  In r (rows (pivot_table agg tall)) ->
  feats r = map (fun f => agg (group_values tall (key r) f))
                (columns (pivot_table agg tall)).
Proof.
  unfold pivot_table; cbn [rows columns]. intros H.
  apply in_map_iff in H as (k & <- & _). cbn [feats]. unfold key; cbn [Country Year].
  now rewrite <- surjective_pairing.
Qed.

Lemma pivot_table_cell (agg : list cell -> cell) (tall : list Tall) (r : Row)
  (i : nat) (f : string) :
  agg [] = NaN ->
  In r (rows (pivot_table agg tall)) ->
  nth_error (columns (pivot_table agg tall)) i = Some f ->
  cell_at i r = agg (group_values tall (key r) f).
Proof.
  intros Hnil Hr Hf. unfold cell_at. rewrite (pivot_table_cells agg tall r Hr).
  apply nth_error_split in Hf as (l1 & l2 & Hcols & Hlen).
  rewrite Hcols, map_app. simpl.
  rewrite app_nth2 by (rewrite length_map; lia).
  rewrite length_map, Hlen, Nat.sub_diag. reflexivity.
Qed.


(** ** R&D adapter *)

Section OecdProperties.

Variable str_of_num : Q -> string.
Variable parse_num : string -> option Q.





End OecdProperties.



(** ** AI index folder adapter *)

Lemma triple_compare_eq (a b : string * Z * string) :
  triple_compare a b = Eq -> a = b.
Proof.
  destruct a as [k f], b as [k' f']. unfold triple_compare; simpl.
  destruct (pair_compare k k') eqn:E; try discriminate.
  intros H. apply pair_compare_eq in E. apply string_compare_eq in H. congruence.
Qed.

Lemma pair_compare_refl (a : string * Z) : pair_compare a a = Eq.
Proof.
  destruct a as [s y]. unfold pair_compare; simpl.
  now rewrite string_compare_refl, Z.compare_refl.
Qed.

Lemma triple_compare_gt (a b : string * Z * string) :
  triple_compare a b = Gt -> triple_compare b a = Lt.
Proof.
  destruct a as [k f], b as [k' f']. unfold triple_compare; simpl.
  destruct (pair_compare k k') eqn:E; try discriminate.
  - apply pair_compare_eq in E. subst k'. rewrite pair_compare_refl.
    apply string_compare_gt_lt.
  - intros _. now rewrite (pair_compare_gt _ _ E).
Qed.

Lemma triple_compare_trans (a b c : string * Z * string) :
  triple_compare a b = Lt -> triple_compare b c = Lt -> triple_compare a c = Lt.
Proof.
  destruct a as [k f], b as [k' f'], c as [k'' f'']. unfold triple_compare; simpl.
  destruct (pair_compare k k') eqn:E1; try discriminate;
    destruct (pair_compare k' k'') eqn:E2; try discriminate; intros H1 H2.
  - apply pair_compare_eq in E1, E2. subst. rewrite pair_compare_refl.
    eapply string_compare_lt_trans; eassumption.
  - apply pair_compare_eq in E1. subst. now rewrite E2.
  - apply pair_compare_eq in E2. subst. now rewrite E1.
  - now rewrite (pair_compare_trans _ _ _ E1 E2).
Qed.

Lemma triple_compare_irrefl (a : string * Z * string) : triple_compare a a <> Lt.
Proof.
  destruct a as [k f]. unfold triple_compare; simpl.
  rewrite pair_compare_refl. apply string_compare_irrefl.
Qed.

Lemma filter_unique_hit {A : Type} (p : A -> bool) (a : A) (l : list A) :
  (forall x, p x = true <-> x = a) -> NoDup l -> In a l -> filter p l = [a].
Proof.
  intros Hp Hnd. induction Hnd as [|h t Hh Hnd IH]; intros Hin; [destruct Hin|].
  simpl. destruct (p h) eqn:E.
  - apply Hp in E. subst h. f_equal. apply filter_none.
    intros x Hx. destruct (p x) eqn:Ex; [|reflexivity].
    apply Hp in Ex. subst x. contradiction.
  - destruct Hin as [->|Hin]; [|now apply IH].
    assert (p a = true) by now apply Hp. congruence.
Qed.

Lemma filter_unique_miss {A : Type} (p : A -> bool) (a : A) (l : list A) :
  (forall x, p x = true <-> x = a) -> ~ In a l -> filter p l = [].
Proof.
  intros Hp Hnot. apply filter_none. intros x Hx.
  destruct (p x) eqn:E; [|reflexivity]. apply Hp in E. subst x. contradiction.
Qed.

Lemma pair_eqb_eq (a b : string * Z) : pair_eqb a b = true <-> a = b.
Proof.
  destruct a as [s y], b as [t z]. unfold pair_eqb; simpl.
  rewrite andb_true_iff, String.eqb_eq, Z.eqb_eq.
  split; [intros [-> ->]; reflexivity | intros [= -> ->]; auto].
Qed.

Lemma agg_first_max (l : list cell) : agg_first [agg_max l] = agg_max l.
Proof. unfold agg_max. destruct (numbers l); reflexivity. Qed.

(** After [groupby(...).max()] every group has one record: the first
    value of a group is the maximum of the group before. *)
Lemma groupby_max_first (tall : list Tall) (k : string * Z) (f : string) :
  agg_first (group_values (groupby_max tall) k f)
  = agg_max (group_values tall k f).
Proof.
  unfold group_values at 1, groupby_max.
  rewrite filter_map_comm, map_map.
  set (ks := group_keys triple_compare (map (fun t => (t_key t, t_feature t)) tall)).
  assert (Hnd : NoDup ks).
  { apply group_keys_NoDup.
    - exact triple_compare_eq.
    - exact triple_compare_gt.
    - exact triple_compare_trans.
    - exact triple_compare_irrefl. }
  assert (Hdec : forall a b : string * Z * string, {a = b} + {a <> b})
    by (repeat decide equality).
  destruct (in_dec Hdec (k, f) ks) as [Hin|Hnot].
  - rewrite (filter_unique_hit _ (k, f) ks); [| | exact Hnd | exact Hin].
    + simpl. apply agg_first_max.
    + intros [[c y] g]. unfold t_key. simpl.
      rewrite andb_true_iff, pair_eqb_eq, String.eqb_eq.
      split; [intros [<- <-]; reflexivity | intros [= <- <-]; auto].
  - rewrite (filter_unique_miss _ (k, f) ks); [| | exact Hnot].
    + simpl.
      assert (Hnil : group_values tall k f = []).
      { unfold group_values. rewrite filter_none; [reflexivity|].
        intros t Ht.
        destruct (pair_eqb (t_key t) k && String.eqb (t_feature t) f)%bool eqn:E;
          [|reflexivity].
        exfalso. apply Hnot. apply andb_true_iff in E as [E1 E2].
        apply pair_eqb_eq in E1. apply String.eqb_eq in E2. subst k f.
        unfold ks. apply group_keys_In; [exact triple_compare_eq|].
        apply in_map_iff. now exists t. }
      now rewrite Hnil.
    + intros [[c y] g]. unfold t_key. simpl.
      rewrite andb_true_iff, pair_eqb_eq, String.eqb_eq.
      split; [intros [<- <-]; reflexivity | intros [= <- <-]; auto].
Qed.

Lemma in_list_In (x : string) (l : list string) :
  PyStr.in_list x l = true <-> In x l.
Proof.
  unfold PyStr.in_list. rewrite existsb_exists. split.
  - intros (y & Hy & E). apply String.eqb_eq in E. now subst.
  - intros H. exists x. split; [exact H | apply String.eqb_refl].
Qed.

Lemma names_target_iff (std_name : option string) :
  names_target std_name = true
  <-> exists c, std_name = Some c /\ In c TARGET_COUNTRIES.
Proof.
  unfold names_target. destruct std_name as [c|].
  - rewrite andb_true_iff, in_list_In, negb_true_iff. split.
    + intros [_ H]. now exists c.
    + intros (c' & [= <-] & H). split; [|exact H].
      apply String.eqb_neq. intros ->. simpl in H. intuition discriminate.
  - split; [discriminate | intros (c & H & _); discriminate].
Qed.

Lemma Qmaximum_spec (q : Q) (l : list Q) :
  is_maximum (Qmaximum q l) (q :: l).
Proof.
  revert q. induction l as [|p l IH]; intros q; simpl.
  - split; [now left | intros x [<-|[]]; apply Qle_refl].
  - destruct (IH (if Qle_bool q p then p else q)) as [Hin Hmax]. split.
    + destruct Hin as [Hin|Hin]; [|now right; right].
      rewrite <- Hin. destruct (Qle_bool q p); [right; now left | now left].
    + assert (Hq : ((if Qle_bool q p then p else q) <= Qmaximum (if Qle_bool q p then p else q) l)%Q)
        by (apply Hmax; now left).
      intros x [<-|[<-|Hx]].
      * eapply Qle_trans; [|exact Hq].
        destruct (Qle_bool q p) eqn:E; [now apply Qle_bool_iff | apply Qle_refl].
      * eapply Qle_trans; [|exact Hq].
        destruct (Qle_bool q p) eqn:E; [apply Qle_refl|].
        apply Qlt_le_weak, Qnot_le_lt. intros H. apply Qle_bool_iff in H. congruence.
      * apply Hmax. now right.
Qed.

Lemma agg_max_spec (l : list cell) :
  match agg_max l with
  | Num m => is_maximum m (numbers l)
  | _ => numbers l = [] /\ agg_max l = NaN
  end.
Proof.
  unfold agg_max. destruct (numbers l) as [|q qs]; [now split|].
  apply Qmaximum_spec.
Qed.

Lemma In_firstn {A : Type} (n : nat) (l : list A) (x : A) :
  In x (firstn n l) -> In x l.
Proof.
  revert l. induction n as [|n IH]; intros [|a l]; simpl; try tauto.
  intros [H|H]; [now left | right; now apply IH].
Qed.

Section StanfordProperties.

Variable str_of_num : Q -> string.
Variable parse_num : string -> option Q.

Lemma year_cols_nonempty (cols : list string) :
  (0 <? length (year_cols cols))%nat = true
  <-> exists col, In col cols /\ is_year_col col = true.
Proof.
  rewrite Nat.ltb_lt. unfold year_cols, enumerate. split.
  - intros H. destruct (filter _ _) as [|[j c] l] eqn:E; [simpl in H; lia|].
    assert (Hin : In (j, c) (filter (fun jc => is_year_col (snd jc))
                               (combine (seq 0 (length cols)) cols)))
      by (rewrite E; now left).
    apply filter_In in Hin as [Hin Hy]. exists c. split; [|exact Hy].
    now apply in_combine_r in Hin.
  - intros (col & Hin & Hy).
    destruct (In_nth _ _ "" Hin) as (j & Hj & Hnth).
    assert (Hc : In (j, col) (combine (seq 0 (length cols)) cols)).
    { assert (Hn : nth j (combine (seq 0 (length cols)) cols) (O, "") = (j, col)).
      { rewrite combine_nth by apply length_seq.
        now rewrite seq_nth, Hnth by assumption. }
      rewrite <- Hn. apply nth_In. rewrite length_combine, length_seq. lia. }
    assert (Hf : In (j, col) (filter (fun jc => is_year_col (snd jc))
                                (combine (seq 0 (length cols)) cols)))
      by (apply filter_In; now split).
    destruct (filter _ _); [destruct Hf | simpl; lia].
Qed.

Lemma stanford_relevant_iff (df : RawTable) :
  stanford_relevant str_of_num df = true
  <-> (exists col, In col (raw_columns df) /\ PyStr.isdigit col = true
                   /\ 2010 <= PyStr.int col <= 2024)
      /\ (exists v c, In v (first_col_values str_of_num df)
                      /\ standardize_country_name (Some v) = Some c
                      /\ In c TARGET_COUNTRIES).
Proof.
  unfold stanford_relevant, has_country_in_rows.
  rewrite !andb_true_iff, year_cols_nonempty, existsb_exists.
  fold (first_col_values str_of_num df). split.
  - intros [[[[Hc Hr] (v & Hv & Ht)] (col & Hcol & Hy)] _]. split.
    + exists col. unfold is_year_col in Hy.
      rewrite !andb_true_iff, !Z.leb_le in Hy. tauto.
    + apply names_target_iff in Ht as (c & Hs & Hin). now exists v, c.
  - intros [(col & Hcol & Hd & Hlo & Hhi) (v & c & Hv & Hs & Hin)].
    assert (Hrows : (0 < length (raw_rows df))%nat).
    { unfold first_col_values in Hv. apply In_firstn in Hv.
      apply in_map_iff in Hv as (row & _ & Hrow).
      destruct (raw_rows df); [destruct Hrow | simpl; lia]. }
    assert (Hcols : (0 < length (raw_columns df))%nat).
    { destruct (raw_columns df); [destruct Hcol | simpl; lia]. }
    repeat split.
    + now apply Nat.ltb_lt.
    + now apply Nat.ltb_lt.
    + exists v. split; [exact Hv|]. apply names_target_iff. now exists c.
    + exists col. split; [exact Hcol|]. unfold is_year_col.
      rewrite !andb_true_iff, !Z.leb_le. tauto.
    + now apply Nat.ltb_lt.
Qed.

Lemma stanford_cells (files : list (string * result RawTable)) (r : Row)
  (i : nat) (f : string) :
  In r (rows (process_stanford_ai_index str_of_num parse_num (Some files))) ->
  nth_error (columns (process_stanford_ai_index str_of_num parse_num (Some files))) i
  = Some f ->
  cell_at i r
  = agg_max (group_values (stanford_combined str_of_num parse_num files) (key r) f).
Proof.
  unfold process_stanford_ai_index, try_except.
  destruct (stanford_combined str_of_num parse_num files) as [|t ts] eqn:E;
    [intros []|].
  intros Hr Hf.
  rewrite (pivot_table_cell agg_first _ r i f eq_refl Hr Hf).
  apply groupby_max_first.
Qed.

(** C8, as amended.  A file of the folder is relevant exactly when one of
    its column names consists of digits and denotes a number between 2010
    and 2024, and one of the first 20 values of its first column normalizes
    to a canonical country; the value the adapter returns for a (Country,
    Year) and a feature is the greatest of the values the relevant files
    contribute to it, not their sum (3 and 5 give 5). *)
Theorem stanford_relevance_and_max (df : RawTable)
  (files : list (string * result RawTable)) :
  (stanford_relevant str_of_num df = true
   <-> (exists col, In col (raw_columns df) /\ PyStr.isdigit col = true
                    /\ 2010 <= PyStr.int col <= 2024)
       /\ (exists v c, In v (first_col_values str_of_num df)
                       /\ standardize_country_name (Some v) = Some c
                       /\ In c TARGET_COUNTRIES))
  /\ (forall r i f,
        In r (rows (process_stanford_ai_index str_of_num parse_num (Some files))) ->
        nth_error
          (columns (process_stanford_ai_index str_of_num parse_num (Some files))) i
        = Some f ->
        match cell_at i r with
        | Num m =>
            is_maximum m
              (numbers (group_values (stanford_combined str_of_num parse_num files)
                                     (key r) f))
        | _ =>
            numbers (group_values (stanford_combined str_of_num parse_num files)
                                  (key r) f) = []
            /\ cell_at i r = NaN
        end)
  /\ process_stanford_ai_index str_of_num parse_num
       (Some [ ("patents_granted.csv",
                Ok (mkRaw ["Country"; "2015"] [ [Str "China"; Num 3] ]));
               ("patents_filed.csv",
                Ok (mkRaw ["Country"; "2015"] [ [Str "PRC"; Num 5] ])) ])
     = mkDF ["AI_Patents"] [ mkRow "China" 2015 [Num 5] ].
Proof.
  split; [apply stanford_relevant_iff|]. split; [|reflexivity].
  intros r i f Hr Hf. rewrite (stanford_cells files r i f Hr Hf).
  apply agg_max_spec.
Qed.

End StanfordProperties.

Lemma stanford_relevance_and_max_witness :
  cell_at 0 (mkRow "China" 2015 [Num 5]) = Num 5
  /\ is_maximum 5
       (numbers (group_values
          (stanford_combined (fun _ => "") (fun _ => None)
             [ ("patents_granted.csv",
                Ok (mkRaw ["Country"; "2015"] [ [Str "China"; Num 3] ]));
               ("patents_filed.csv",
                Ok (mkRaw ["Country"; "2015"] [ [Str "PRC"; Num 5] ])) ])
          ("China", 2015) "AI_Patents")).
Proof.
  split; [reflexivity|].
  exact (proj1 (proj2 (stanford_relevance_and_max (fun _ => "") (fun _ => None)
           (mkRaw [] [])
           [ ("patents_granted.csv",
              Ok (mkRaw ["Country"; "2015"] [ [Str "China"; Num 3] ]));
             ("patents_filed.csv",
              Ok (mkRaw ["Country"; "2015"] [ [Str "PRC"; Num 5] ])) ]))
           (mkRow "China" 2015 [Num 5]) 0%nat "AI_Patents"
           (or_introl eq_refl) eq_refl).
Defined.

(** C8 as stated fails on a column called 02015: the file is relevant, and
    none of its column names is a 4-digit year string. *)
Lemma stanford_five_digit_year_column :
  ~ (stanford_relevant (fun _ => "")
       (mkRaw ["Country"; "02015"] [ [Str "China"; Num 1] ]) = true
     <-> (exists col, In col ["Country"; "02015"] /\ four_digit_year col = true)
         /\ (exists v c,
               In v (first_col_values (fun _ => "")
                       (mkRaw ["Country"; "02015"] [ [Str "China"; Num 1] ]))
               /\ standardize_country_name (Some v) = Some c
               /\ In c TARGET_COUNTRIES)).
Proof.
  intros [H _]. destruct (H eq_refl) as [(col & Hin & Hy) _].
  destruct Hin as [<-|[<-|[]]]; discriminate Hy.
Qed.

(** ** Failures of the adapters and the empty run *)

Section FailureProperties.

Variable str_of_num : Q -> string.
Variable parse_num : string -> option Q.











End FailureProperties.



(** * Further properties of the pipeline *)

(** ** The normalizer: range, fixed points, white space *)

Lemma dict_get_value (d : list (string * string)) (k v : string) :
  dict_get d k = Some v -> In v (map snd d).
Proof.
  induction d as [|[k' v'] d IH]; simpl; [discriminate|].
  destruct (String.eqb k k'); [intros [= <-]; now left | intros H; right; auto].
Qed.

Lemma fuzzy_match_value (items : list (string * string)) (name v : string) :
  fuzzy_match items name = Some v -> In v (map snd items).
Proof.
  induction items as [|[variant standard] items IH]; simpl; [discriminate|].
  destruct (_ || _)%bool; [intros [= <-]; now left | intros H; right; auto].
Qed.

Lemma mapping_values_canonical :
  Forall (fun v => In v TARGET_COUNTRIES) (map snd COUNTRY_NAME_MAPPING).
Proof.
  repeat (constructor; [simpl; tauto|]). constructor.
Qed.

Lemma standardize_canonical (c : string) :
  In c TARGET_COUNTRIES -> standardize_country_name (Some c) = Some c.
Proof.
  intros H. simpl in H.
  repeat (destruct H as [<-|H]; [reflexivity|]). destruct H.
Qed.

Lemma standardize_range (raw_name : option string) (c : string) :
  standardize_country_name raw_name = Some c -> In c TARGET_COUNTRIES.
Proof.
  destruct raw_name as [raw|]; [|discriminate]. unfold standardize_country_name.
  destruct (PyStr.in_list (PyStr.strip raw) TARGET_COUNTRIES) eqn:E.
  - intros [= <-]. now apply in_list_In.
  - pose proof mapping_values_canonical as Hall. rewrite Forall_forall in Hall.
    destruct (dict_get COUNTRY_NAME_MAPPING (PyStr.strip raw)) as [v|] eqn:D.
    + intros [= <-]. apply Hall. eapply dict_get_value; eassumption.
    + intros H. apply Hall. eapply fuzzy_match_value; eassumption.
Qed.

(** X1.  Whatever the input, the normalizer answers None or one of the ten
    canonical countries: every value of the alias table is canonical. *)
Theorem standardize_country_name_range (raw_name : option string) (c : string) :
  standardize_country_name raw_name = Some c -> In c TARGET_COUNTRIES.
Proof. apply standardize_range. Qed.

Lemma standardize_country_name_range_witness :
  standardize_country_name (Some "Republic of Korea (South)") = Some "South Korea"
  /\ In "South Korea" TARGET_COUNTRIES.
Proof.
  split; [reflexivity|].
  apply (standardize_country_name_range (Some "Republic of Korea (South)")).
  reflexivity.
Defined.

(** X2.  A name the normalizer returns is a fixed point of the normalizer:
    normalizing twice is normalizing once. *)
Theorem standardize_country_name_idempotent (raw_name : option string) (c : string) :
  standardize_country_name raw_name = Some c ->
  standardize_country_name (Some c) = Some c.
Proof.
  intros H. apply standardize_canonical. now apply (standardize_range raw_name).
Qed.

Lemma standardize_country_name_idempotent_witness :
  standardize_country_name (Some " u.s. ") = Some "United States"
  /\ standardize_country_name (Some "United States") = Some "United States".
Proof.
  split; [reflexivity|].
  apply (standardize_country_name_idempotent (Some " u.s. ")). reflexivity.
Defined.

Lemma rstrip_idempotent (s : string) : PyStr.rstrip (PyStr.rstrip s) = PyStr.rstrip s.
Proof.
  induction s as [|c s IH]; simpl; [reflexivity|].
  destruct (PyStr.rstrip s) as [|a r] eqn:E.
  - destruct (PyStr.isspace c) eqn:W; simpl; [reflexivity | now rewrite W].
  - simpl in *. now rewrite IH.
Qed.

Lemma lstrip_head (s : string) :
  match PyStr.lstrip s with
  | EmptyString => True
  | String c _ => PyStr.isspace c = false
  end.
Proof.
  induction s as [|c s IH]; simpl; [exact I|].
  destruct (PyStr.isspace c) eqn:W; [exact IH | exact W].
Qed.

Lemma lstrip_rstrip (t : string) :
  match t with
  | EmptyString => True
  | String c _ => PyStr.isspace c = false
  end ->
  PyStr.lstrip (PyStr.rstrip t) = PyStr.rstrip t.
Proof.
  destruct t as [|c t]; simpl; [reflexivity|]. intros W.
  destruct (PyStr.rstrip t); rewrite ?W; simpl; now rewrite W.
Qed.

Lemma strip_idempotent (s : string) : PyStr.strip (PyStr.strip s) = PyStr.strip s.
Proof.
  unfold PyStr.strip. rewrite lstrip_rstrip by apply lstrip_head.
  apply rstrip_idempotent.
Qed.

(** X3.  White space around the name never matters: the normalizer gives
    the same answer for a name and for the name already trimmed. *)
Theorem standardize_country_name_trimmed (raw : string) :
  standardize_country_name (Some (PyStr.strip raw))
  = standardize_country_name (Some raw).
Proof.
  unfold standardize_country_name. now rewrite strip_idempotent.
Qed.

Lemma prefix_refl (s : string) : String.prefix s s = true.
Proof.
  induction s as [|c s IH]; simpl; [reflexivity|].
  destruct (Ascii.ascii_dec c c) as [_|H]; [exact IH | congruence].
Qed.

Lemma contains_refl (s : string) : PyStr.contains s s = true.
Proof.
  pose proof (prefix_refl s) as H.
  destruct s; unfold PyStr.contains; fold PyStr.contains; now rewrite H.
Qed.

Lemma dict_get_none (d : list (string * string)) (k : string) :
  dict_get d k = None <-> forall entry, In entry d -> fst entry <> k.
Proof.
  induction d as [|[k' v] d IH]; simpl; [intuition|].
  destruct (String.eqb_spec k k') as [->|Hne].
  - split; [discriminate|]. intros H. exfalso. apply (H (k', v)); auto.
  - rewrite IH. split.
    + intros H entry [<-|Hin]; [simpl; congruence | now apply H].
    + intros H entry Hin. apply H. now right.
Qed.

Lemma fuzzy_match_none (items : list (string * string)) (name : string) :
  fuzzy_match items name = None
  <-> forall entry, In entry items -> alias_matches name entry = false.
Proof.
  rewrite fuzzy_match_find.
  destruct (find (alias_matches name) items) as [e|] eqn:F; simpl.
  - split; [discriminate|]. intros H. apply find_some in F as [Hin Hm].
    rewrite (H e Hin) in Hm. discriminate.
  - split; [|reflexivity]. intros _ entry Hin.
    now apply (find_none _ _ F).
Qed.

(** X4.  The normalizer rejects a name exactly when the trimmed name is not
    canonical and no alias matches it as a substring in either direction,
    whatever the case: a name that merely contains an alias, or is
    contained in one, is accepted. *)
Theorem standardize_country_name_none (raw : string) :
  standardize_country_name (Some raw) = None
  <-> ~ In (PyStr.strip raw) TARGET_COUNTRIES
      /\ forall entry, In entry COUNTRY_NAME_MAPPING ->
                       alias_matches (PyStr.strip raw) entry = false.
Proof.
  unfold standardize_country_name.
  destruct (PyStr.in_list (PyStr.strip raw) TARGET_COUNTRIES) eqn:E.
  - split; [discriminate|]. intros [H _]. exfalso. apply H. now apply in_list_In.
  - assert (Hnot : ~ In (PyStr.strip raw) TARGET_COUNTRIES).
    { intros H. apply in_list_In in H. congruence. }
    destruct (dict_get COUNTRY_NAME_MAPPING (PyStr.strip raw)) as [v|] eqn:D.
    + split; [discriminate|]. intros [_ H]. exfalso.
      assert (Hd : dict_get COUNTRY_NAME_MAPPING (PyStr.strip raw) <> None)
        by congruence.
      apply Hd. apply dict_get_none. intros entry Hin Heq.
      specialize (H entry Hin). unfold alias_matches in H.
      rewrite Heq, contains_refl in H. discriminate.
    + rewrite fuzzy_match_none. tauto.
Qed.

(** ** The country filter *)

Lemma set_nth_same (j : nat) (l : list cell) : set_nth j (nth j l NaN) l = l.
Proof.
  revert j. induction l as [|c l IH]; intros [|j]; simpl; try reflexivity.
  now rewrite IH.
Qed.

Lemma set_nth_overflow (j : nat) (v : cell) (l : list cell) :
  (length l <= j)%nat -> set_nth j v l = l.
Proof.
  revert j. induction l as [|c l IH]; intros [|j] H; simpl in *; try reflexivity;
    try lia.
  rewrite IH by lia. reflexivity.
Qed.

Lemma is_target_iff (c : cell) :
  is_target c = true <-> exists s, c = Str s /\ In s TARGET_COUNTRIES.
Proof.
  destruct c as [q|s|]; unfold is_target.
  - split; [discriminate | intros (s & H & _); discriminate].
  - rewrite in_list_In. split; [intros H; now exists s | intros (t & [= ->] & H); exact H].
  - split; [discriminate | intros (s & H & _); discriminate].
Qed.

Section FilterProperties.

Variable str_of_num : Q -> string.

Lemma normalize_cell_range (c : cell) (name : string) :
  normalize_cell str_of_num c = Some name -> In name TARGET_COUNTRIES.
Proof.
  destruct c as [q|s|]; unfold normalize_cell; apply standardize_range.
Qed.

Lemma filter_target_countries_In (rs : list (list cell)) (j : nat) (row : list cell) :
  In row (filter_target_countries str_of_num rs j)
  <-> exists row0 c,
        In row0 rs /\ (j < length row0)%nat
        /\ normalize_cell str_of_num (nth j row0 NaN) = Some c
        /\ row = set_nth j (Str c) row0.
Proof.
  unfold filter_target_countries. rewrite filter_In, in_map_iff. split.
  - intros [(row0 & <- & Hin) Ht].
    destruct (Nat.lt_ge_cases j (length row0)) as [Hj|Hj].
    + rewrite nth_set_nth_same in Ht by assumption.
      destruct (normalize_cell str_of_num (nth j row0 NaN)) as [c|] eqn:N;
        [|discriminate].
      exists row0, c. auto.
    + rewrite set_nth_overflow in Ht by assumption.
      rewrite nth_overflow in Ht by assumption. discriminate.
  - intros (row0 & c & Hin & Hj & Hn & ->). split.
    + exists row0. rewrite Hn. auto.
    + rewrite nth_set_nth_same by assumption.
      apply is_target_iff. exists c. split; [reflexivity|].
      now apply (normalize_cell_range (nth j row0 NaN)).
Qed.

Lemma filter_target_countries_cell (rs : list (list cell)) (j : nat) (row : list cell) :
  In row (filter_target_countries str_of_num rs j) ->
  In (country_of j row) TARGET_COUNTRIES
  /\ nth j row NaN = Str (country_of j row).
Proof.
  intros H. apply filter_target_countries_In in H as (row0 & c & _ & Hj & Hn & ->).
  unfold country_of. rewrite nth_set_nth_same by assumption.
  split; [now apply (normalize_cell_range (nth j row0 NaN)) | reflexivity].
Qed.

(** X5.  The country filter keeps exactly the rows whose country cell
    normalizes, with the canonical name written into that cell and the other
    cells as they were; the country of a row it returns is canonical, and it
    returns no more rows than it was given. *)
Theorem filter_target_countries_spec (rs : list (list cell)) (j : nat) :
  (forall row,
     In row (filter_target_countries str_of_num rs j)
     <-> exists row0 c,
           In row0 rs /\ (j < length row0)%nat
           /\ normalize_cell str_of_num (nth j row0 NaN) = Some c
           /\ row = set_nth j (Str c) row0)
  /\ Forall (fun row => exists c, nth j row NaN = Str c /\ In c TARGET_COUNTRIES)
            (filter_target_countries str_of_num rs j)
  /\ (length (filter_target_countries str_of_num rs j) <= length rs)%nat.
Proof.
  split; [intros row; apply filter_target_countries_In|]. split.
  - apply Forall_forall. intros row H.
    apply filter_target_countries_cell in H as [H1 H2].
    exists (country_of j row). auto.
  - unfold filter_target_countries.
    eapply Nat.le_trans; [apply filter_length_le|]. now rewrite length_map.
Qed.

Lemma filter_target_countries_fixed (rs : list (list cell)) (j : nat) :
  filter_target_countries str_of_num (filter_target_countries str_of_num rs j) j
  = filter_target_countries str_of_num rs j.
Proof.
  set (out := filter_target_countries str_of_num rs j).
  unfold filter_target_countries at 1.
  assert (Hfix : forall row, In row out ->
             set_nth j (cell_of_name (normalize_cell str_of_num (nth j row NaN))) row
             = row /\ is_target (nth j row NaN) = true).
  { intros row H. apply filter_target_countries_cell in H as [Hc Hn].
    rewrite Hn. unfold normalize_cell.
    rewrite (standardize_canonical _ Hc). unfold cell_of_name.
    rewrite <- Hn at 1. rewrite set_nth_same. split; [reflexivity|].
    unfold is_target. now apply in_list_In. }
  rewrite (map_ext_in _ (fun row => row)) by (intros row H; now apply Hfix).
  rewrite map_id. apply filter_all. intros row H. now apply Hfix.
Qed.

(** X6.  Filtering twice on the same country column is filtering once. *)
Theorem filter_target_countries_idempotent (rs : list (list cell)) (j : nat) :
  filter_target_countries str_of_num (filter_target_countries str_of_num rs j) j
  = filter_target_countries str_of_num rs j.
Proof. apply filter_target_countries_fixed. Qed.

End FilterProperties.

(** ** The merge engine: shape of the rows, keys, partners *)

Lemma pd_merge_outer_wf (left right : DataFrame) :
  wf_frame left -> wf_frame right -> wf_frame (pd_merge_outer left right).
Proof.
  unfold wf_frame, pd_merge_outer. cbn [rows columns]. intros Hl Hr.
  rewrite Forall_forall in Hl, Hr.
  rewrite length_app, !length_map. apply Forall_forall. intros x Hx.
  apply in_app_iff in Hx as [Hx|Hx]; apply in_flat_map in Hx as (y & Hy & Hx).
  - unfold merge_left_row in Hx.
    destruct (filter (key_eqb y) (rows right)) as [|m ms] eqn:F.
    + destruct Hx as [<-|[]]. cbn [feats].
      rewrite length_app. unfold nan_cells. rewrite repeat_length.
      now rewrite (Hl y Hy).
    + apply in_map_iff in Hx as (r & <- & Hin). cbn [feats].
      assert (Hr' : In r (rows right)).
      { rewrite <- F in Hin. now apply filter_In in Hin. }
      rewrite length_app. now rewrite (Hl y Hy), (Hr r Hr').
  - unfold right_only in Hx. destruct (existsb _ (rows left)); [destruct Hx|].
    destruct Hx as [<-|[]]. cbn [feats].
    rewrite length_app. unfold nan_cells. rewrite repeat_length.
    now rewrite (Hr y Hy).
Qed.

Lemma merge_fold_wf (df_list : list (string * option DataFrame))
  (acc : option DataFrame) :
  (forall name df, In (name, Some df) df_list -> wf_frame df) ->
  (forall m, acc = Some m -> wf_frame m) ->
  forall m, fold_left merge_step df_list acc = Some m -> wf_frame m.
Proof.
  revert acc. induction df_list as [|[name [df|]] df_list IH];
    intros acc Hin Hacc m; simpl.
  - apply Hacc.
  - apply IH.
    + intros n d H. apply (Hin n). now right.
    + unfold merge_step; simpl. intros m'.
      assert (Hdf : wf_frame df) by (apply (Hin name); now left).
      destruct (0 <? len df); [|apply Hacc].
      destruct acc as [a|]; intros [= <-]; [|exact Hdf].
      apply pd_merge_outer_wf; [now apply Hacc | exact Hdf].
  - apply IH; [|exact Hacc]. intros n d H. apply (Hin n). now right.
Qed.

Lemma sort_values_wf (df : DataFrame) : wf_frame df -> wf_frame (sort_values df).
Proof.
  unfold wf_frame, sort_values. cbn [rows columns]. intros H.
  eapply Permutation_Forall; [symmetry; apply sort_rows_perm | exact H].
Qed.

Lemma merge_all_data_wf (df_list : list (string * option DataFrame)) :
  (forall name df, In (name, Some df) df_list -> wf_frame df) ->
  wf_frame (merge_all_data df_list).
Proof.
  intros Hin. unfold merge_all_data.
  destruct (fold_left merge_step df_list None) as [m|] eqn:E; [|constructor].
  destruct (len m =? 0); [constructor|].
  apply sort_values_wf.
  apply (merge_fold_wf df_list None Hin); [discriminate | exact E].
Qed.

(** X7.  The merge keeps tables rectangular: when every input table has
    one cell per feature column in every row, so has the merged table. *)
Theorem merge_all_data_rectangular (df_list : list (string * option DataFrame)) :
  (forall name df, In (name, Some df) df_list -> wf_frame df) ->
  wf_frame (merge_all_data df_list).
Proof. apply merge_all_data_wf. Qed.

Lemma merge_all_data_rectangular_witness :
  wf_frame (merge_all_data
    [ ("first", Some (mkDF ["A"] [ mkRow "China" 2020 [Num 1] ]));
      ("second", None);
      ("third", Some (mkDF ["B"; "C"] [ mkRow "India" 2021 [Num 2; NaN] ])) ]).
Proof.
  apply merge_all_data_rectangular.
  intros name df [H|[H|[H|[]]]]; try discriminate H; injection H as _ <-;
    repeat constructor.
Defined.

Lemma filter_key_find (l : Row) (right : list Row) :
  NoDup (map key right) ->
  filter (key_eqb l) right
  = match find (key_eqb l) right with Some r => [r] | None => [] end.
Proof.
  induction right as [|h t IH]; simpl; [reflexivity|].
  intros Hnd. inversion Hnd as [|? ? Hh Ht]; subst.
  destruct (key_eqb l h) eqn:E; [|now apply IH].
  f_equal. apply filter_none. intros x Hx.
  destruct (key_eqb l x) eqn:Ex; [|reflexivity].
  apply key_eqb_eq in E, Ex. exfalso. apply Hh.
  rewrite <- E, Ex. now apply in_map.
Qed.

Lemma right_only_filter (left : DataFrame) (right : list Row) :
  flat_map (right_only (length (columns left)) (rows left)) right
  = map (padded_row left) (filter (unmatched left) right).
Proof.
  induction right as [|r right IH]; simpl; [reflexivity|].
  unfold right_only at 1, unmatched at 1.
  destruct (existsb (fun l => key_eqb l r) (rows left)); simpl; now rewrite IH.
Qed.

Lemma merge_rows_unique (left right : DataFrame) :
  unique_keys right ->
  rows (pd_merge_outer left right)
  = (map (joined_row right) (rows left)
     ++ map (padded_row left) (filter (unmatched left) (rows right)))%list.
Proof.
  intros Hu. unfold pd_merge_outer. cbn [rows]. f_equal.
  - apply flat_map_single. intros l _. unfold merge_left_row, joined_row.
    rewrite (filter_key_find l (rows right) Hu).
    destruct (find (key_eqb l) (rows right)); reflexivity.
  - apply right_only_filter.
Qed.

(** X8.  When the keys of the right table are pairwise different, the outer
    join returns one row per left row, holding the cells of the left row
    followed by the cells of its partner or by missing values, and then one
    row per right row without partner, its cells after missing values: no
    row is lost and none is repeated. *)
Theorem pd_merge_outer_rows (left right : DataFrame) :
  unique_keys right ->
  rows (pd_merge_outer left right)
  = (map (joined_row right) (rows left)
     ++ map (padded_row left) (filter (unmatched left) (rows right)))%list.
Proof. apply merge_rows_unique. Qed.

Lemma pd_merge_outer_rows_witness :
  rows (pd_merge_outer
          (mkDF ["A"] [ mkRow "China" 2020 [Num 1]; mkRow "China" 2021 [Num 2] ])
          (mkDF ["B"] [ mkRow "China" 2021 [Num 9]; mkRow "India" 2021 [Num 7] ]))
  = [ mkRow "China" 2020 [Num 1; NaN]; mkRow "China" 2021 [Num 2; Num 9];
      mkRow "India" 2021 [NaN; Num 7] ].
Proof.
  rewrite (pd_merge_outer_rows
             (mkDF ["A"] [ mkRow "China" 2020 [Num 1]; mkRow "China" 2021 [Num 2] ])
             (mkDF ["B"] [ mkRow "China" 2021 [Num 9]; mkRow "India" 2021 [Num 7] ])).
  - reflexivity.
  - repeat constructor; simpl; intuition discriminate.
Defined.

Lemma merge_fold_keys (df_list : list (string * option DataFrame))
  (acc : option DataFrame) (m : DataFrame) (k : string * Z) :
  fold_left merge_step df_list acc = Some m ->
  (In k (keys m)
   <-> (exists a, acc = Some a /\ In k (keys a))
       \/ exists name df, In (name, Some df) df_list /\ In k (keys df)).
Proof.
  revert acc. induction df_list as [|[name o] df_list IH]; intros acc; simpl.
  - intros ->. split.
    + intros Hkk. left. now exists m.
    + intros [(a & [= <-] & Hkk)|(n & d & [] & _)]. exact Hkk.
  - intros Hfold. rewrite (IH _ Hfold). clear IH Hfold.
    unfold merge_step; simpl. destruct o as [df|].
    + destruct (0 <? len df) eqn:L.
      * destruct acc as [a|].
        -- split.
           ++ intros [(x & [= <-] & Hkk)|(n & d & Hin & Hkk)].
              ** apply pd_merge_outer_keys in Hkk as [Hkk|Hkk].
                 --- left. now exists a.
                 --- right. exists name, df. auto.
              ** right. exists n, d. auto.
           ++ intros [(x & [= <-] & Hkk)|(n & d & [[= <- <-]|Hin] & Hkk)].
              ** left. eexists. split; [reflexivity|].
                 apply pd_merge_outer_keys. now left.
              ** left. eexists. split; [reflexivity|].
                 apply pd_merge_outer_keys. now right.
              ** right. exists n, d. auto.
        -- split.
           ++ intros [(x & [= <-] & Hkk)|(n & d & Hin & Hkk)].
              ** right. exists name, df. auto.
              ** right. exists n, d. auto.
           ++ intros [(x & Hx & _)|(n & d & [[= <- <-]|Hin] & Hkk)];
                [discriminate | |].
              ** left. now exists df.
              ** right. exists n, d. auto.
      * assert (Hnil : keys df = []).
        { unfold keys. unfold len in L. destruct (rows df); [reflexivity|].
          simpl in L. discriminate. }
        split.
        -- intros [Hkk|(n & d & Hin & Hkk)]; [now left | right; exists n, d; auto].
        -- intros [Hkk|(n & d & [[= <- <-]|Hin] & Hkk)]; [now left | |].
           ++ rewrite Hnil in Hkk. destruct Hkk.
           ++ right. exists n, d. auto.
    + split.
      * intros [Hkk|(n & d & Hin & Hkk)]; [now left | right; exists n, d; auto].
      * intros [Hkk|(n & d & [Hd|Hin] & Hkk)]; [now left | discriminate | ].
        right. exists n, d. auto.
Qed.

Lemma merge_fold_some (df_list : list (string * option DataFrame)) (a : DataFrame) :
  exists m, fold_left merge_step df_list (Some a) = Some m.
Proof.
  revert a. induction df_list as [|[n o] df_list IH]; intros a; simpl;
    [now exists a|].
  unfold merge_step at 2; simpl. destruct o as [d|]; [|apply IH].
  destruct (0 <? len d); apply IH.
Qed.

Lemma merge_fold_none (df_list : list (string * option DataFrame)) :
  fold_left merge_step df_list None = None ->
  forall name df, In (name, Some df) df_list -> rows df = [].
Proof.
  induction df_list as [|[n o] df_list IH]; simpl; [intros _ ? ? []|].
  unfold merge_step at 2; simpl. destruct o as [d|].
  - destruct (0 <? len d) eqn:L.
    + intros Hf. destruct (merge_fold_some df_list d) as (m & Hm). congruence.
    + intros Hf name df [Heq|Hin]; [|now apply (IH Hf name)].
      injection Heq as _ <-.
      unfold len in L. destruct (rows d); [reflexivity | simpl in L; discriminate].
  - intros Hf name df [Hd|Hin]; [discriminate | now apply (IH Hf name)].
Qed.

Lemma merge_all_data_keys_iff (df_list : list (string * option DataFrame))
  (k : string * Z) :
  In k (keys (merge_all_data df_list))
  <-> exists name df, In (name, Some df) df_list /\ In k (keys df).
Proof.
  unfold merge_all_data.
  destruct (fold_left merge_step df_list None) as [m|] eqn:E.
  - pose proof (merge_fold_keys df_list None m k E) as Hk.
    assert (Hk' : In k (keys m)
                  <-> exists name df, In (name, Some df) df_list /\ In k (keys df)).
    { rewrite Hk. split; [intros [(a & Ha & _)|H]; [discriminate | exact H]
                        | intros H; now right]. }
    destruct (len m =? 0) eqn:L.
    + rewrite <- Hk'. unfold keys at 1. simpl.
      unfold len in L. apply Z.eqb_eq in L.
      unfold keys. destruct (rows m); [tauto | simpl in L; lia].
    + rewrite <- Hk'. unfold keys, sort_values. cbn [rows]. split; intros H.
      * eapply Permutation_in; [apply Permutation_map, sort_rows_perm | exact H].
      * eapply Permutation_in;
          [apply Permutation_map; symmetry; apply sort_rows_perm | exact H].
  - unfold keys at 1. simpl. split; [tauto|].
    intros (name & df & Hin & H). unfold keys in H.
    rewrite (merge_fold_none df_list E name df Hin) in H. destruct H.
Qed.

(** X9.  A (Country, Year) key is in the merged table exactly when it is in
    one of the input tables: the merge loses no key and invents none, and
    the tables without row contribute nothing. *)
Theorem merge_all_data_keys (df_list : list (string * option DataFrame))
  (k : string * Z) :
  In k (keys (merge_all_data df_list))
  <-> exists name df, In (name, Some df) df_list /\ In k (keys df).
Proof. apply merge_all_data_keys_iff. Qed.

(** ** The interpolator: shape, countries, bounds *)

Lemma year_rows_wf (df : DataFrame) (country : string) (df_country : list Row)
  (y : Z) (r : Row) :
  (forall x, In x df_country -> length (feats x) = length (columns df)) ->
  In r (year_rows (length (columns df)) country df_country y) ->
  length (feats r) = length (columns df).
Proof.
  intros Hwf. unfold year_rows.
  destruct (filter (fun r => Year r =? y) df_country) as [|m ms] eqn:F.
  - intros [<-|[]]. apply repeat_length.
  - intros H. apply in_map_iff in H as (x & <- & Hx). cbn [feats].
    apply Hwf. rewrite <- F in Hx. now apply filter_In in Hx.
Qed.

Lemma year_rows_nonempty (ncols : nat) (country : string) (df_country : list Row)
  (y : Z) :
  year_rows ncols country df_country y <> [].
Proof.
  unfold year_rows. destruct (filter _ df_country); discriminate.
Qed.

(** The frame of a country before the loop over the numeric columns. *)
Lemma interpolate_country_cases (df : DataFrame) (country : string) :
  (rows_of country df = [] /\ interpolate_country df country = [])
  \/ exists r0 rest,
       rows_of country df = r0 :: rest
       /\ interpolate_country df country
          = [ fold_left (fun rs col => set_col col (interpolate (get_col col rs)) rs)
                (numeric_cols df)
                (flat_map (year_rows (length (columns df)) country (r0 :: rest))
                   (range (min_year (r0 :: rest) (Year r0))
                          (max_year (r0 :: rest) (Year r0) + 1))) ].
Proof.
  unfold interpolate_country, rows_of.
  destruct (filter _ (rows df)) as [|r0 rest]; [now left|].
  right. now exists r0, rest.
Qed.

Lemma interpolate_country_wf (df : DataFrame) (country : string) (r : Row) :
  wf_frame df ->
  In r (concat (interpolate_country df country)) ->
  length (feats r) = length (columns df).
Proof.
  intros Hwf. unfold wf_frame in Hwf. rewrite Forall_forall in Hwf.
  destruct (interpolate_country_cases df country)
    as [[_ ->]|(r0 & rest & Hrows & ->)]; [intros []|].
  cbn [concat]. rewrite app_nil_r. revert r. apply Forall_forall.
  apply interpolate_cols_wf. apply Forall_forall. intros x Hx.
  apply in_flat_map in Hx as (y & _ & Hx).
  apply (year_rows_wf df country (r0 :: rest) y); [|exact Hx].
  intros z Hz. apply Hwf. rewrite <- Hrows in Hz.
  now apply rows_of_country in Hz.
Qed.

Lemma interpolate_wf (df : DataFrame) :
  wf_frame df -> wf_frame (interpolate_missing_years df).
Proof.
  intros Hwf. unfold interpolate_missing_years.
  destruct (flat_map (interpolate_country df) TARGET_COUNTRIES) as [|f fs] eqn:E;
    [exact Hwf|].
  rewrite <- E. unfold wf_frame. cbn [rows columns]. apply Forall_forall.
  intros r Hr. rewrite flat_map_concat_map in Hr.
  apply in_concat in Hr as (frame & Hf & Hr).
  apply in_concat in Hf as (frames & Hfs & Hf).
  apply in_map_iff in Hfs as (c & <- & _).
  apply (interpolate_country_wf df c r Hwf).
  apply in_concat. exists frame. split; assumption.
Qed.

Lemma interpolate_columns (df : DataFrame) :
  columns (interpolate_missing_years df) = columns df.
Proof.
  unfold interpolate_missing_years.
  destruct (flat_map (interpolate_country df) TARGET_COUNTRIES); reflexivity.
Qed.

(** X10.  The interpolator keeps the feature columns of the table, and a
    rectangular table stays rectangular: the rows it adds for the missing
    years have one cell per feature column. *)
Theorem interpolate_missing_years_rectangular (df : DataFrame) :
  wf_frame df ->
  columns (interpolate_missing_years df) = columns df
  /\ wf_frame (interpolate_missing_years df).
Proof.
  intros Hwf. split; [apply interpolate_columns | now apply interpolate_wf].
Qed.

Lemma interpolate_missing_years_rectangular_witness :
  wf_frame (interpolate_missing_years
              (mkDF ["A"; "B"] [ mkRow "Japan" 2018 [Num 1; NaN];
                                 mkRow "Japan" 2021 [Num 4; Str "x"] ])).
Proof.
  refine (proj2 (interpolate_missing_years_rectangular _ _)).
  repeat constructor.
Defined.

Lemma interpolate_country_nonempty (df : DataFrame) (r0 : Row) :
  In r0 (rows df) ->
  concat (interpolate_country df (Country r0)) <> [].
Proof.
  intros Hin.
  destruct (interpolate_country_cases df (Country r0))
    as [[Hnil _]|(x & rest & Hrows & ->)].
  - exfalso. assert (H : In r0 (rows_of (Country r0) df))
      by (apply rows_of_country; auto).
    rewrite Hnil in H. destruct H.
  - cbn [concat]. rewrite app_nil_r. intros Hnil.
    apply (f_equal (map key)) in Hnil. rewrite interpolate_cols_key in Hnil.
    pose proof (min_max_of_country x rest) as (Hlo & _ & Hall).
    apply Hall in Hlo.
    rewrite (range_cons (min_year (x :: rest) (Year x))) in Hnil by lia.
    cbn [flat_map] in Hnil.
    destruct (year_rows (length (columns df)) (Country r0) (x :: rest)
                (min_year (x :: rest) (Year x))) eqn:Y.
    + now apply year_rows_nonempty in Y.
    + simpl in Hnil. discriminate Hnil.
Qed.

Lemma interpolate_rows_cases (df : DataFrame) :
  ((forall r, In r (rows df) -> ~ In (Country r) TARGET_COUNTRIES)
   /\ interpolate_missing_years df = df)
  \/ ((exists r, In r (rows df) /\ In (Country r) TARGET_COUNTRIES)
      /\ rows (interpolate_missing_years df)
         = concat (flat_map (interpolate_country df) TARGET_COUNTRIES)
      /\ rows (interpolate_missing_years df) <> []).
Proof.
  unfold interpolate_missing_years.
  destruct (flat_map (interpolate_country df) TARGET_COUNTRIES) as [|f fs] eqn:E.
  - left. split; [|reflexivity]. intros r Hr Hc.
    assert (Hnil : interpolate_country df (Country r) = []).
    { destruct (interpolate_country df (Country r)) as [|x xs] eqn:Ec;
        [reflexivity|].
      assert (H : In x (flat_map (interpolate_country df) TARGET_COUNTRIES)).
      { apply in_flat_map. exists (Country r). split; [exact Hc|].
        rewrite Ec. now left. }
      rewrite E in H. destruct H. }
    apply (interpolate_country_nonempty df r Hr). now rewrite Hnil.
  - right. rewrite <- E. cbn [rows].
    assert (Hex : exists r, In r (rows df) /\ In (Country r) TARGET_COUNTRIES).
    { assert (Hf : In f (flat_map (interpolate_country df) TARGET_COUNTRIES))
        by (rewrite E; now left).
      apply in_flat_map in Hf as (c & Hc & Hf).
      destruct (interpolate_country_cases df c) as [[_ Hnil]|(r0 & rest & Hrows & _)].
      - rewrite Hnil in Hf. destruct Hf.
      - exists r0. assert (H0 : In r0 (rows_of c df)) by (rewrite Hrows; now left).
        apply rows_of_country in H0 as [H0 <-]. auto. }
    split; [exact Hex|]. split; [reflexivity|].
    destruct Hex as (r & Hr & Hc). intros Hnil.
    apply (interpolate_country_nonempty df r Hr).
    destruct (concat (interpolate_country df (Country r))) as [|x xs] eqn:Ec;
      [reflexivity|].
    assert (H : In x (concat (flat_map (interpolate_country df) TARGET_COUNTRIES))).
    { rewrite flat_map_concat_map. apply in_concat.
      assert (Hx : In x (concat (interpolate_country df (Country r))))
        by (rewrite Ec; now left).
      apply in_concat in Hx as (frame & Hf & Hx).
      exists frame. split; [|exact Hx].
      apply in_concat. exists (interpolate_country df (Country r)).
      split; [now apply in_map | exact Hf]. }
    rewrite Hnil in H. destruct H.
Qed.

Lemma interpolate_rows_canonical (df : DataFrame) (r : Row) :
  (exists r0, In r0 (rows df) /\ In (Country r0) TARGET_COUNTRIES) ->
  In r (rows (interpolate_missing_years df)) ->
  In (Country r) TARGET_COUNTRIES.
Proof.
  intros Hex Hr.
  destruct (interpolate_rows_cases df) as [[Hnone _]|(_ & Hrows & _)].
  - destruct Hex as (r0 & H0 & Hc). now apply Hnone in H0.
  - rewrite Hrows, flat_map_concat_map in Hr.
    apply in_concat in Hr as (frame & Hf & Hr).
    apply in_concat in Hf as (frames & Hfs & Hf).
    apply in_map_iff in Hfs as (c & <- & Hc).
    assert (Country r = c).
    { apply (interpolate_country_rows df). apply in_concat.
      exists frame. split; assumption. }
    now subst.
Qed.

(** X11.  A table without any row of a canonical country comes back from
    the interpolator as it is; as soon as one row has a canonical country,
    the result is not empty and holds rows of canonical countries only: the
    rows of the other countries are dropped. *)
Theorem interpolate_missing_years_countries (df : DataFrame) :
  ((forall r, In r (rows df) -> ~ In (Country r) TARGET_COUNTRIES) ->
   interpolate_missing_years df = df)
  /\ ((exists r, In r (rows df) /\ In (Country r) TARGET_COUNTRIES) ->
      rows (interpolate_missing_years df) <> []
      /\ forall r, In r (rows (interpolate_missing_years df)) ->
                   In (Country r) TARGET_COUNTRIES).
Proof.
  split.
  - intros Hnone. destruct (interpolate_rows_cases df) as [[_ H]|((r & Hr & Hc) & _)];
      [exact H | now apply Hnone in Hr].
  - intros Hex. split.
    + destruct (interpolate_rows_cases df) as [[Hnone _]|(_ & _ & H)]; [|exact H].
      destruct Hex as (r & Hr & Hc). now apply Hnone in Hr.
    + intros r. now apply interpolate_rows_canonical.
Qed.

Lemma interpolate_missing_years_countries_witness :
  interpolate_missing_years (mkDF ["A"] [ mkRow "Brazil" 2020 [Num 1] ])
  = mkDF ["A"] [ mkRow "Brazil" 2020 [Num 1] ]
  /\ forall r,
       In r (rows (interpolate_missing_years
                     (mkDF ["A"] [ mkRow "Brazil" 2020 [Num 1];
                                   mkRow "India" 2020 [Num 2] ]))) ->
       In (Country r) TARGET_COUNTRIES.
Proof.
  split.
  - apply (proj1 (interpolate_missing_years_countries
                    (mkDF ["A"] [ mkRow "Brazil" 2020 [Num 1] ]))).
    intros r [<-|[]]. simpl. intuition discriminate.
  - apply (proj2 (interpolate_missing_years_countries
                    (mkDF ["A"] [ mkRow "Brazil" 2020 [Num 1];
                                  mkRow "India" 2020 [Num 2] ]))).
    exists (mkRow "India" 2020 [Num 2]). simpl. tauto.
Defined.

(** *** Interpolated values stay within the observed values *)

Lemma segment_bounds (lo hi f0 f1 : Q) (x x0 x1 : Z) :
  x0 <= x < x1 ->
  (lo <= f0 <= hi)%Q -> (lo <= f1 <= hi)%Q ->
  (lo <= (f1 - f0) / inject_Z (x1 - x0) * inject_Z (x - x0) + f0 <= hi)%Q.
Proof.
  intros Hx [L0 H0] [L1 H1].
  set (d := inject_Z (x1 - x0)). set (n := inject_Z (x - x0)).
  assert (Hd : (0 < d)%Q).
  { unfold d. replace 0%Q with (inject_Z 0) by reflexivity.
    rewrite <- Zlt_Qlt. lia. }
  assert (Hn0 : (0 <= n)%Q).
  { unfold n. replace 0%Q with (inject_Z 0) by reflexivity.
    rewrite <- Zle_Qle. lia. }
  assert (Hnd : (n <= d)%Q).
  { unfold n, d. rewrite <- Zle_Qle. lia. }
  set (s := ((f1 - f0) / d)%Q).
  assert (Hs : (s * d == f1 - f0)%Q).
  { unfold s. field. intros Hz. rewrite Hz in Hd. now apply Qlt_irrefl in Hd. }
  destruct (Qlt_le_dec s 0) as [Hneg|Hpos].
  - assert (A : (s * d <= s * n)%Q).
    { setoid_replace (s * d)%Q with (- ((- s) * d))%Q by ring.
      setoid_replace (s * n)%Q with (- ((- s) * n))%Q by ring.
      apply Qopp_le_compat. apply Qmult_le_l; [lra | exact Hnd]. }
    assert (B : (s * n <= 0)%Q).
    { setoid_replace (s * n)%Q with (- ((- s) * n))%Q by ring.
      setoid_replace 0%Q with (- 0)%Q by ring.
      apply Qopp_le_compat. apply Qmult_le_0_compat; [lra | exact Hn0]. }
    split; lra.
  - assert (A : (s * n <= s * d)%Q).
    { destruct (Qeq_dec s 0) as [E|E].
      - rewrite E. lra.
      - apply Qmult_le_l; [|exact Hnd].
        destruct (Qlt_le_dec 0 s); [assumption|]. exfalso. apply E. lra. }
    assert (B : (0 <= s * n)%Q) by (apply Qmult_le_0_compat; assumption).
    split; lra.
Qed.

Lemma np_interp_from_bounds (lo hi : Q) (x x0 : Z) (f0 : Q) (rest : list (Z * Q)) :
  x0 <= x -> increasing_from x0 rest ->
  (lo <= f0 <= hi)%Q ->
  (forall p, In p rest -> (lo <= snd p <= hi)%Q) ->
  (lo <= np_interp_from x x0 f0 rest <= hi)%Q.
Proof.
  revert x0 f0. induction rest as [|[x1 f1] rest IH]; intros x0 f0 Hx Hinc Hf Hrest;
    simpl; [exact Hf|].
  destruct Hinc as [H01 Hinc].
  assert (Hf1 : (lo <= f1 <= hi)%Q) by (apply (Hrest (x1, f1)); now left).
  destruct (Z.ltb_spec x x1) as [Hlt|Hge].
  - apply segment_bounds; [lia | exact Hf | exact Hf1].
  - apply IH; [lia | exact Hinc | exact Hf1 |].
    intros p Hp. apply Hrest. now right.
Qed.

Lemma known_from_increasing (s : Z) (col : list cell) :
  match known_from s col with
  | [] => True
  | (x0, _) :: rest => s <= x0 /\ increasing_from x0 rest
  end.
Proof.
  revert s. induction col as [|c col IH]; intros s; simpl; [exact I|].
  destruct c as [q|t|].
  - split; [lia|]. specialize (IH (s + 1)).
    destruct (known_from (s + 1) col) as [|[x1 f1] rest]; [exact I|].
    simpl. destruct IH as [H1 H2]. split; [lia | exact H2].
  - specialize (IH (s + 1)).
    destruct (known_from (s + 1) col) as [|[x1 f1] rest]; [exact I|].
    destruct IH as [H1 H2]. split; [lia | exact H2].
  - specialize (IH (s + 1)).
    destruct (known_from (s + 1) col) as [|[x1 f1] rest]; [exact I|].
    destruct IH as [H1 H2]. split; [lia | exact H2].
Qed.

Lemma known_from_values (s : Z) (col : list cell) (p : Z * Q) :
  In p (known_from s col) -> In (Num (snd p)) col.
Proof.
  revert s. induction col as [|c col IH]; intros s; simpl; [tauto|].
  destruct c as [q|t|]; simpl.
  - intros [<-|H]; [now left | right; eapply IH; eassumption].
  - intros H. right. eapply IH; eassumption.
  - intros H. right. eapply IH; eassumption.
Qed.

Lemma np_interp_bounds (lo hi : Q) (x : Z) (pts : list (Z * Q)) (q : Q) :
  match pts with
  | [] => True
  | (x0, _) :: rest => increasing_from x0 rest
  end ->
  (forall p, In p pts -> (lo <= snd p <= hi)%Q) ->
  np_interp x pts = Some q -> (lo <= q <= hi)%Q.
Proof.
  destruct pts as [|[x0 f0] rest]; simpl; [discriminate|].
  intros Hinc Hall [= <-].
  assert (Hf : (lo <= f0 <= hi)%Q) by (apply (Hall (x0, f0)); now left).
  destruct (Z.leb_spec x x0); [exact Hf|].
  apply np_interp_from_bounds; [lia | exact Hinc | exact Hf |].
  intros p Hp. apply Hall. now right.
Qed.

Lemma fill_from_In (pts : list (Z * Q)) (s : Z) (col : list cell) (c : cell) :
  In c (fill_from pts s col) ->
  exists x c0, In c0 col /\ c = fill_cell pts x c0.
Proof.
  revert s. induction col as [|c0 col IH]; intros s; simpl; [tauto|].
  intros [<-|H].
  - exists s, c0. auto.
  - destruct (IH _ H) as (x & c1 & H1 & H2). exists x, c1. auto.
Qed.

Lemma interpolate_bounds (lo hi : Q) (col : list cell) :
  (forall v, In (Num v) col -> (lo <= v <= hi)%Q) ->
  forall q, In (Num q) (interpolate col) -> (lo <= q <= hi)%Q.
Proof.
  intros Hcol q Hq. unfold interpolate in Hq.
  apply fill_from_In in Hq as (x & c0 & Hc0 & Hfill).
  destruct c0 as [v|t|]; simpl in Hfill.
  - injection Hfill as ->. now apply Hcol.
  - discriminate.
  - destruct (np_interp x (known_from 0 col)) as [p|] eqn:E; [|discriminate].
    injection Hfill as ->.
    apply (np_interp_bounds lo hi x (known_from 0 col)); [| |exact E].
    + pose proof (known_from_increasing 0 col) as H.
      destruct (known_from 0 col) as [|[x0 f0] rest]; [exact I | apply H].
    + intros p' Hp. apply Hcol. eapply known_from_values; eassumption.
Qed.

Lemma interpolate_cols_column (n : nat) (cols : list nat) (rs : list Row) (j : nat) :
  NoDup cols -> (forall k, In k cols -> (k < n)%nat) ->
  Forall (fun r => length (feats r) = n) rs ->
  get_col j (fold_left (fun rs col => set_col col (interpolate (get_col col rs)) rs)
                       cols rs)
  = interpolate (get_col j rs)
  \/ get_col j (fold_left (fun rs col => set_col col (interpolate (get_col col rs)) rs)
                          cols rs)
     = get_col j rs.
Proof.
  intros Hnd Hlt Hwf.
  destruct (in_dec Nat.eq_dec j cols) as [Hin|Hnot].
  - left. apply (interpolate_cols_same n); auto.
  - right. now apply interpolate_cols_other.
Qed.

(** X12.  Interpolation never leaves the range of what was observed: when
    the numbers of a feature column in the rows of a canonical country lie
    between two bounds, so do the numbers of that column in the rows the
    interpolator returns for the country. *)
Theorem interpolate_missing_years_bounds (df : DataFrame) (country : string)
  (j : nat) (lo hi : Q) :
  wf_frame df -> In country TARGET_COUNTRIES ->
  (forall r v, In r (rows_of country df) -> cell_at j r = Num v ->
               (lo <= v <= hi)%Q) ->
  forall r q,
    In r (rows_of country (interpolate_missing_years df)) ->
    cell_at j r = Num q -> (lo <= q <= hi)%Q.
Proof.
  intros Hwf Hc Hobs r q Hr Hq.
  rewrite rows_of_interpolate in Hr by assumption.
  destruct (interpolate_country_cases df country)
    as [[_ Hnil]|(r0 & rest & Hrows & Hframe)].
  - rewrite Hnil in Hr. destruct Hr.
  - rewrite Hframe in Hr. cbn [concat] in Hr. rewrite app_nil_r in Hr.
    set (base := flat_map (year_rows (length (columns df)) country (r0 :: rest))
                   (range (min_year (r0 :: rest) (Year r0))
                          (max_year (r0 :: rest) (Year r0) + 1))) in *.
    assert (Hbase : Forall (fun r => length (feats r) = length (columns df)) base).
    { apply Forall_forall. intros x Hx. apply in_flat_map in Hx as (y & _ & Hx).
      apply (year_rows_wf df country (r0 :: rest) y); [|exact Hx].
      intros z Hz. unfold wf_frame in Hwf. rewrite Forall_forall in Hwf.
      apply Hwf. rewrite <- Hrows in Hz. now apply rows_of_country in Hz. }
    assert (Hcol : forall v, In (Num v) (get_col j base) -> (lo <= v <= hi)%Q).
    { intros v Hv. apply in_map_iff in Hv as (x & Hx & Hin).
      apply in_flat_map in Hin as (y & _ & Hin). unfold year_rows in Hin.
      destruct (filter (fun r => Year r =? y) (r0 :: rest)) as [|m ms] eqn:F.
      - destruct Hin as [<-|[]]. unfold cell_at in Hx. cbn [feats] in Hx.
        rewrite nth_nan_cells in Hx. discriminate.
      - apply in_map_iff in Hin as (z & <- & Hz).
        apply (Hobs z v); [|exact Hx].
        rewrite Hrows. rewrite <- F in Hz. now apply filter_In in Hz. }
    assert (Hq' : In (Num q) (get_col j (fold_left
              (fun rs col => set_col col (interpolate (get_col col rs)) rs)
              (numeric_cols df) base))).
    { rewrite <- Hq. unfold get_col. now apply in_map. }
    destruct (interpolate_cols_column (length (columns df)) (numeric_cols df) base j)
      as [E|E].
    + apply numeric_cols_NoDup.
    + intros k Hk. now apply numeric_cols_In in Hk.
    + exact Hbase.
    + rewrite E in Hq'. now apply (interpolate_bounds lo hi (get_col j base)).
    + rewrite E in Hq'. now apply Hcol.
Qed.

Lemma interpolate_missing_years_bounds_witness :
  match cell_at 0
          (nth 1 (rows_of "China"
                    (interpolate_missing_years
                       (mkDF ["A"] [ mkRow "China" 2018 [Num 10];
                                     mkRow "China" 2021 [Num 40] ])))
                 (mkRow "" 0 [])) with
  | Num q => (10 <= q <= 40)%Q
  | _ => True
  end.
Proof.
  destruct (cell_at 0 _) as [q|s|] eqn:E; [|exact I|exact I].
  refine (interpolate_missing_years_bounds
            (mkDF ["A"] [ mkRow "China" 2018 [Num 10]; mkRow "China" 2021 [Num 40] ])
            "China" 0%nat 10 40 _ _ _
            (nth 1 (rows_of "China"
                      (interpolate_missing_years
                         (mkDF ["A"] [ mkRow "China" 2018 [Num 10];
                                       mkRow "China" 2021 [Num 40] ])))
                   (mkRow "" 0 []))
            q _ E).
  - repeat constructor.
  - simpl. tauto.
  - intros r v [<-|[<-|[]]] [= <-]; split; discriminate.
  - apply nth_In. vm_compute. lia.
Defined.

(** *** The cross-feature imputer *)

Lemma row_ext (r r' : Row) :
  Country r = Country r' -> Year r = Year r' ->
  length (feats r) = length (feats r') ->
  (forall j, cell_at j r = cell_at j r') -> r = r'.
Proof.
  destruct r as [c y fs], r' as [c' y' fs']. unfold cell_at. simpl.
  intros -> -> Hlen Hcell. f_equal.
  apply (nth_ext fs fs' NaN NaN Hlen). intros j _. apply Hcell.
Qed.

Lemma patch_row_length (bcol ccol : nat) (country : string) (r : Row) :
  length (feats (patch_row bcol ccol country r)) = length (feats r).
Proof.
  unfold patch_row. destruct (_ && _)%bool; cbn [feats];
    [apply set_nth_length | reflexivity].
Qed.

Lemma patch_scoped_length (bcol ccol : nat) (r : Row) :
  length (feats (patch_scoped bcol ccol r)) = length (feats r).
Proof.
  unfold patch_scoped. now rewrite !patch_row_length.
Qed.

Lemma patch_scoped_idempotent (bcol ccol : nat) (r : Row) :
  (bcol < length (feats r))%nat -> ccol <> bcol ->
  patch_scoped bcol ccol (patch_scoped bcol ccol r) = patch_scoped bcol ccol r.
Proof.
  intros Hb Hne.
  destruct (patch_scoped_cells bcol ccol r Hb) as (HC & HY & Hcell).
  assert (Hb' : (bcol < length (feats (patch_scoped bcol ccol r)))%nat)
    by now rewrite patch_scoped_length.
  destruct (patch_scoped_cells bcol ccol _ Hb') as (HC' & HY' & Hcell').
  apply row_ext; [exact HC' | exact HY' | now rewrite !patch_scoped_length |].
  intros j. rewrite Hcell', HC, (Hcell bcol), (Hcell ccol), (Hcell j).
  rewrite Nat.eqb_refl.
  apply Nat.eqb_neq in Hne. rewrite Hne. cbn [andb].
  destruct (j =? bcol)%nat; cbn [andb]; [|reflexivity].
  destruct (PyStr.in_list (Country r) scoped_countries); cbn [andb]; [|reflexivity].
  destruct (isna (cell_at bcol r)) eqn:N; cbn [andb].
  - now destruct (isna (cell_at ccol r)).
  - now rewrite N.
Qed.

Lemma index_of_app (name : string) (cols extra : list string) (j : nat) :
  index_of name cols = Some j -> index_of name (cols ++ extra) = Some j.
Proof.
  revert j. induction cols as [|c cols IH]; intros j; simpl; [discriminate|].
  destruct (String.eqb name c); [trivial|].
  destruct (index_of name cols) as [i|]; simpl; [|discriminate].
  intros [= <-]. now rewrite (IH i eq_refl).
Qed.

Lemma find_business_col_app (cols : list string) (name : string) :
  find_business_col cols = None -> is_business_ai name = true ->
  find_business_col (cols ++ [name]) = Some (length cols).
Proof.
  intros Hnone Hname. induction cols as [|c cols IH]; simpl in *.
  - now rewrite Hname.
  - destruct (is_business_ai c); [discriminate|].
    destruct (find_business_col cols); [discriminate|].
    now rewrite IH.
Qed.

Lemma business_not_commercial (cols : list string) (bcol ccol : nat) :
  find_business_col cols = Some bcol ->
  index_of "Commercial_Score" cols = Some ccol -> ccol <> bcol.
Proof.
  intros Hb Hc ->.
  apply find_business_col_some in Hb as (_ & Hb & _).
  apply index_of_bound in Hc as (_ & Hc). rewrite Hc in Hb.
  vm_compute in Hb. discriminate.
Qed.

Lemma appended_row_fixed (n ccol : nat) (r : Row) :
  length (feats r) = n -> (ccol < n)%nat ->
  patch_scoped n ccol
    (mkRow (Country r) (Year r) (feats r ++ [cell_at ccol r]))
  = mkRow (Country r) (Year r) (feats r ++ [cell_at ccol r]).
Proof.
  intros Hn Hc.
  set (r1 := mkRow (Country r) (Year r) (feats r ++ [cell_at ccol r])).
  assert (Hb : (n < length (feats r1))%nat).
  { unfold r1. cbn [feats]. rewrite length_app. simpl. lia. }
  destruct (patch_scoped_cells n ccol r1 Hb) as (HC & HY & Hcell).
  apply row_ext; [exact HC | exact HY | apply patch_scoped_length |].
  intros j. rewrite Hcell.
  destruct (Nat.eqb_spec j n) as [->|Hj]; cbn [andb]; [|reflexivity].
  destruct (PyStr.in_list (Country r1) scoped_countries); cbn [andb]; [|reflexivity].
  destruct (isna (cell_at n r1)); [|reflexivity].
  unfold r1, cell_at. cbn [feats].
  rewrite app_nth1 by lia. rewrite app_nth2 by lia.
  rewrite Hn, Nat.sub_diag. reflexivity.
Qed.

Lemma impute_idempotent (df : DataFrame) :
  wf_frame df ->
  impute_with_commercial_score (impute_with_commercial_score df)
  = impute_with_commercial_score df.
Proof.
  intros Hwf. unfold wf_frame in Hwf. rewrite Forall_forall in Hwf.
  unfold impute_with_commercial_score at 2 3.
  destruct (index_of "Commercial_Score" (columns df)) as [ccol|] eqn:Hc.
  - destruct (find_business_col (columns df)) as [bcol|] eqn:Hb.
    + unfold impute_with_commercial_score. cbn [columns rows]. rewrite Hc, Hb.
      rewrite !impute_rows_scoped. f_equal. rewrite map_map.
      apply map_ext_in. intros r Hr. apply patch_scoped_idempotent.
      * rewrite (Hwf r Hr). now apply find_business_col_some in Hb.
      * eapply business_not_commercial; eassumption.
    + assert (Hidx : index_of "Business_AI_Adoption" (columns df) = None).
      { destruct (index_of "Business_AI_Adoption" (columns df)) as [j|] eqn:E;
          [|reflexivity].
        apply index_of_bound in E as [Hj Hn].
        assert (Hin : In "Business_AI_Adoption" (columns df)).
        { rewrite <- Hn. now apply nth_In. }
        apply (find_business_col_none _ Hb) in Hin. discriminate Hin. }
      unfold assign_column. rewrite Hidx.
      unfold impute_with_commercial_score. cbn [columns rows].
      rewrite (index_of_app _ _ ["Business_AI_Adoption"] _ Hc).
      rewrite (find_business_col_app _ "Business_AI_Adoption" Hb eq_refl).
      rewrite impute_rows_scoped. f_equal. rewrite map_map.
      apply map_ext_in. intros r Hr. apply appended_row_fixed.
      * now apply Hwf.
      * now apply index_of_bound in Hc.
  - unfold impute_with_commercial_score. now rewrite Hc.
Qed.

Lemma impute_wf (df : DataFrame) :
  wf_frame df -> wf_frame (impute_with_commercial_score df).
Proof.
  intros Hwf. unfold wf_frame in *. rewrite Forall_forall in *.
  unfold impute_with_commercial_score.
  destruct (index_of "Commercial_Score" (columns df)) as [ccol|]; [|exact Hwf].
  destruct (find_business_col (columns df)) as [bcol|].
  - rewrite impute_rows_scoped. cbn [columns rows]. intros r Hr.
    apply in_map_iff in Hr as (r0 & <- & Hr0).
    rewrite patch_scoped_length. now apply Hwf.
  - unfold assign_column.
    destruct (index_of "Business_AI_Adoption" (columns df)) as [j|];
      cbn [columns rows]; intros r Hr;
      apply in_map_iff in Hr as (r0 & <- & Hr0); cbn [feats].
    + rewrite set_nth_length. now apply Hwf.
    + rewrite !length_app. simpl. now rewrite (Hwf r0 Hr0).
Qed.

Lemma impute_keeps_observed (df : DataFrame) :
  wf_frame df ->
  Forall2 (fun r r' =>
             key r' = key r
             /\ forall j, notna (cell_at j r) = true -> cell_at j r' = cell_at j r)
          (rows df) (rows (impute_with_commercial_score df)).
Proof.
  intros Hwf. unfold wf_frame in Hwf.
  unfold impute_with_commercial_score.
  destruct (index_of "Commercial_Score" (columns df)) as [ccol|] eqn:Hc.
  - destruct (find_business_col (columns df)) as [bcol|] eqn:Hb.
    + rewrite impute_rows_scoped. cbn [rows]. apply Forall2_map_r.
      eapply Forall_impl; [|exact Hwf]. intros r Hr. cbn beta in Hr.
      destruct (patch_scoped_cells bcol ccol r) as (HC & HY & Hcell).
      { rewrite Hr. now apply find_business_col_some in Hb. }
      split; [unfold key; now rewrite HC, HY|].
      intros j Hj. rewrite Hcell.
      destruct (Nat.eqb_spec j bcol) as [->|Hne]; cbn [andb]; [|reflexivity].
      unfold notna in Hj. apply negb_true_iff in Hj. rewrite Hj.
      now rewrite andb_false_r.
    + assert (Hidx : index_of "Business_AI_Adoption" (columns df) = None).
      { destruct (index_of "Business_AI_Adoption" (columns df)) as [j|] eqn:E;
          [|reflexivity].
        apply index_of_bound in E as [Hj Hn].
        assert (Hin : In "Business_AI_Adoption" (columns df)).
        { rewrite <- Hn. now apply nth_In. }
        apply (find_business_col_none _ Hb) in Hin. discriminate Hin. }
      unfold assign_column. rewrite Hidx. cbn [rows]. apply Forall2_map_r.
      eapply Forall_impl; [|exact Hwf]. intros r Hr. cbn beta in Hr.
      split; [reflexivity|]. intros j Hj. unfold cell_at in *. cbn [feats].
      destruct (Nat.lt_ge_cases j (length (feats r))) as [Hlt|Hge].
      * now apply app_nth1.
      * rewrite (nth_overflow (feats r)) in Hj by lia. discriminate Hj.
  - clear. induction (rows df) as [|r rs IH]; constructor; auto.
Qed.

(** X13.  The imputer only fills gaps: on a rectangular table it returns a
    rectangular table with the same rows in the same order, every row keeps
    its key, and every cell that held a value (a number or a text) holds the
    same value afterwards. *)
Theorem impute_with_commercial_score_fills_only (df : DataFrame) :
  wf_frame df ->
  wf_frame (impute_with_commercial_score df)
  /\ Forall2 (fun r r' =>
                key r' = key r
                /\ forall j, notna (cell_at j r) = true ->
                             cell_at j r' = cell_at j r)
             (rows df) (rows (impute_with_commercial_score df)).
Proof.
  intros Hwf. split; [now apply impute_wf | now apply impute_keeps_observed].
Qed.

Lemma impute_with_commercial_score_fills_only_witness :
  wf_frame (impute_with_commercial_score
              (mkDF ["Commercial_Score"; "Business_AI_Use"]
                    [ mkRow "China" 2020 [Num 7; NaN];
                      mkRow "India" 2020 [Num 3; Num 5] ])).
Proof.
  apply (proj1 (impute_with_commercial_score_fills_only
                  (mkDF ["Commercial_Score"; "Business_AI_Use"]
                        [ mkRow "China" 2020 [Num 7; NaN];
                          mkRow "India" 2020 [Num 3; Num 5] ])
                  ltac:(repeat constructor))).
Defined.

(** X14.  Running the imputer a second time changes nothing: on a
    rectangular table, imputing the imputed table returns it as it is, also
    when the first run created the column Business_AI_Adoption. *)
Theorem impute_with_commercial_score_idempotent (df : DataFrame) :
  wf_frame df ->
  impute_with_commercial_score (impute_with_commercial_score df)
  = impute_with_commercial_score df.
Proof.
  exact (impute_idempotent df).
Qed.

Lemma impute_with_commercial_score_idempotent_witness :
  impute_with_commercial_score
    (impute_with_commercial_score
       (mkDF ["Commercial_Score"] [ mkRow "China" 2020 [NaN];
                                    mkRow "India" 2021 [Num 3] ]))
  = impute_with_commercial_score
      (mkDF ["Commercial_Score"] [ mkRow "China" 2020 [NaN];
                                   mkRow "India" 2021 [Num 3] ]).
Proof.
  apply (impute_with_commercial_score_idempotent
           (mkDF ["Commercial_Score"] [ mkRow "China" 2020 [NaN];
                                        mkRow "India" 2021 [Num 3] ])).
  repeat constructor.
Defined.

(** *** Column detection *)

Lemma combine_seq_snoc (s : nat) (cols : list string) (c : string) :
  combine (seq s (length (cols ++ [c]))) (cols ++ [c])
  = (combine (seq s (length cols)) cols ++ [((s + length cols)%nat, c)])%list.
Proof.
  revert s. induction cols as [|a cols IH]; intros s; simpl.
  - now rewrite Nat.add_0_r.
  - rewrite IH. now rewrite Nat.add_succ_r.
Qed.

Lemma enumerate_snoc (cols : list string) (c : string) :
  enumerate (cols ++ [c]) = (enumerate cols ++ [(length cols, c)])%list.
Proof.
  unfold enumerate. now rewrite combine_seq_snoc.
Qed.

Lemma nth_snoc_last (cols : list string) (c : string) :
  nth (length cols) (cols ++ [c]) "" = c.
Proof.
  rewrite app_nth2 by lia. now rewrite Nat.sub_diag.
Qed.

Section Detection.

Variable R : Type.
Variable step : R -> nat * string -> R.
Variable get : R -> option nat.
Variable p : string -> bool.

Lemma found_last_snoc (cols : list string) (c : string) (o : option nat) :
  found_last p cols o ->
  found_last p (cols ++ [c]) (if p c then Some (length cols) else o).
Proof.
  intros H. destruct (p c) eqn:Pc.
  - repeat split.
    + rewrite length_app. simpl. lia.
    + now rewrite nth_snoc_last.
    + rewrite length_app. simpl. lia.
  - assert (Hk : forall k, (k < length (cols ++ [c]))%nat ->
                           (k < length cols)%nat \/ k = length cols).
    { intros k. rewrite length_app. simpl. lia. }
    destruct o as [j|]; simpl in *.
    + destruct H as (H1 & H2 & H3). repeat split.
      * rewrite length_app. lia.
      * now rewrite app_nth1.
      * intros k [Hjk Hlt]. destruct (Hk k Hlt) as [Hlt'| ->].
        -- rewrite app_nth1 by assumption. apply H3. lia.
        -- now rewrite nth_snoc_last.
    + intros k Hlt. destruct (Hk k Hlt) as [Hlt'| ->].
      * rewrite app_nth1 by assumption. now apply H.
      * now rewrite nth_snoc_last.
Qed.

Lemma found_first_snoc (cols : list string) (c : string) (o : option nat) :
  found_first p cols o ->
  found_first p (cols ++ [c])
    (if (is_none o && p c)%bool then Some (length cols) else o).
Proof.
  intros H.
  assert (Hk : forall k, (k < length (cols ++ [c]))%nat ->
                         (k < length cols)%nat \/ k = length cols).
  { intros k. rewrite length_app. simpl. lia. }
  destruct o as [j|]; simpl in *.
  - destruct H as (H1 & H2 & H3). repeat split.
    + rewrite length_app. lia.
    + now rewrite app_nth1.
    + intros k Hkj. rewrite app_nth1 by lia. now apply H3.
  - destruct (p c) eqn:Pc.
    + repeat split.
      * rewrite length_app. simpl. lia.
      * now rewrite nth_snoc_last.
      * intros k Hlt. rewrite app_nth1 by assumption. now apply H.
    + intros k Hlt. destruct (Hk k Hlt) as [Hlt'| ->].
      * rewrite app_nth1 by assumption. now apply H.
      * now rewrite nth_snoc_last.
Qed.

Lemma last_wins (init : R) (cols : list string) :
  (forall acc j c, get (step acc (j, c)) = if p c then Some j else get acc) ->
  get init = None ->
  found_last p cols (get (fold_left step (enumerate cols) init)).
Proof.
  intros Hstep Hinit. induction cols as [|c cols IH] using rev_ind.
  - simpl. rewrite Hinit. intros k Hk. simpl in Hk. lia.
  - rewrite enumerate_snoc, fold_left_app. simpl. rewrite Hstep.
    now apply found_last_snoc.
Qed.

Lemma first_wins (init : R) (cols : list string) :
  (forall acc j c, get (step acc (j, c))
                   = if (is_none (get acc) && p c)%bool then Some j else get acc) ->
  get init = None ->
  found_first p cols (get (fold_left step (enumerate cols) init)).
Proof.
  intros Hstep Hinit. induction cols as [|c cols IH] using rev_ind.
  - simpl. rewrite Hinit. intros k Hk. simpl in Hk. lia.
  - rewrite enumerate_snoc, fold_left_app. simpl. rewrite Hstep.
    now apply found_first_snoc.
Qed.

End Detection.

Ltac chain_cases :=
  repeat match goal with
         | |- context [if ?b then _ else _] =>
             destruct b eqn:?; cbn [negb andb orb]
         end;
  try reflexivity; try discriminate.

Lemma oecd_step_ref (acc : oecd_roles) (j : nat) (c : string) :
  or_ref_area (oecd_detect_step acc (j, c))
  = if oecd_ref_name c then Some j else or_ref_area acc.
Proof.
  unfold oecd_detect_step, oecd_ref_name. cbn [fst snd]. chain_cases.
Qed.

Lemma oecd_step_time (acc : oecd_roles) (j : nat) (c : string) :
  or_time (oecd_detect_step acc (j, c))
  = if oecd_time_name c then Some j else or_time acc.
Proof.
  unfold oecd_detect_step, oecd_time_name, oecd_ref_name. cbn [fst snd].
  chain_cases.
Qed.

Lemma oecd_step_measure (acc : oecd_roles) (j : nat) (c : string) :
  or_measure (oecd_detect_step acc (j, c))
  = if oecd_measure_name c then Some j else or_measure acc.
Proof.
  unfold oecd_detect_step, oecd_measure_name, oecd_time_name, oecd_ref_name.
  cbn [fst snd]. chain_cases.
Qed.

Lemma oecd_step_value (acc : oecd_roles) (j : nat) (c : string) :
  or_value (oecd_detect_step acc (j, c))
  = if oecd_value_name c then Some j else or_value acc.
Proof.
  unfold oecd_detect_step, oecd_value_name, oecd_measure_name, oecd_time_name,
    oecd_ref_name.
  cbn [fst snd]. chain_cases.
Qed.

Lemma oecd_step_unit (acc : oecd_roles) (j : nat) (c : string) :
  or_unit (oecd_detect_step acc (j, c))
  = if oecd_unit_name c then Some j else or_unit acc.
Proof.
  unfold oecd_detect_step, oecd_unit_name, oecd_value_name, oecd_measure_name,
    oecd_time_name, oecd_ref_name.
  cbn [fst snd]. chain_cases.
Qed.

Lemma oecd_detect_found (cols : list string) :
  found_last oecd_ref_name cols (or_ref_area (oecd_detect cols))
  /\ found_last oecd_time_name cols (or_time (oecd_detect cols))
  /\ found_last oecd_measure_name cols (or_measure (oecd_detect cols))
  /\ found_last oecd_value_name cols (or_value (oecd_detect cols))
  /\ found_last oecd_unit_name cols (or_unit (oecd_detect cols)).
Proof.
  unfold oecd_detect. repeat split.
  - apply (last_wins _ _ or_ref_area); [exact oecd_step_ref | reflexivity].
  - apply (last_wins _ _ or_time); [exact oecd_step_time | reflexivity].
  - apply (last_wins _ _ or_measure); [exact oecd_step_measure | reflexivity].
  - apply (last_wins _ _ or_value); [exact oecd_step_value | reflexivity].
  - apply (last_wins _ _ or_unit); [exact oecd_step_unit | reflexivity].
Qed.

Lemma oecd_unit_not_measure (c : string) :
  oecd_unit_name c = true -> PyStr.contains "MEASURE" (PyStr.upper c) = false.
Proof.
  unfold oecd_unit_name, oecd_value_name, oecd_measure_name.
  destruct (oecd_ref_name c), (oecd_time_name c),
    (PyStr.contains "MEASURE" (PyStr.upper c)); cbn [negb andb];
    intros H; try reflexivity; discriminate H.
Qed.

(** X15.  Column detection of the R&D adapter: a column name is tested for
    the roles in the order country, time, measure, value, unit and takes the
    first role whose test it passes; the column of a role is the last column
    that takes it, and a role is empty exactly when no column takes it.  So
    a column whose upper-case name contains MEASURE is never the unit
    column: the header UNIT_MEASURE is taken as a measure column. *)
Theorem oecd_detect_last_wins (cols : list string) :
  found_last oecd_ref_name cols (or_ref_area (oecd_detect cols))
  /\ found_last oecd_time_name cols (or_time (oecd_detect cols))
  /\ found_last oecd_measure_name cols (or_measure (oecd_detect cols))
  /\ found_last oecd_value_name cols (or_value (oecd_detect cols))
  /\ found_last oecd_unit_name cols (or_unit (oecd_detect cols))
  /\ (forall j, or_unit (oecd_detect cols) = Some j ->
        PyStr.contains "MEASURE" (PyStr.upper (nth j cols "")) = false)
  /\ oecd_measure_name "UNIT_MEASURE" = true.
Proof.
  destruct (oecd_detect_found cols) as (H1 & H2 & H3 & H4 & H5).
  repeat split; try assumption.
  intros j Hj. rewrite Hj in H5. destruct H5 as (_ & H5 & _).
  now apply oecd_unit_not_measure.
Qed.

(** *** Renamed columns *)

Lemma rename_at_length (j : nat) (new : string) (cols : list string) :
  length (rename_at j new cols) = length cols.
Proof.
  revert j. induction cols as [|c cols IH]; intros [|j]; simpl; auto.
Qed.

Lemma nth_rename_at (j k : nat) (new : string) (cols : list string) :
  nth k (rename_at j new cols) ""
  = if ((k =? j)%nat && (j <? length cols)%nat)%bool then new else nth k cols "".
Proof.
  revert j k. induction cols as [|c cols IH]; intros [|j] [|k]; simpl;
    try reflexivity.
  - now rewrite andb_false_r.
  - rewrite IH. reflexivity.
Qed.

Lemma positions_from_In (s : nat) (name : string) (cols : list string) (k : nat) :
  In k (positions_from s name cols)
  <-> exists i, k = (s + i)%nat /\ (i < length cols)%nat /\ nth i cols "" = name.
Proof.
  revert s. induction cols as [|c cols IH]; intros s; simpl.
  - split; [tauto | intros (i & _ & H & _); lia].
  - destruct (String.eqb_spec name c) as [->|Hne]; simpl; rewrite IH; split.
    + intros [<-|(i & -> & Hi & Hn)].
      * exists 0%nat. repeat split; lia.
      * exists (S i). repeat split; [lia | lia | exact Hn].
    + intros ([|i] & -> & Hi & Hn).
      * left. lia.
      * right. exists i. repeat split; [lia | lia | exact Hn].
    + intros (i & -> & Hi & Hn). exists (S i). repeat split; [lia | lia | exact Hn].
    + intros ([|i] & -> & Hi & Hn).
      * congruence.
      * exists i. repeat split; [lia | lia | exact Hn].
Qed.

Lemma series_pos_Ok (name : string) (cols : list string) (j : nat) :
  series_pos name cols = Ok j ->
  forall k, (k < length cols)%nat -> nth k cols "" = name -> k = j.
Proof.
  unfold series_pos. intros H k Hk Hn.
  assert (Hin : In k (positions_from 0 name cols)).
  { apply positions_from_In. exists k. auto. }
  destruct (positions_from 0 name cols) as [|a [|b l]]; try discriminate.
  injection H as <-. destruct Hin as [<-|[]]. reflexivity.
Qed.

Lemma found_last_distinct (p q : string -> bool) (cols : list string) (j k : nat) :
  (forall c, p c = true -> q c = false) ->
  last_match p cols j -> last_match q cols k -> j <> k.
Proof.
  intros Hpq (_ & Hp & _) (_ & Hq & _) ->.
  apply Hpq in Hp. congruence.
Qed.

(** *** The frame of the R&D adapter *)

Lemma oecd_roles_exclusive (c : string) :
  (oecd_ref_name c = true -> oecd_time_name c = false)
  /\ (oecd_ref_name c = true -> oecd_value_name c = false)
  /\ (oecd_ref_name c = true -> oecd_measure_name c = false)
  /\ (oecd_time_name c = true -> oecd_value_name c = false)
  /\ (oecd_time_name c = true -> oecd_measure_name c = false)
  /\ (oecd_measure_name c = true -> oecd_value_name c = false).
Proof.
  assert (T : oecd_ref_name c = true -> oecd_time_name c = false).
  { unfold oecd_time_name. now intros ->. }
  unfold oecd_value_name, oecd_measure_name.
  destruct (oecd_ref_name c), (oecd_time_name c);
    try (specialize (T eq_refl); discriminate T);
    cbn [negb andb]; repeat split; intros H;
    try reflexivity; try discriminate H.
  now rewrite H.
Qed.

Section OecdFrame.

Variable cols : list string.
Variables ref time value : nat.
Hypothesis Href : or_ref_area (oecd_detect cols) = Some ref.
Hypothesis Htime : or_time (oecd_detect cols) = Some time.
Hypothesis Hvalue : or_value (oecd_detect cols) = Some value.


Lemma oecd_roles_valid :
  (ref < length cols)%nat /\ (time < length cols)%nat /\ (value < length cols)%nat
  /\ ref <> time /\ ref <> value /\ time <> value
  /\ forall m, or_measure (oecd_detect cols) = Some m ->
       (m < length cols)%nat /\ m <> ref /\ m <> time /\ m <> value.
Proof.
  destruct (oecd_detect_found cols) as (H1 & H2 & H3 & H4 & _).
  rewrite Href in H1. rewrite Htime in H2. rewrite Hvalue in H4.
  simpl in H1, H2, H4.
  assert (E := oecd_roles_exclusive).
  repeat split; try (now apply H1); try (now apply H2); try (now apply H4).
  - eapply found_last_distinct; [|exact H1|exact H2]. intros c; apply E.
  - eapply found_last_distinct; [|exact H1|exact H4]. intros c; apply E.
  - eapply found_last_distinct; [|exact H2|exact H4]. intros c; apply E.
  - rewrite H in H3. now apply H3.
  - rewrite H in H3. simpl in H3. apply not_eq_sym.
    eapply found_last_distinct; [|exact H1|exact H3]. intros c; apply E.
  - rewrite H in H3. simpl in H3. apply not_eq_sym.
    eapply found_last_distinct; [|exact H2|exact H3]. intros c; apply E.
  - rewrite H in H3. simpl in H3.
    eapply found_last_distinct; [|exact H3|exact H4]. intros c; apply E.
Qed.

Lemma renamed_length : length (oecd_renamed cols ref time value) = length cols.
Proof.
  unfold oecd_renamed, rename_opt.
  destruct (or_measure (oecd_detect cols)); now rewrite !rename_at_length.
Qed.

Lemma renamed_nth (k : nat) :
  (k < length cols)%nat ->
  nth k (oecd_renamed cols ref time value) ""
  = if (match or_measure (oecd_detect cols) with
        | Some m => (k =? m)%nat
        | None => false
        end) then "Measure"
    else if (k =? value)%nat then "Value"
    else if (k =? time)%nat then "Year"
    else if (k =? ref)%nat then "Country"
    else nth k cols "".
Proof.
  intros Hk. destruct oecd_roles_valid as (V1 & V2 & V3 & _ & _ & _ & Vm).
  assert (T : forall j, (j < length cols)%nat -> (j <? length cols)%nat = true)
    by (intros j Hj; now apply Nat.ltb_lt).
  unfold oecd_renamed, rename_opt.
  destruct (or_measure (oecd_detect cols)) as [m|].
  - destruct (Vm m eq_refl) as (Vm1 & _).
    rewrite !nth_rename_at, !rename_at_length.
    rewrite (T _ V1), (T _ V2), (T _ V3), (T _ Vm1), !andb_true_r. reflexivity.
  - rewrite !nth_rename_at, !rename_at_length.
    rewrite (T _ V1), (T _ V2), (T _ V3), !andb_true_r. reflexivity.
Qed.

Lemma renamed_positions :
  nth ref (oecd_renamed cols ref time value) "" = "Country" /\ nth time (oecd_renamed cols ref time value) "" = "Year"
  /\ nth value (oecd_renamed cols ref time value) "" = "Value"
  /\ match or_measure (oecd_detect cols) with
     | Some m => nth m (oecd_renamed cols ref time value) "" = "Measure"
     | None => ~ In "Measure" (oecd_renamed cols ref time value)
     end.
Proof.
  destruct oecd_roles_valid as (V1 & V2 & V3 & D1 & D2 & D3 & Vm).
  assert (F : forall a b : nat, a <> b -> (a =? b)%nat = false)
    by (intros a b; apply Nat.eqb_neq).
  repeat split.
  - rewrite renamed_nth by assumption.
    destruct (or_measure (oecd_detect cols)) as [m|].
    + destruct (Vm m eq_refl) as (_ & M1 & M2 & M3).
      rewrite (F ref m), (F ref value), (F ref time), Nat.eqb_refl; auto.
    + rewrite (F ref value), (F ref time), Nat.eqb_refl; auto.
  - rewrite renamed_nth by assumption.
    destruct (or_measure (oecd_detect cols)) as [m|].
    + destruct (Vm m eq_refl) as (_ & M1 & M2 & M3).
      rewrite (F time m), (F time value), Nat.eqb_refl; auto.
    + rewrite (F time value), Nat.eqb_refl; auto.
  - rewrite renamed_nth by assumption.
    destruct (or_measure (oecd_detect cols)) as [m|].
    + destruct (Vm m eq_refl) as (_ & M1 & M2 & M3).
      rewrite (F value m), Nat.eqb_refl; auto.
    + rewrite Nat.eqb_refl; auto.
  - destruct (or_measure (oecd_detect cols)) as [m|] eqn:Hm.
    + destruct (Vm m eq_refl) as (M0 & _).
      rewrite renamed_nth by assumption. rewrite Hm. now rewrite Nat.eqb_refl.
    + intros Hin. apply (In_nth _ _ "") in Hin as (k & Hk & Hn).
      rewrite renamed_length in Hk. rewrite renamed_nth in Hn by assumption.
      rewrite Hm in Hn.
      destruct (k =? value)%nat; [discriminate|].
      destruct (k =? time)%nat; [discriminate|].
      destruct (k =? ref)%nat; [discriminate|].
      destruct (oecd_detect_found cols) as (_ & _ & H3 & _).
      rewrite Hm in H3. specialize (H3 k Hk). rewrite Hn in H3.
      vm_compute in H3. discriminate H3.
Qed.

Lemma renamed_series (country year value' : nat) (measure : option nat) :
  series_pos "Year" (oecd_renamed cols ref time value) = Ok year ->
  series_pos "Value" (oecd_renamed cols ref time value) = Ok value' ->
  (if PyStr.in_list "Measure" (oecd_renamed cols ref time value)
   then m <- series_pos "Measure" (oecd_renamed cols ref time value) ;; Ok (Some m)
   else Ok None) = Ok measure ->
  series_pos "Country" (oecd_renamed cols ref time value) = Ok country ->
  country = ref /\ year = time /\ value' = value
  /\ measure = or_measure (oecd_detect cols).
Proof.
  intros Hy Hv Hm Hc.
  destruct oecd_roles_valid as (V1 & V2 & V3 & _ & _ & _ & Vm).
  destruct renamed_positions as (P1 & P2 & P3 & P4).
  repeat split.
  - symmetry. apply (series_pos_Ok _ _ _ Hc); [now rewrite renamed_length | exact P1].
  - symmetry. apply (series_pos_Ok _ _ _ Hy); [now rewrite renamed_length | exact P2].
  - symmetry. apply (series_pos_Ok _ _ _ Hv); [now rewrite renamed_length | exact P3].
  - destruct (PyStr.in_list "Measure" (oecd_renamed cols ref time value)) eqn:L.
    + destruct (series_pos "Measure" (oecd_renamed cols ref time value))
        as [m|msg] eqn:Sm; [|discriminate Hm].
      simpl in Hm. injection Hm as <-.
      destruct (or_measure (oecd_detect cols)) as [m0|].
      * f_equal. symmetry. destruct (Vm m0 eq_refl) as (M0 & _).
        apply (series_pos_Ok _ _ _ Sm); [now rewrite renamed_length | exact P4].
      * apply in_list_In in L. now apply P4 in L.
    + injection Hm as <-.
      destruct (or_measure (oecd_detect cols)) as [m0|]; [|reflexivity].
      destruct (Vm m0 eq_refl) as (M0 & _).
      assert (Hin : In "Measure" (oecd_renamed cols ref time value)).
      { rewrite <- P4. apply nth_In. now rewrite renamed_length. }
      apply in_list_In in Hin. congruence.
Qed.

End OecdFrame.

Section OecdAdapter.

Variable str_of_num : Q -> string.
Variable parse_num : string -> option Q.

Lemma oecd_body_detected (df : RawTable) (frame : DataFrame) :
  oecd_body str_of_num parse_num df = Ok frame -> rows frame <> [] ->
  exists ref time value,
    or_ref_area (oecd_detect (raw_columns df)) = Some ref
    /\ or_time (oecd_detect (raw_columns df)) = Some time
    /\ or_value (oecd_detect (raw_columns df)) = Some value
    /\ frame = pivot_table agg_mean
                 (oecd_tall parse_num ref time value
                    (or_measure (oecd_detect (raw_columns df)))
                    (oecd_surviving str_of_num df)).
Proof.
  unfold oecd_body, oecd_surviving.
  destruct (or_ref_area (oecd_detect (raw_columns df))) as [ref|] eqn:Href;
    [|intros [= <-] H; now destruct H].
  destruct (or_time (oecd_detect (raw_columns df))) as [time|] eqn:Htime;
    [|intros [= <-] H; now destruct H].
  destruct (or_value (oecd_detect (raw_columns df))) as [val|] eqn:Hvalue;
    [|intros [= <-] H; now destruct H].
  destruct (length _ =? 0)%nat; [intros [= <-] H; now destruct H|].
  destruct (length _ =? 0)%nat; [intros [= <-] H; now destruct H|].
  fold (oecd_renamed (raw_columns df) ref time val).
  unfold bind at 1 2 4.
  destruct (series_pos "Year" _) as [year|] eqn:Sy; [|discriminate].
  destruct (series_pos "Value" _) as [value|] eqn:Sv; [|discriminate].
  destruct (if PyStr.in_list "Measure" _ then _ else _) as [measure|] eqn:Sm;
    [|discriminate].
  destruct (series_pos "Country" _) as [country|] eqn:Sc; [|discriminate].
  intros [= <-] _.
  destruct (renamed_series (raw_columns df) ref time val Href Htime Hvalue
              country year value measure Sy Sv Sm Sc) as (-> & -> & -> & ->).
  exists ref, time, val. auto.
Qed.

(** X16.  A frame with rows that the R&D adapter returns is built from
    the detected columns: after the renames the columns Country, Year and
    Value are found where the country, time and value columns were detected,
    and the measure code is read from the detected measure column, or from
    none when none was detected. *)
Theorem process_oecd_msti_detected (csv xlsx : file) :
  rows (process_oecd_msti str_of_num parse_num csv xlsx) <> [] ->
  exists df ref time value,
    locate csv xlsx = Present (Some df)
    /\ or_ref_area (oecd_detect (raw_columns df)) = Some ref
    /\ or_time (oecd_detect (raw_columns df)) = Some time
    /\ or_value (oecd_detect (raw_columns df)) = Some value
    /\ process_oecd_msti str_of_num parse_num csv xlsx
       = pivot_table agg_mean
           (oecd_tall parse_num ref time value
              (or_measure (oecd_detect (raw_columns df)))
              (oecd_surviving str_of_num df)).
Proof.
  unfold process_oecd_msti.
  destruct (locate csv xlsx) as [|[df|]]; try (intros H; now destruct H).
  unfold try_except.
  destruct (oecd_body str_of_num parse_num df) as [frame|msg] eqn:Hbody;
    [|intros H; now destruct H].
  intros Hrows.
  destruct (oecd_body_detected df frame Hbody Hrows)
    as (ref & time & value & H1 & H2 & H3 & H4).
  exists df, ref, time, value. auto.
Qed.

End OecdAdapter.

Lemma process_oecd_msti_detected_witness :
  exists df ref time value,
    locate (Present (Some (mkRaw ["REF_AREA"; "TIME_PERIOD"; "OBS_VALUE"]
                                  [[Str "USA"; Num 2020; Num 5]]))) Absent
    = Present (Some df)
    /\ or_ref_area (oecd_detect (raw_columns df)) = Some ref
    /\ or_time (oecd_detect (raw_columns df)) = Some time
    /\ or_value (oecd_detect (raw_columns df)) = Some value
    /\ process_oecd_msti (fun _ => "") (fun _ => None)
         (Present (Some (mkRaw ["REF_AREA"; "TIME_PERIOD"; "OBS_VALUE"]
                               [[Str "USA"; Num 2020; Num 5]]))) Absent
       = pivot_table agg_mean
           (oecd_tall (fun _ => None) ref time value
              (or_measure (oecd_detect (raw_columns df)))
              (oecd_surviving (fun _ => "") df)).
Proof.
  apply (process_oecd_msti_detected (fun _ => "") (fun _ => None)
           (Present (Some (mkRaw ["REF_AREA"; "TIME_PERIOD"; "OBS_VALUE"]
                                 [[Str "USA"; Num 2020; Num 5]]))) Absent).
  vm_compute. discriminate.
Defined.

(** *** The frame of the broadband adapter *)

Lemma broadband_step_country (acc : broadband_roles) (j : nat) (c : string) :
  br_country (broadband_detect_step acc (j, c))
  = if oecd_ref_name c then Some j else br_country acc.
Proof.
  unfold broadband_detect_step, oecd_ref_name. cbn [fst snd]. chain_cases.
Qed.

Lemma broadband_step_year (acc : broadband_roles) (j : nat) (c : string) :
  br_year (broadband_detect_step acc (j, c))
  = if oecd_time_name c then Some j else br_year acc.
Proof.
  unfold broadband_detect_step, oecd_time_name, oecd_ref_name. cbn [fst snd].
  chain_cases.
Qed.

Lemma broadband_step_value (acc : broadband_roles) (j : nat) (c : string) :
  br_value (broadband_detect_step acc (j, c))
  = if broadband_value_name c then Some j else br_value acc.
Proof.
  unfold broadband_detect_step, broadband_value_name, oecd_time_name,
    oecd_ref_name.
  cbn [fst snd]. chain_cases.
Qed.

Lemma broadband_detect_found (cols : list string) :
  found_last oecd_ref_name cols (br_country (broadband_detect cols))
  /\ found_last oecd_time_name cols (br_year (broadband_detect cols))
  /\ found_last broadband_value_name cols (br_value (broadband_detect cols)).
Proof.
  unfold broadband_detect. repeat split.
  - apply (last_wins _ _ br_country); [exact broadband_step_country | reflexivity].
  - apply (last_wins _ _ br_year); [exact broadband_step_year | reflexivity].
  - apply (last_wins _ _ br_value); [exact broadband_step_value | reflexivity].
Qed.

Lemma broadband_roles_exclusive (c : string) :
  (oecd_ref_name c = true -> oecd_time_name c = false)
  /\ (oecd_ref_name c = true -> broadband_value_name c = false)
  /\ (oecd_time_name c = true -> broadband_value_name c = false).
Proof.
  unfold broadband_value_name, oecd_time_name.
  repeat split; intros ->; cbn [negb andb]; try reflexivity.
  now rewrite andb_false_r.
Qed.

Section BroadbandFrame.

Variable cols : list string.
Variables country year value : nat.
Hypothesis Hcountry : br_country (broadband_detect cols) = Some country.
Hypothesis Hyear : br_year (broadband_detect cols) = Some year.
Hypothesis Hvalue : br_value (broadband_detect cols) = Some value.

Lemma broadband_roles_valid :
  (country < length cols)%nat /\ (year < length cols)%nat
  /\ (value < length cols)%nat
  /\ country <> year /\ country <> value /\ year <> value.
Proof.
  destruct (broadband_detect_found cols) as (H1 & H2 & H3).
  rewrite Hcountry in H1. rewrite Hyear in H2. rewrite Hvalue in H3.
  simpl in H1, H2, H3.
  assert (E := broadband_roles_exclusive).
  repeat split; try (now apply H1); try (now apply H2); try (now apply H3).
  - eapply found_last_distinct; [|exact H1|exact H2]. intros c; apply E.
  - eapply found_last_distinct; [|exact H1|exact H3]. intros c; apply E.
  - eapply found_last_distinct; [|exact H2|exact H3]. intros c; apply E.
Qed.

Lemma broadband_renamed_length :
  length (broadband_renamed cols country year value) = length cols.
Proof.
  unfold broadband_renamed. now rewrite !rename_at_length.
Qed.

Lemma broadband_renamed_positions :
  nth country (broadband_renamed cols country year value) "" = "Country"
  /\ nth year (broadband_renamed cols country year value) "" = "Year"
  /\ nth value (broadband_renamed cols country year value) "" = "Fibre_Percentage".
Proof.
  destruct broadband_roles_valid as (V1 & V2 & V3 & D1 & D2 & D3).
  assert (F : forall a b : nat, a <> b -> (a =? b)%nat = false)
    by (intros a b; apply Nat.eqb_neq).
  assert (T : forall j, (j < length cols)%nat -> (j <? length cols)%nat = true)
    by (intros j Hj; now apply Nat.ltb_lt).
  unfold broadband_renamed.
  rewrite !nth_rename_at, !rename_at_length.
  rewrite (T _ V1), (T _ V2), (T _ V3), !andb_true_r, !Nat.eqb_refl.
  rewrite (F country value), (F country year), (F year value); auto.
Qed.

Lemma broadband_renamed_series (c y v : nat) :
  series_pos "Country" (broadband_renamed cols country year value) = Ok c ->
  series_pos "Year" (broadband_renamed cols country year value) = Ok y ->
  series_pos "Fibre_Percentage" (broadband_renamed cols country year value) = Ok v ->
  c = country /\ y = year /\ v = value.
Proof.
  intros Hc Hy Hv.
  destruct broadband_roles_valid as (V1 & V2 & V3 & _).
  destruct broadband_renamed_positions as (P1 & P2 & P3).
  repeat split; symmetry.
  - apply (series_pos_Ok _ _ _ Hc); [now rewrite broadband_renamed_length | exact P1].
  - apply (series_pos_Ok _ _ _ Hy); [now rewrite broadband_renamed_length | exact P2].
  - apply (series_pos_Ok _ _ _ Hv); [now rewrite broadband_renamed_length | exact P3].
Qed.

End BroadbandFrame.

Section BroadbandAdapter.

Variable str_of_num : Q -> string.
Variable parse_num : string -> option Q.

Lemma broadband_body_detected (df : RawTable) (frame : DataFrame) :
  broadband_body str_of_num parse_num df = Ok frame -> rows frame <> [] ->
  exists country year value,
    br_country (broadband_detect (raw_columns df)) = Some country
    /\ br_year (broadband_detect (raw_columns df)) = Some year
    /\ br_value (broadband_detect (raw_columns df)) = Some value
    /\ frame
       = mkDF broadband_shape
           (map (fun g => mkRow (fst (fst g)) (snd (fst g)) [snd g])
              (mean_by_key
                 (flat_map (fun row =>
                    match int_year parse_num (nth year row NaN) with
                    | Some y => [((country_of country row, y), nth value row NaN)]
                    | None => []
                    end)
                    (filter_target_countries str_of_num (raw_rows df) country)))).
Proof.
  unfold broadband_body.
  destruct (br_country (broadband_detect (raw_columns df))) as [country|] eqn:Hc;
    [|intros [= <-] H; now destruct H].
  destruct (br_year (broadband_detect (raw_columns df))) as [year|] eqn:Hy;
    [|intros [= <-] H; now destruct H].
  destruct (br_value (broadband_detect (raw_columns df))) as [val|] eqn:Hv;
    [|intros [= <-] H; now destruct H].
  destruct (length _ =? 0)%nat; [intros [= <-] H; now destruct H|].
  destruct (length _ =? 0)%nat; [intros [= <-] H; now destruct H|].
  fold (broadband_renamed (raw_columns df) country year val).
  unfold bind.
  destruct (series_pos "Country" _) as [c|] eqn:Sc; [|discriminate].
  destruct (series_pos "Year" _) as [y|] eqn:Sy; [|discriminate].
  destruct (series_pos "Fibre_Percentage" _) as [v|] eqn:Sv; [|discriminate].
  destruct (existsb _ _); [discriminate|].
  intros [= <-] _.
  destruct (broadband_renamed_series (raw_columns df) country year val Hc Hy Hv
              c y v Sc Sy Sv) as (-> & -> & ->).
  exists country, year, val. auto.
Qed.

End BroadbandAdapter.

(** ** What every adapter returns *)

Lemma insert_uniq_subset {A : Type} (cmp : A -> A -> comparison) (x y : A)
  (l : list A) :
  In y (insert_uniq cmp x l) -> y = x \/ In y l.
Proof.
  induction l as [|h t IH]; simpl; [intuition|].
  destruct (cmp x h); simpl; intuition.
Qed.

Lemma group_keys_subset {A : Type} (cmp : A -> A -> comparison) (y : A)
  (l : list A) :
  In y (group_keys cmp l) -> In y l.
Proof.
  induction l as [|x l IH]; simpl; [tauto|].
  intros H. apply insert_uniq_subset in H as [->|H]; auto.
Qed.

Lemma empty_frame_ok (cols : list string) :
  wf_frame (empty_frame cols) /\ canonical_frame (empty_frame cols).
Proof.
  split; [constructor | intros r []].
Qed.

Lemma pivot_table_wf (agg : list cell -> cell) (tall : list Tall) :
  wf_frame (pivot_table agg tall).
Proof.
  unfold wf_frame, pivot_table. cbn [rows columns].
  apply Forall_forall. intros r Hr. apply in_map_iff in Hr as (k & <- & _).
  cbn [feats]. apply length_map.
Qed.

Lemma pivot_table_country (agg : list cell -> cell) (tall : list Tall) (r : Row) :
  In r (rows (pivot_table agg tall)) ->
  exists t, In t tall /\ t_country t = Country r.
Proof.
  unfold pivot_table. cbn [rows]. intros Hr.
  apply in_map_iff in Hr as (k & <- & Hk).
  apply group_keys_subset in Hk. apply in_map_iff in Hk as (t & <- & Ht).
  apply filter_In in Ht as [Ht _]. exists t. auto.
Qed.

Section AdapterFrames.

Variable str_of_num : Q -> string.
Variable parse_num : string -> option Q.

Lemma oecd_tall_country (ref time value : nat) (measure : option nat)
  (rs : list (list cell)) (t : Tall) :
  In t (oecd_tall parse_num ref time value measure rs) ->
  exists row, In row rs /\ t_country t = country_of ref row.
Proof.
  unfold oecd_tall. intros H. apply in_flat_map in H as (row & Hrow & H).
  exists row. split; [exact Hrow|].
  destruct (int_year parse_num (nth time row NaN)); [|destruct H].
  destruct measure as [m|].
  - destruct (feature_of_measure (nth m row NaN)); [|destruct H].
    destruct H as [<-|[]]. reflexivity.
  - destruct H as [<-|[]]. reflexivity.
Qed.

Lemma oecd_frame_ok (csv xlsx : file) :
  wf_frame (process_oecd_msti str_of_num parse_num csv xlsx)
  /\ canonical_frame (process_oecd_msti str_of_num parse_num csv xlsx).
Proof.
  destruct (rows (process_oecd_msti str_of_num parse_num csv xlsx))
    as [|r0 rest] eqn:E.
  - split; [unfold wf_frame; rewrite E; constructor|].
    intros r Hr. rewrite E in Hr. destruct Hr.
  - assert (Hne : rows (process_oecd_msti str_of_num parse_num csv xlsx) <> [])
      by (rewrite E; discriminate).
    clear E. unfold process_oecd_msti in *.
    destruct (locate csv xlsx) as [|[df|]]; try (now destruct Hne).
    unfold try_except in *.
    destruct (oecd_body str_of_num parse_num df) as [frame|msg] eqn:Hbody;
      [|now destruct Hne].
    destruct (oecd_body_detected str_of_num parse_num df frame Hbody Hne)
      as (ref & time & value & H1 & _ & _ & ->).
    split; [apply pivot_table_wf|].
    intros r Hr. apply pivot_table_country in Hr as (t & Ht & <-).
    apply oecd_tall_country in Ht as (row & Hrow & ->).
    unfold oecd_surviving in Hrow. rewrite H1 in Hrow.
    now apply filter_target_countries_cell in Hrow.
Qed.

Lemma broadband_frame_ok (csv xlsx : file) :
  wf_frame (process_oecd_broadband str_of_num parse_num csv xlsx)
  /\ canonical_frame (process_oecd_broadband str_of_num parse_num csv xlsx).
Proof.
  destruct (rows (process_oecd_broadband str_of_num parse_num csv xlsx))
    as [|r0 rest] eqn:E.
  - split; [unfold wf_frame; rewrite E; constructor|].
    intros r Hr. rewrite E in Hr. destruct Hr.
  - assert (Hne : rows (process_oecd_broadband str_of_num parse_num csv xlsx) <> [])
      by (rewrite E; discriminate).
    clear E. unfold process_oecd_broadband in *.
    destruct (locate csv xlsx) as [|[df|]]; try (now destruct Hne).
    unfold try_except in *.
    destruct (broadband_body str_of_num parse_num df) as [frame|msg] eqn:Hbody;
      [|now destruct Hne].
    destruct (broadband_body_detected str_of_num parse_num df frame Hbody Hne)
      as (country & year & value & _ & _ & _ & ->).
    split.
    + apply Forall_forall. cbn [rows columns]. intros r Hr.
      apply in_map_iff in Hr as (g & <- & _). reflexivity.
    + intros r Hr. cbn [rows] in Hr. apply in_map_iff in Hr as (g & <- & Hg).
      cbn [Country]. unfold mean_by_key in Hg.
      apply in_map_iff in Hg as (k & <- & Hk). cbn [fst].
      apply group_keys_subset in Hk. apply in_map_iff in Hk as (rec & <- & Hrec).
      apply in_flat_map in Hrec as (row & Hrow & Hrec).
      destruct (int_year parse_num (nth year row NaN)); [|destruct Hrec].
      destruct Hrec as [<-|[]]. cbn [fst].
      now apply filter_target_countries_cell in Hrow.
Qed.

Lemma opt_shape_length (a b : option nat) (na nb : string) (row : list cell) :
  length (map (fun j => nth j row NaN) (opt_list a ++ opt_list b))
  = length (opt_name a na ++ opt_name b nb).
Proof. destruct a, b; reflexivity. Qed.

Lemma tortoise_frame_ok (csv xlsx : file) :
  wf_frame (process_tortoise_index str_of_num parse_num csv xlsx)
  /\ canonical_frame (process_tortoise_index str_of_num parse_num csv xlsx).
Proof.
  unfold process_tortoise_index.
  destruct (locate csv xlsx) as [|[df|]]; try apply empty_frame_ok.
  unfold tortoise_body.
  destruct (tr_country (tortoise_detect (raw_columns df))) as [country_col|];
    [|apply empty_frame_ok].
  destruct (length _ =? 0)%nat; [apply empty_frame_ok|].
  destruct (tr_year (tortoise_detect (raw_columns df))) as [year_col|];
    cbn [try_except]; split.
  - apply Forall_forall. cbn [rows columns]. intros r Hr.
    apply in_flat_map in Hr as (row & _ & Hr).
    destruct (int_year parse_num (nth year_col row NaN)); [|destruct Hr].
    destruct Hr as [<-|[]]. cbn [feats]. apply opt_shape_length.
  - intros r Hr. cbn [rows] in Hr.
    apply in_flat_map in Hr as (row & Hrow & Hr).
    destruct (int_year parse_num (nth year_col row NaN)); [|destruct Hr].
    destruct Hr as [<-|[]]. cbn [Country].
    now apply filter_target_countries_cell in Hrow.
  - apply Forall_forall. cbn [rows columns]. intros r Hr.
    apply in_map_iff in Hr as (row & <- & _). cbn [feats].
    apply opt_shape_length.
  - intros r Hr. cbn [rows] in Hr.
    apply in_map_iff in Hr as (row & <- & Hrow). cbn [Country].
    now apply filter_target_countries_cell in Hrow.
Qed.

Lemma ember_frame_ok (csv xlsx : file) :
  wf_frame (process_ember_electricity str_of_num parse_num csv xlsx)
  /\ canonical_frame (process_ember_electricity str_of_num parse_num csv xlsx).
Proof.
  unfold process_ember_electricity.
  destruct (locate csv xlsx) as [|[df|]]; try apply empty_frame_ok.
  unfold ember_body.
  destruct (fst (fold_left ember_country_step _ _)) as [country_col|];
    [|apply empty_frame_ok].
  destruct (snd (fold_left ember_country_step _ _)) as [year_col|];
    [|apply empty_frame_ok].
  destruct (length _ =? 0)%nat; [apply empty_frame_ok|].
  cbn [try_except]. split.
  - apply Forall_forall. cbn [rows columns]. intros r Hr.
    apply in_flat_map in Hr as (row & _ & Hr).
    destruct (int_year parse_num (nth year_col row NaN)); [|destruct Hr].
    destruct Hr as [<-|[]]. cbn [feats]. apply opt_shape_length.
  - intros r Hr. cbn [rows] in Hr.
    apply in_flat_map in Hr as (row & Hrow & Hr).
    destruct (int_year parse_num (nth year_col row NaN)); [|destruct Hr].
    destruct Hr as [<-|[]]. cbn [Country].
    now apply filter_target_countries_cell in Hrow.
Qed.

Lemma top500_frame_ok (csv xlsx : file) :
  wf_frame (process_top500_compute str_of_num parse_num csv xlsx)
  /\ canonical_frame (process_top500_compute str_of_num parse_num csv xlsx).
Proof.
  unfold process_top500_compute.
  destruct (locate csv xlsx) as [|[df|]]; try apply empty_frame_ok.
  unfold top500_body.
  destruct (t5_country (top500_detect (raw_columns df))) as [country_col|];
    [|apply empty_frame_ok].
  destruct (length _ =? 0)%nat; [apply empty_frame_ok|].
  destruct (t5_rmax (top500_detect (raw_columns df))) as [rmax_col|];
    [|destruct (t5_year (top500_detect (raw_columns df))); apply empty_frame_ok].
  destruct (t5_year (top500_detect (raw_columns df))) as [year_col|];
    cbn [try_except]; split.
  - apply Forall_forall. cbn [rows columns]. intros r Hr.
    apply in_map_iff in Hr as (g & <- & _). reflexivity.
  - intros r Hr. cbn [rows] in Hr. apply in_map_iff in Hr as (g & <- & Hg).
    cbn [Country]. unfold sum_by_country_year in Hg.
    apply in_map_iff in Hg as (k & <- & Hk). cbn [fst].
    apply group_keys_subset in Hk. apply in_map_iff in Hk as (kv & <- & Hkv).
    apply in_flat_map in Hkv as (rec & Hrec & Hkv).
    destruct (snd (fst rec)) as [y|s|]; [|destruct Hkv..].
    destruct Hkv as [<-|[]]. cbn [fst].
    apply in_map_iff in Hrec as (row & <- & Hrow). cbn [fst].
    now apply filter_target_countries_cell in Hrow.
  - apply Forall_forall. cbn [rows columns]. intros r Hr.
    apply in_map_iff in Hr as (g & <- & _). reflexivity.
  - intros r Hr. cbn [rows] in Hr. apply in_map_iff in Hr as (g & <- & Hg).
    cbn [Country]. unfold sum_by_country in Hg.
    apply in_map_iff in Hg as (c & <- & Hc). cbn [fst].
    apply group_keys_subset in Hc. apply in_map_iff in Hc as (rec & <- & Hrec).
    apply in_map_iff in Hrec as (row & <- & Hrow). cbn [fst].
    now apply filter_target_countries_cell in Hrow.
Qed.

Lemma stanford_combined_country (files : list (string * result RawTable))
  (t : Tall) :
  In t (stanford_combined str_of_num parse_num files) ->
  In (t_country t) TARGET_COUNTRIES.
Proof.
  unfold stanford_combined. intros H.
  apply in_map_iff in H as (lr & <- & H). cbn [t_country].
  apply in_flat_map in H as (f & _ & H).
  unfold stanford_file, bind in H.
  destruct (snd f) as [df|msg]; [|destruct H].
  destruct (length (raw_rows df) =? 0)%nat; [destruct H|].
  destruct (stanford_relevant str_of_num df); [|destruct H].
  cbn [try_except] in H. unfold stanford_long in H.
  apply in_flat_map in H as (jc & _ & H).
  apply in_flat_map in H as (row & _ & H).
  destruct (normalize_cell str_of_num (nth 0 row NaN)) as [c|]; [|destruct H].
  destruct (PyStr.in_list c TARGET_COUNTRIES) eqn:L; [|destruct H].
  destruct H as [<-|[]]. cbn [l_country]. now apply in_list_In.
Qed.

Lemma stanford_frame_ok (ai_folder : option (list (string * result RawTable))) :
  wf_frame (process_stanford_ai_index str_of_num parse_num ai_folder)
  /\ canonical_frame (process_stanford_ai_index str_of_num parse_num ai_folder).
Proof.
  unfold process_stanford_ai_index.
  destruct ai_folder as [files|]; [|apply empty_frame_ok].
  destruct (stanford_combined str_of_num parse_num files) as [|t0 ts] eqn:E;
    [apply empty_frame_ok|].
  rewrite <- E. cbn [try_except]. split; [apply pivot_table_wf|].
  intros r Hr. apply pivot_table_country in Hr as (t & Ht & <-).
  unfold groupby_max in Ht. apply in_map_iff in Ht as (k & <- & Hk).
  cbn [t_country]. apply group_keys_subset in Hk.
  apply in_map_iff in Hk as (t' & <- & Ht'). cbn [fst].
  now apply stanford_combined_country in Ht'.
Qed.

Lemma all_dataframes_ok (src : Sources) (name : string) (df : DataFrame) :
  In (name, Some df) (all_dataframes str_of_num parse_num src) ->
  wf_frame df /\ canonical_frame df.
Proof.
  unfold all_dataframes.
  intros [H|[H|[H|[H|[H|[H|[]]]]]]]; injection H as _ <-.
  - apply oecd_frame_ok.
  - apply ember_frame_ok.
  - apply broadband_frame_ok.
  - apply top500_frame_ok.
  - apply stanford_frame_ok.
  - apply tortoise_frame_ok.
Qed.

End AdapterFrames.

(** ** The keys of the interpolated table *)

Lemma keys_rows_of (df : DataFrame) (c : string) (y : Z) :
  In (c, y) (keys df) <-> In (c, y) (map key (rows_of c df)).
Proof.
  unfold keys. rewrite !in_map_iff. split.
  - intros (r & Hk & Hr). exists r. split; [exact Hk|].
    apply rows_of_country. split; [exact Hr|]. unfold key in Hk. congruence.
  - intros (r & Hk & Hr). exists r. split; [exact Hk|].
    now apply rows_of_country in Hr.
Qed.

Lemma year_rows_keys (ncols : nat) (c : string) (df_country : list Row)
  (years : list Z) (y : Z) :
  In (c, y) (map key (flat_map (year_rows ncols c df_country) years))
  <-> In y years.
Proof.
  rewrite in_map_iff. split.
  - intros (r & Hk & Hr). apply in_flat_map in Hr as (y' & Hy' & Hr).
    apply year_rows_key in Hr. rewrite Hr in Hk.
    injection Hk as <-. exact Hy'.
  - intros Hy.
    destruct (year_rows ncols c df_country y) as [|r rs] eqn:E;
      [now apply year_rows_nonempty in E|].
    assert (Hr : In r (year_rows ncols c df_country y)) by (rewrite E; now left).
    exists r. split; [now apply year_rows_key in Hr|].
    apply in_flat_map. exists y. auto.
Qed.

Lemma interpolate_keys_span (df : DataFrame) (c : string) (y : Z) :
  In c TARGET_COUNTRIES ->
  (In (c, y) (keys (interpolate_missing_years df))
   <-> exists y1 y2,
         In (c, y1) (keys df) /\ In (c, y2) (keys df) /\ y1 <= y <= y2).
Proof.
  intros Hc. rewrite keys_rows_of, rows_of_interpolate by assumption.
  destruct (interpolate_country_cases df c)
    as [[Hnil ->]|(r0 & rest & Hrows & ->)].
  - split; [intros []|]. intros (y1 & _ & H1 & _).
    apply keys_rows_of in H1. rewrite Hnil in H1. destruct H1.
  - cbn [concat]. rewrite app_nil_r, interpolate_cols_key, year_rows_keys.
    rewrite range_In.
    pose proof (min_max_of_country r0 rest) as (Hlo & Hhi & Hall).
    rewrite <- Hrows in Hlo, Hhi, Hall.
    assert (Hkey : forall z, In z (map Year (rows_of c df)) <-> In (c, z) (keys df)).
    { intros z. rewrite keys_rows_of, !in_map_iff. split.
      - intros (r & <- & Hr). exists r. split; [|exact Hr].
        apply rows_of_country in Hr as [_ <-]. reflexivity.
      - intros (r & Hk & Hr). exists r. split; [|exact Hr].
        unfold key in Hk. congruence. }
    rewrite <- Hrows. split.
    + intros Hy. exists (min_year (rows_of c df) (Year r0)),
                        (max_year (rows_of c df) (Year r0)).
      split; [now apply Hkey|]. split; [now apply Hkey | lia].
    + intros (y1 & y2 & H1 & H2 & Hy).
      apply Hkey, Hall in H1. apply Hkey, Hall in H2. lia.
Qed.

(** X17.  The keys of the interpolated table, whether or not the keys of
    the table are pairwise different: for a canonical country, (country,
    year) is a key of the result exactly when the year lies between two
    years that the table has for the country.  No key of a canonical
    country is lost, and no year outside the observed span is added. *)
Theorem interpolate_missing_years_keys (df : DataFrame) (c : string) (y : Z) :
  In c TARGET_COUNTRIES ->
  (In (c, y) (keys (interpolate_missing_years df))
   <-> exists y1 y2,
         In (c, y1) (keys df) /\ In (c, y2) (keys df) /\ y1 <= y <= y2).
Proof. apply interpolate_keys_span. Qed.

Lemma interpolate_missing_years_keys_witness :
  In ("China", 2019)
     (keys (interpolate_missing_years
              (mkDF ["A"] [ mkRow "China" 2018 [Num 1];
                            mkRow "China" 2018 [Num 2];
                            mkRow "China" 2021 [NaN] ])))
  <-> exists y1 y2,
        In ("China", y1)
           (keys (mkDF ["A"] [ mkRow "China" 2018 [Num 1];
                               mkRow "China" 2018 [Num 2];
                               mkRow "China" 2021 [NaN] ]))
        /\ In ("China", y2)
             (keys (mkDF ["A"] [ mkRow "China" 2018 [Num 1];
                                 mkRow "China" 2018 [Num 2];
                                 mkRow "China" 2021 [NaN] ]))
        /\ y1 <= 2019 <= y2.
Proof.
  apply (interpolate_missing_years_keys
           (mkDF ["A"] [ mkRow "China" 2018 [Num 1]; mkRow "China" 2018 [Num 2];
                         mkRow "China" 2021 [NaN] ])
           "China" 2019).
  simpl. tauto.
Defined.

(** ** The whole run *)


Lemma canonical_keys (df : DataFrame) :
  canonical_frame df <-> forall c y, In (c, y) (keys df) -> In c TARGET_COUNTRIES.
Proof.
  unfold canonical_frame, keys. split.
  - intros H c y Hk. apply in_map_iff in Hk as (r & Hk & Hr).
    apply H in Hr. unfold key in Hk. congruence.
  - intros H r Hr. apply (H (Country r) (Year r)).
    apply in_map_iff. exists r. auto.
Qed.

Lemma sort_values_keys (df : DataFrame) (k : string * Z) :
  In k (keys (sort_values df)) <-> In k (keys df).
Proof.
  unfold keys, sort_values. cbn [rows]. split; intros H.
  - eapply Permutation_in; [apply Permutation_map, sort_rows_perm | exact H].
  - eapply Permutation_in;
      [apply Permutation_map; symmetry; apply sort_rows_perm | exact H].
Qed.

Section Run.

Variable str_of_num : Q -> string.
Variable parse_num : string -> option Q.

Lemma merged_keys (src : Sources) (k : string * Z) :
  In k (keys (merge_all_data (all_dataframes str_of_num parse_num src)))
  <-> source_key str_of_num parse_num src k.
Proof. apply merge_all_data_keys_iff. Qed.

Lemma source_key_canonical (src : Sources) (c : string) (y : Z) :
  source_key str_of_num parse_num src (c, y) -> In c TARGET_COUNTRIES.
Proof.
  intros (name & df & Hin & Hk).
  apply all_dataframes_ok in Hin as [_ Hcan].
  now apply (proj1 (canonical_keys df) Hcan c y).
Qed.

Lemma merged_ok (src : Sources) :
  wf_frame (merge_all_data (all_dataframes str_of_num parse_num src))
  /\ canonical_frame (merge_all_data (all_dataframes str_of_num parse_num src)).
Proof.
  split.
  - apply merge_all_data_wf. intros name df Hin.
    now apply all_dataframes_ok in Hin.
  - apply canonical_keys. intros c y Hk. apply merged_keys in Hk.
    now apply source_key_canonical in Hk.
Qed.

Lemma main_cases (src : Sources) :
  let merged := merge_all_data (all_dataframes str_of_num parse_num src) in
  (rows merged = [] /\ main str_of_num parse_num src = None)
  \/ (rows merged <> []
      /\ main str_of_num parse_num src
         = Some (sort_values
                   (impute_with_commercial_score
                      (interpolate_missing_years merged)))).
Proof.
  intros merged. unfold main. fold merged. unfold len.
  destruct (rows merged) as [|r rs]; [now left|].
  right. split; [discriminate|].
  destruct (Z.of_nat (length (r :: rs)) =? 0) eqn:E; [|reflexivity].
  apply Z.eqb_eq in E. simpl in E. lia.
Qed.

Lemma final_keys (src : Sources) (k : string * Z) :
  In k (keys (sort_values
                (impute_with_commercial_score
                   (interpolate_missing_years
                      (merge_all_data (all_dataframes str_of_num parse_num src))))))
  <-> In k (keys (interpolate_missing_years
                    (merge_all_data (all_dataframes str_of_num parse_num src)))).
Proof.
  rewrite sort_values_keys. unfold keys. now rewrite impute_keys.
Qed.

Lemma interpolated_ok (src : Sources) :
  let merged := merge_all_data (all_dataframes str_of_num parse_num src) in
  rows merged <> [] ->
  rows (interpolate_missing_years merged) <> []
  /\ wf_frame (interpolate_missing_years merged)
  /\ canonical_frame (interpolate_missing_years merged).
Proof.
  intros merged Hne. destruct (merged_ok src) as [Hwf Hcan]. fold merged in Hwf, Hcan.
  assert (Hex : exists r, In r (rows merged) /\ In (Country r) TARGET_COUNTRIES).
  { destruct (rows merged) as [|r rs] eqn:E; [now destruct Hne|].
    exists r. split; [now left|]. apply Hcan. rewrite E. now left. }
  split; [|split].
  - destruct (interpolate_rows_cases merged) as [[Hnone _]|(_ & _ & H)]; [|exact H].
    destruct Hex as (r & Hr & Hc). now apply Hnone in Hr.
  - now apply interpolate_wf.
  - intros r. now apply interpolate_rows_canonical.
Qed.


Lemma main_keys_span (src : Sources) (out : DataFrame) (c : string) (y : Z) :
  main str_of_num parse_num src = Some out ->
  (In (c, y) (keys out)
   <-> exists y1 y2,
         source_key str_of_num parse_num src (c, y1)
         /\ source_key str_of_num parse_num src (c, y2)
         /\ y1 <= y <= y2).
Proof.
  intros Hmain. destruct (main_cases src) as [[_ Hnone]|[Hne Hsome]];
    [congruence|].
  rewrite Hsome in Hmain. injection Hmain as <-.
  rewrite final_keys.
  destruct (interpolated_ok src Hne) as (_ & _ & Hcan).
  split.
  - intros Hk.
    assert (Hc : In c TARGET_COUNTRIES)
      by now apply (proj1 (canonical_keys _) Hcan c y).
    apply (interpolate_keys_span _ c y Hc) in Hk as (y1 & y2 & H1 & H2 & Hy).
    exists y1, y2. rewrite <- !merged_keys. auto.
  - intros (y1 & y2 & H1 & H2 & Hy).
    assert (Hc : In c TARGET_COUNTRIES) by now apply source_key_canonical in H1.
    apply (interpolate_keys_span _ c y Hc).
    exists y1, y2. rewrite !merged_keys. auto.
Qed.

End Run.

(** ** The cells of the merged table *)

Lemma find_own_key (rs : list Row) (r : Row) :
  NoDup (map key rs) -> In r rs ->
  find (fun x => pair_eqb (key r) (key x)) rs = Some r.
Proof.
  induction rs as [|h t IH]; simpl; [tauto|].
  intros Hnd. inversion Hnd as [|? ? Hh Ht]; subst.
  intros [->|Hin].
  - now rewrite (proj2 (pair_eqb_eq (key r) (key r)) eq_refl).
  - destruct (pair_eqb (key r) (key h)) eqn:E; [|now apply IH].
    apply pair_eqb_eq in E. exfalso. apply Hh. rewrite <- E. now apply in_map.
Qed.

Lemma cells_of_own (t : DataFrame) (r : Row) :
  unique_keys t -> In r (rows t) -> cells_of t (key r) = feats r.
Proof.
  intros Hu Hr. unfold cells_of. now rewrite (find_own_key (rows t) r Hu Hr).
Qed.

Lemma cells_of_absent (t : DataFrame) (k : string * Z) :
  ~ In k (keys t) -> cells_of t k = nan_cells (length (columns t)).
Proof.
  intros Hk. unfold cells_of.
  destruct (find (fun r => pair_eqb k (key r)) (rows t)) as [r|] eqn:F;
    [|reflexivity].
  apply find_some in F as [Hr E]. apply pair_eqb_eq in E.
  exfalso. apply Hk. rewrite E. unfold keys. now apply in_map.
Qed.

Lemma joined_row_cells (right : DataFrame) (l : Row) :
  key (joined_row right l) = key l
  /\ feats (joined_row right l) = (feats l ++ cells_of right (key l))%list.
Proof. split; reflexivity. Qed.

Lemma nan_cells_concat (processed : list DataFrame) :
  concat (map (fun t => nan_cells (length (columns t))) processed)
  = nan_cells (list_sum (map (fun t => length (columns t)) processed)).
Proof.
  induction processed as [|t ts IH]; simpl; [reflexivity|].
  rewrite IH. unfold nan_cells. now rewrite repeat_app.
Qed.

Lemma unmatched_absent (left : DataFrame) (r : Row) :
  unmatched left r = true -> ~ In (key r) (keys left).
Proof.
  unfold unmatched. intros H Hin. apply negb_true_iff in H.
  unfold keys in Hin. apply in_map_iff in Hin as (l & Hk & Hl).
  assert (E : existsb (fun l => key_eqb l r) (rows left) = true).
  { apply existsb_exists. exists l. split; [exact Hl | now apply key_eqb_eq]. }
  congruence.
Qed.

Lemma merged_from_first (df : DataFrame) :
  unique_keys df -> merged_from [df] df.
Proof.
  intros Hu. repeat split.
  - simpl. lia.
  - intros H. exists df. split; [now left | exact H].
  - intros (t & [<-|[]] & H). exact H.
  - intros r Hr. simpl. rewrite app_nil_r. symmetry. now apply cells_of_own.
Qed.

Lemma merged_from_step (processed : list DataFrame) (m df : DataFrame) :
  unique_keys df -> merged_from processed m ->
  merged_from (processed ++ [df]) (pd_merge_outer m df).
Proof.
  intros Hu (Hw & Hk & Hc). repeat split.
  - unfold pd_merge_outer. cbn [columns].
    rewrite length_app, !length_map, map_app, list_sum_app, Hw. simpl. lia.
  - intros H. apply pd_merge_outer_keys in H as [H|H].
    + apply Hk in H as (t & Ht & H). exists t. split; [|exact H].
      apply in_app_iff. now left.
    + exists df. split; [|exact H]. apply in_app_iff. right. now left.
  - intros (t & Ht & H). apply pd_merge_outer_keys.
    apply in_app_iff in Ht as [Ht|[<-|[]]]; [left | now right].
    apply Hk. now exists t.
  - intros r Hr. rewrite merge_rows_unique in Hr by assumption.
    rewrite map_app, concat_app. simpl. rewrite app_nil_r.
    apply in_app_iff in Hr as [Hr|Hr]; apply in_map_iff in Hr as (x & <- & Hx).
    + destruct (joined_row_cells df x) as [-> ->]. f_equal. now apply Hc.
    + apply filter_In in Hx as [Hx Hun]. apply unmatched_absent in Hun.
      change (key (padded_row m x)) with (key x).
      change (feats (padded_row m x))
        with (nan_cells (length (columns m)) ++ feats x)%list.
      rewrite (cells_of_own df x Hu Hx). f_equal.
      rewrite Hw, <- nan_cells_concat. f_equal. apply map_ext_in.
      intros t Ht. symmetry. apply cells_of_absent. intros Hin.
      apply Hun, Hk. now exists t.
Qed.

Lemma live_tables_cons (name : string) (o : option DataFrame)
  (df_list : list (string * option DataFrame)) :
  live_tables ((name, o) :: df_list)
  = (match o with
     | Some df => if 0 <? len df then [df] else []
     | None => []
     end ++ live_tables df_list)%list.
Proof. reflexivity. Qed.

Lemma merge_fold_cells (df_list : list (string * option DataFrame))
  (acc : option DataFrame) (processed : list DataFrame) (m : DataFrame) :
  (forall t, In t (live_tables df_list) -> unique_keys t) ->
  match acc with
  | Some a => merged_from processed a
  | None => processed = []
  end ->
  fold_left merge_step df_list acc = Some m ->
  merged_from (processed ++ live_tables df_list) m.
Proof.
  revert acc processed. induction df_list as [|[name o] df_list IH];
    intros acc processed Hu Hacc.
  - cbn [fold_left]. intros ->. unfold live_tables. cbn [flat_map].
    now rewrite app_nil_r.
  - rewrite live_tables_cons in *. cbn [fold_left].
    unfold merge_step at 2. cbn [snd].
    destruct o as [df|]; [|now apply IH].
    destruct (0 <? len df); [|now apply IH].
    rewrite app_assoc.
    assert (Hdf : unique_keys df) by (apply Hu; now left).
    assert (Hrest : forall t, In t (live_tables df_list) -> unique_keys t).
    { intros t Ht. apply Hu. apply in_app_iff. now right. }
    destruct acc as [a|].
    + apply IH; [exact Hrest|]. now apply merged_from_step.
    + subst processed. apply IH; [exact Hrest|]. now apply merged_from_first.
Qed.

Lemma merge_cells (df_list : list (string * option DataFrame)) (r : Row) :
  (forall t, In t (live_tables df_list) -> unique_keys t) ->
  In r (rows (merge_all_data df_list)) ->
  feats r = concat (map (fun t => cells_of t (key r)) (live_tables df_list)).
Proof.
  intros Hu. unfold merge_all_data.
  destruct (fold_left merge_step df_list None) as [m|] eqn:E; [|intros []].
  destruct (len m =? 0); [intros []|].
  unfold sort_values. cbn [rows]. intros Hr.
  assert (Hm : In r (rows m))
    by (eapply Permutation_in; [apply sort_rows_perm | exact Hr]).
  destruct (merge_fold_cells df_list None [] m Hu eq_refl E) as (_ & _ & Hc).
  now apply Hc.
Qed.

(** X18.  What the merged table holds.  When the keys of every input table
    with rows are pairwise different, the cells of a row of the merged table
    are, side by side and in the order of the list, the cells that each of
    these tables has for the key of the row, and missing values for a table
    without that key: values are carried over unchanged, and the tables
    without row take no column. *)
Theorem merge_all_data_cells (df_list : list (string * option DataFrame)) (r : Row) :
  (forall t, In t (live_tables df_list) -> unique_keys t) ->
  In r (rows (merge_all_data df_list)) ->
  feats r = concat (map (fun t => cells_of t (key r)) (live_tables df_list)).
Proof. apply merge_cells. Qed.

Lemma merge_all_data_cells_witness :
  feats (mkRow "India" 2021 [NaN; Num 7])
  = concat (map (fun t => cells_of t (key (mkRow "India" 2021 [NaN; Num 7])))
              (live_tables
                 [ ("a", Some (mkDF ["A"] [ mkRow "China" 2020 [Num 1] ]));
                   ("e", Some (mkDF ["E"] []));
                   ("b", Some (mkDF ["B"] [ mkRow "India" 2021 [Num 7] ])) ])).
Proof.
  apply (merge_all_data_cells
           [ ("a", Some (mkDF ["A"] [ mkRow "China" 2020 [Num 1] ]));
             ("e", Some (mkDF ["E"] []));
             ("b", Some (mkDF ["B"] [ mkRow "India" 2021 [Num 7] ])) ]
           (mkRow "India" 2021 [NaN; Num 7])).
  - intros t [<-|[<-|[]]]; repeat constructor; simpl; tauto.
  - vm_compute. tauto.
Defined.

(** ** The columns of the merged table *)

Lemma NoDup_app_disjoint {A : Type} (l1 l2 : list A) (x : A) :
  NoDup (l1 ++ l2) -> In x l1 -> ~ In x l2.
Proof.
  induction l1 as [|a l1 IH]; simpl; [tauto|].
  intros Hnd. inversion Hnd as [|? ? Ha Hrest]; subst.
  intros [->|Hx] H2; [|now apply IH].
  apply Ha. apply in_app_iff. now right.
Qed.

Lemma suffixed_disjoint (other : list string) (suffix : string)
  (cols : list string) :
  (forall c, In c cols -> ~ In c other) ->
  map (suffixed other suffix) cols = cols.
Proof.
  intros H. rewrite <- (map_id cols) at 2. apply map_ext_in. intros c Hc.
  unfold suffixed. destruct (PyStr.in_list c other) eqn:E; [|reflexivity].
  apply in_list_In in E. now apply H in Hc.
Qed.

Lemma pd_merge_outer_columns (left right : DataFrame) :
  NoDup (columns left ++ columns right) ->
  columns (pd_merge_outer left right) = (columns left ++ columns right)%list.
Proof.
  intros Hnd. unfold pd_merge_outer. cbn [columns]. f_equal.
  - apply suffixed_disjoint. intros c Hc. now apply (NoDup_app_disjoint _ _ c Hnd).
  - apply suffixed_disjoint. intros c Hc Hl.
    now apply (NoDup_app_disjoint _ _ c Hnd Hl).
Qed.

Lemma pd_merge_outer_nonempty (left right : DataFrame) :
  rows left <> [] -> rows (pd_merge_outer left right) <> [].
Proof.
  unfold pd_merge_outer. cbn [rows]. destruct (rows left) as [|l ls]; [tauto|].
  intros _. cbn [flat_map].
  destruct (merge_left_row_nonempty (length (columns right)) (rows right) l)
    as (r & Hr).
  destruct (merge_left_row (length (columns right)) (rows right) l);
    [destruct Hr | discriminate].
Qed.

Lemma merge_fold_columns (df_list : list (string * option DataFrame))
  (acc : option DataFrame) (processed : list DataFrame) :
  NoDup (concat (map columns (processed ++ live_tables df_list))) ->
  match acc with
  | Some a => columns a = concat (map columns processed) /\ rows a <> []
  | None => processed = []
  end ->
  match fold_left merge_step df_list acc with
  | Some m => columns m = concat (map columns (processed ++ live_tables df_list))
              /\ rows m <> []
  | None => (processed ++ live_tables df_list)%list = []
  end.
Proof.
  revert acc processed. induction df_list as [|[name o] df_list IH];
    intros acc processed Hnd Hacc.
  - cbn [fold_left]. unfold live_tables. cbn [flat_map]. rewrite app_nil_r.
    destruct acc; [exact Hacc | now subst].
  - rewrite live_tables_cons in *. cbn [fold_left].
    unfold merge_step at 2. cbn [snd].
    destruct o as [df|]; [|now apply IH].
    destruct (0 <? len df) eqn:L; [|now apply IH].
    rewrite app_assoc in *.
    assert (Hrows : rows df <> []).
    { unfold len in L. destruct (rows df); [discriminate L | discriminate]. }
    destruct acc as [a|].
    + apply IH; [exact Hnd|]. destruct Hacc as [Hc Hr]. split.
      * rewrite map_app, concat_app. simpl. rewrite app_nil_r, <- Hc.
        apply pd_merge_outer_columns.
        rewrite !map_app, !concat_app in Hnd. simpl in Hnd.
        rewrite app_nil_r, <- Hc in Hnd. now apply NoDup_app_remove_r in Hnd.
      * now apply pd_merge_outer_nonempty.
    + subst processed. apply IH; [exact Hnd|]. split; [|exact Hrows].
      simpl. now rewrite app_nil_r.
Qed.

Lemma merge_columns (df_list : list (string * option DataFrame)) :
  NoDup (concat (map columns (live_tables df_list))) ->
  columns (merge_all_data df_list) = concat (map columns (live_tables df_list)).
Proof.
  intros Hnd. unfold merge_all_data.
  pose proof (merge_fold_columns df_list None [] Hnd eq_refl) as H.
  destruct (fold_left merge_step df_list None) as [m|].
  - destruct H as [Hc Hr]. unfold len.
    destruct (rows m) as [|r rs] eqn:E; [now destruct Hr|].
    destruct (Z.of_nat (length (r :: rs)) =? 0) eqn:Z0.
    + apply Z.eqb_eq in Z0. simpl in Z0. lia.
    + exact Hc.
  - simpl in H. now rewrite H.
Qed.

(** X19.  When no feature name occurs twice among the tables with rows,
    the feature columns of the merged table are the feature columns of these
    tables, in the order of the list and under their own names: no name gets
    a suffix, and a table without row contributes no column. *)
Theorem merge_all_data_columns (df_list : list (string * option DataFrame)) :
  NoDup (concat (map columns (live_tables df_list))) ->
  columns (merge_all_data df_list) = concat (map columns (live_tables df_list)).
Proof. apply merge_columns. Qed.

Lemma merge_all_data_columns_witness :
  columns (merge_all_data
             [ ("a", Some (mkDF ["A"] [ mkRow "China" 2020 [Num 1] ]));
               ("e", Some (mkDF ["E"] []));
               ("b", Some (mkDF ["B"; "C"] [ mkRow "India" 2021 [Num 7; NaN] ])) ])
  = ["A"; "B"; "C"].
Proof.
  apply (merge_all_data_columns
           [ ("a", Some (mkDF ["A"] [ mkRow "China" 2020 [Num 1] ]));
             ("e", Some (mkDF ["E"] []));
             ("b", Some (mkDF ["B"; "C"] [ mkRow "India" 2021 [Num 7; NaN] ])) ]).
  repeat constructor; simpl; intuition discriminate.
Defined.

(** ** Guarded column detection *)

Lemma tortoise_step_country (acc : tortoise_roles) (j : nat) (c : string) :
  tr_country (tortoise_detect_step acc (j, c))
  = if (is_none (tr_country acc) && tortoise_country_name c)%bool
    then Some j else tr_country acc.
Proof.
  unfold tortoise_detect_step, tortoise_country_name. cbn [fst snd]. chain_cases.
Qed.

Lemma top500_step_country (acc : top500_roles) (j : nat) (c : string) :
  t5_country (top500_detect_step acc (j, c))
  = if (is_none (t5_country acc) && top500_country_name c)%bool
    then Some j else t5_country acc.
Proof.
  unfold top500_detect_step, top500_country_name. cbn [fst snd]. chain_cases.
Qed.

Lemma ember_step_country (acc : option nat * option nat) (j : nat) (c : string) :
  fst (ember_country_step acc (j, c))
  = if (is_none (fst acc) && ember_country_name c)%bool
    then Some j else fst acc.
Proof.
  unfold ember_country_step, ember_country_name. cbn [fst snd]. chain_cases.
Qed.

(** X20.  The composite-index, compute and electricity adapters take as
    country column the first column whose lower-case name passes their
    country test, and none exactly when no column passes it; the broadband
    adapter, like the R&D adapter, takes the last one. *)
Theorem guarded_detect_first_wins (cols : list string) :
  found_first tortoise_country_name cols (tr_country (tortoise_detect cols))
  /\ found_first top500_country_name cols (t5_country (top500_detect cols))
  /\ found_first ember_country_name cols
       (fst (fold_left ember_country_step (enumerate cols) (None, None)))
  /\ found_last oecd_ref_name cols (br_country (broadband_detect cols)).
Proof.
  repeat split.
  - apply (first_wins _ _ tr_country); [exact tortoise_step_country | reflexivity].
  - apply (first_wins _ _ t5_country); [exact top500_step_country | reflexivity].
  - apply (first_wins _ _ fst); [exact ember_step_country | reflexivity].
  - apply broadband_detect_found.
Qed.

(** ** Frames of the adapters and of the run *)




(** X23.  The keys of the table the run writes: (country, year) is a key
    of it exactly when the year lies between two years that the source
    tables have for the country.  No key of a source table is lost, the gaps
    between the observed years of a country are filled, and nothing is added
    outside its observed span. *)
Theorem main_keys (str_of_num : Q -> string) (parse_num : string -> option Q)
  (src : Sources) (out : DataFrame) (c : string) (y : Z) :
  main str_of_num parse_num src = Some out ->
  (In (c, y) (keys out)
   <-> exists y1 y2,
         source_key str_of_num parse_num src (c, y1)
         /\ source_key str_of_num parse_num src (c, y2)
         /\ y1 <= y <= y2).
Proof. apply main_keys_span. Qed.

Lemma main_keys_witness :
  In ("United States", 2021)
     (keys (sort_values
              (impute_with_commercial_score
                 (interpolate_missing_years
                    (merge_all_data
                       (all_dataframes (fun _ => "") (fun _ => None)
                          (composite_index_only
                             (mkRaw ["Country"; "Year"; "Commercial"]
                                    [ [Str "USA"; Num 2020; Num 1];
                                      [Str "USA"; Num 2023; Num 4] ]))))))))
  <-> exists y1 y2,
        source_key (fun _ => "") (fun _ => None)
          (composite_index_only
             (mkRaw ["Country"; "Year"; "Commercial"]
                    [ [Str "USA"; Num 2020; Num 1];
                      [Str "USA"; Num 2023; Num 4] ]))
          ("United States", y1)
        /\ source_key (fun _ => "") (fun _ => None)
             (composite_index_only
                (mkRaw ["Country"; "Year"; "Commercial"]
                       [ [Str "USA"; Num 2020; Num 1];
                         [Str "USA"; Num 2023; Num 4] ]))
             ("United States", y2)
        /\ y1 <= 2021 <= y2.
Proof.
  apply (main_keys (fun _ => "") (fun _ => None)
           (composite_index_only
              (mkRaw ["Country"; "Year"; "Commercial"]
                     [ [Str "USA"; Num 2020; Num 1];
                       [Str "USA"; Num 2023; Num 4] ]))).
  vm_compute. reflexivity.
Defined.

(** ** Broadband adapter *)

Lemma mean_by_key_rows (recs : list (string * Z * cell)) :
  let frame := mkDF broadband_shape
                 (map (fun g => mkRow (fst (fst g)) (snd (fst g)) [snd g])
                      (mean_by_key recs)) in
  NoDup (keys frame)
  /\ (forall k, In k (keys frame) <-> In k (map fst recs))
  /\ forall r, In r (rows frame) ->
       feats r
       = [agg_mean (map snd (filter (fun kv => pair_eqb (fst kv) (key r)) recs))].
Proof.
  cbn zeta.
  assert (Hkeys : keys (mkDF broadband_shape
                          (map (fun g => mkRow (fst (fst g)) (snd (fst g)) [snd g])
                               (mean_by_key recs)))
                  = group_keys pair_compare (map fst recs)).
  { unfold keys, mean_by_key. cbn [rows]. rewrite !map_map.
    rewrite <- (map_id (group_keys pair_compare (map fst recs))) at 2.
    apply map_ext. intros [c y]. reflexivity. }
  split; [|split].
  - rewrite Hkeys. apply group_keys_NoDup.
    + exact pair_compare_eq.
    + exact pair_compare_gt.
    + exact pair_compare_trans.
    + exact pair_compare_irrefl.
  - intros k. rewrite Hkeys. apply group_keys_In. exact pair_compare_eq.
  - intros r Hr. cbn [rows] in Hr. apply in_map_iff in Hr as (g & <- & Hg).
    unfold mean_by_key in Hg. apply in_map_iff in Hg as ([c y] & <- & _).
    reflexivity.
Qed.

(** X24.  A frame with rows that the broadband adapter returns is built
    from the detected columns: its keys are pairwise different, they are the
    (Country, Year) pairs of the rows of target countries with a known year,
    and the one cell of a row is the arithmetic mean of the values of the
    rows of its key (missing when none is a number). *)
Theorem process_oecd_broadband_mean (str_of_num : Q -> string)
  (parse_num : string -> option Q) (csv xlsx : file) :
  rows (process_oecd_broadband str_of_num parse_num csv xlsx) <> [] ->
  exists df country year value,
    locate csv xlsx = Present (Some df)
    /\ br_country (broadband_detect (raw_columns df)) = Some country
    /\ br_year (broadband_detect (raw_columns df)) = Some year
    /\ br_value (broadband_detect (raw_columns df)) = Some value
    /\ NoDup (keys (process_oecd_broadband str_of_num parse_num csv xlsx))
    /\ (forall k,
          In k (keys (process_oecd_broadband str_of_num parse_num csv xlsx))
          <-> In k (map fst (broadband_records str_of_num parse_num df
                               country year value)))
    /\ forall r,
         In r (rows (process_oecd_broadband str_of_num parse_num csv xlsx)) ->
         feats r
         = [agg_mean
              (map snd
                 (filter (fun kv => pair_eqb (fst kv) (key r))
                    (broadband_records str_of_num parse_num df
                       country year value)))].
Proof.
  unfold process_oecd_broadband.
  destruct (locate csv xlsx) as [|[df|]]; try (intros H; now destruct H).
  unfold try_except.
  destruct (broadband_body str_of_num parse_num df) as [frame|msg] eqn:Hbody;
    [|intros H; now destruct H].
  intros Hrows.
  destruct (broadband_body_detected str_of_num parse_num df frame Hbody Hrows)
    as (country & year & value & H1 & H2 & H3 & ->).
  exists df, country, year, value.
  repeat (split; [reflexivity || assumption|]).
  apply (mean_by_key_rows
           (broadband_records str_of_num parse_num df country year value)).
Qed.

Lemma process_oecd_broadband_mean_witness :
  exists df country year value,
    locate (Present (Some (mkRaw ["REF_AREA"; "TIME_PERIOD"; "OBS_VALUE"]
                                  [ [Str "USA"; Num 2020; Num 4];
                                    [Str "USA"; Num 2020; Num 6] ]))) Absent
    = Present (Some df)
    /\ br_country (broadband_detect (raw_columns df)) = Some country
    /\ br_year (broadband_detect (raw_columns df)) = Some year
    /\ br_value (broadband_detect (raw_columns df)) = Some value
    /\ NoDup (keys (process_oecd_broadband (fun _ => "") (fun _ => None)
                      (Present (Some (mkRaw ["REF_AREA"; "TIME_PERIOD"; "OBS_VALUE"]
                                            [ [Str "USA"; Num 2020; Num 4];
                                              [Str "USA"; Num 2020; Num 6] ])))
                      Absent))
    /\ (forall k,
          In k (keys (process_oecd_broadband (fun _ => "") (fun _ => None)
                        (Present (Some (mkRaw ["REF_AREA"; "TIME_PERIOD"; "OBS_VALUE"]
                                              [ [Str "USA"; Num 2020; Num 4];
                                                [Str "USA"; Num 2020; Num 6] ])))
                        Absent))
          <-> In k (map fst (broadband_records (fun _ => "") (fun _ => None) df
                               country year value)))
    /\ forall r,
         In r (rows (process_oecd_broadband (fun _ => "") (fun _ => None)
                       (Present (Some (mkRaw ["REF_AREA"; "TIME_PERIOD"; "OBS_VALUE"]
                                             [ [Str "USA"; Num 2020; Num 4];
                                               [Str "USA"; Num 2020; Num 6] ])))
                       Absent)) ->
         feats r
         = [agg_mean
              (map snd
                 (filter (fun kv => pair_eqb (fst kv) (key r))
                    (broadband_records (fun _ => "") (fun _ => None) df
                       country year value)))].
Proof.
  apply (process_oecd_broadband_mean (fun _ => "") (fun _ => None)
           (Present (Some (mkRaw ["REF_AREA"; "TIME_PERIOD"; "OBS_VALUE"]
                                 [ [Str "USA"; Num 2020; Num 4];
                                   [Str "USA"; Num 2020; Num 6] ]))) Absent).
  vm_compute. discriminate.
Defined.

(** ** Columns that hold text *)

Lemma map_pair_eq {A B C : Type} (f : A -> B) (g : A -> C) (l l' : list A) :
  map f l = map f l' -> map g l = map g l' ->
  map (fun x => (f x, g x)) l = map (fun x => (f x, g x)) l'.
Proof.
  revert l'. induction l as [|a l IH]; intros [|b l']; simpl; try discriminate;
    [reflexivity|].
  intros [= Hf Hfs] [= Hg Hgs]. rewrite Hf, Hg. f_equal. now apply IH.
Qed.

Lemma interpolate_cols_text (df : DataFrame) (j : nat) (base : list Row) :
  numeric_col (rows df) j = false ->
  map (fun r => (key r, cell_at j r))
      (fold_left (fun rs col => set_col col (interpolate (get_col col rs)) rs)
                 (numeric_cols df) base)
  = map (fun r => (key r, cell_at j r)) base.
Proof.
  intros Hn. apply map_pair_eq.
  - apply interpolate_cols_key.
  - apply (interpolate_cols_other (numeric_cols df) base j).
    intros Hin. apply numeric_cols_In in Hin as [_ Hin]. congruence.
Qed.

Lemma interpolate_text_column (df : DataFrame) (c : string) (j : nat) :
  In c TARGET_COUNTRIES -> numeric_col (rows df) j = false ->
  (forall r0, In r0 (rows_of c df) ->
     exists r, In r (rows_of c (interpolate_missing_years df))
               /\ key r = key r0 /\ cell_at j r = cell_at j r0)
  /\ (forall r, In r (rows_of c (interpolate_missing_years df)) ->
        cell_at j r = NaN
        \/ exists r0, In r0 (rows_of c df)
                      /\ key r0 = key r /\ cell_at j r0 = cell_at j r).
Proof.
  intros Hc Hn. rewrite rows_of_interpolate by assumption.
  destruct (interpolate_country_cases df c)
    as [[Hnil ->]|(x & rest & Hrows & ->)].
  - rewrite Hnil. split; [intros r0 [] | intros r []].
  - cbn [concat]. rewrite app_nil_r.
    set (base := flat_map (year_rows (length (columns df)) c (x :: rest))
                   (range (min_year (x :: rest) (Year x))
                          (max_year (x :: rest) (Year x) + 1))).
    pose proof (interpolate_cols_text df j base Hn) as Hpairs.
    pose proof (min_max_of_country x rest) as (_ & _ & Hall).
    split.
    + intros r0 Hr0.
      assert (Hb : In (mkRow c (Year r0) (feats r0)) base).
      { unfold base. apply in_flat_map. exists (Year r0). split.
        - apply range_In. rewrite Hrows in Hr0.
          specialize (Hall (Year r0) (in_map Year _ _ Hr0)). lia.
        - unfold year_rows.
          assert (Hf : In r0 (filter (fun r => Year r =? Year r0) (x :: rest))).
          { apply filter_In. rewrite <- Hrows. split; [exact Hr0 | apply Z.eqb_refl]. }
          destruct (filter (fun r => Year r =? Year r0) (x :: rest)) as [|m ms];
            [destruct Hf|].
          apply in_map_iff. exists r0. auto. }
      apply (in_map (fun r => (key r, cell_at j r))) in Hb.
      rewrite <- Hpairs in Hb. apply in_map_iff in Hb as (r & Hr & Hin).
      exists r. split; [exact Hin|].
      apply rows_of_country in Hr0 as [_ Hcountry].
      injection Hr as Hk1 Hk2 Hcell. unfold key. rewrite Hk1, Hk2. cbn [Country Year].
      split; [now rewrite Hcountry | exact Hcell].
    + intros r Hr.
      apply (in_map (fun r => (key r, cell_at j r))) in Hr.
      rewrite Hpairs in Hr. apply in_map_iff in Hr as (b & Hb & Hin).
      injection Hb as Hk1 Hk2 Hcell.
      unfold base in Hin. apply in_flat_map in Hin as (y & _ & Hin).
      unfold year_rows in Hin.
      destruct (filter (fun r => Year r =? y) (x :: rest)) as [|m ms] eqn:F.
      * left. destruct Hin as [<-|[]]. rewrite <- Hcell.
        unfold cell_at. cbn [feats]. apply nth_nan_cells.
      * right. apply in_map_iff in Hin as (r0 & <- & Hr0).
        rewrite <- F in Hr0. apply filter_In in Hr0 as [Hr0 Hy].
        apply Z.eqb_eq in Hy. rewrite <- Hrows in Hr0.
        exists r0. split; [exact Hr0|].
        apply rows_of_country in Hr0 as [_ Hcountry].
        cbn [Country Year feats] in Hk1, Hk2, Hcell.
        split; [|exact Hcell].
        unfold key. now rewrite Hcountry, Hy, Hk1, Hk2.
Qed.

(** X25.  A column that holds a text somewhere in the table is never
    interpolated: for a canonical country, every row of the table is found
    in the result with its key and its cell of that column as they were,
    and a cell of that column in the result is either the cell of a row of
    the table with the same key or the missing value of an added year. *)
Theorem interpolate_missing_years_text_columns (df : DataFrame) (c : string)
  (j : nat) :
  In c TARGET_COUNTRIES -> numeric_col (rows df) j = false ->
  (forall r0, In r0 (rows_of c df) ->
     exists r, In r (rows_of c (interpolate_missing_years df))
               /\ key r = key r0 /\ cell_at j r = cell_at j r0)
  /\ (forall r, In r (rows_of c (interpolate_missing_years df)) ->
        cell_at j r = NaN
        \/ exists r0, In r0 (rows_of c df)
                      /\ key r0 = key r /\ cell_at j r0 = cell_at j r).
Proof. apply interpolate_text_column. Qed.

Lemma interpolate_missing_years_text_columns_witness :
  (forall r0,
     In r0 (rows_of "China"
              (mkDF ["Note"] [ mkRow "China" 2018 [Str "a"];
                               mkRow "China" 2020 [NaN] ])) ->
     exists r,
       In r (rows_of "China"
               (interpolate_missing_years
                  (mkDF ["Note"] [ mkRow "China" 2018 [Str "a"];
                                   mkRow "China" 2020 [NaN] ])))
       /\ key r = key r0 /\ cell_at 0 r = cell_at 0 r0)
  /\ (forall r,
        In r (rows_of "China"
                (interpolate_missing_years
                   (mkDF ["Note"] [ mkRow "China" 2018 [Str "a"];
                                    mkRow "China" 2020 [NaN] ]))) ->
        cell_at 0 r = NaN
        \/ exists r0,
             In r0 (rows_of "China"
                      (mkDF ["Note"] [ mkRow "China" 2018 [Str "a"];
                                       mkRow "China" 2020 [NaN] ]))
             /\ key r0 = key r /\ cell_at 0 r0 = cell_at 0 r).
Proof.
  apply (interpolate_missing_years_text_columns
           (mkDF ["Note"] [ mkRow "China" 2018 [Str "a"]; mkRow "China" 2020 [NaN] ])
           "China" 0%nat).
  - simpl. tauto.
  - reflexivity.
Defined.

(** ** Compute-capacity adapter *)



